(** * Agent portal front-end: OTP modal, HTTP client wrapper, credential store

    A shallow embedding of [frontend/components/OTPModal.tsx] and
    [frontend/lib/api.ts], and the properties of the specification that
    concern them.

    Conventions.
    - A JavaScript string is a [string]: a sequence of code units (the
      embedding covers code units below 256).  [s.length] is
      [String.length s].
    - A React event handler is a computation in the [Handler] monad: it
      reads the state cells of the render it was created in (the closure,
      passed as [r]) and writes through the [set...] operations.
    - An [async] function is split at its [await]: the part that runs
      synchronously ([..._begin]) and the continuation that runs when the
      awaited promise settles ([..._resume]).
    - The updates one handler makes are applied together, in one render
      (automatic batching), and the effects of a render have run before
      the next event is handled. *)

From Stdlib Require Import ZArith Ascii String List Bool Lia DecimalString.
From stdpp Require Import base option list strings gmap.

Local Open Scope Z_scope.

(** ** JavaScript values shared by the two files *)

(** Thrown values.  Every value thrown in these files is an error object
    carrying a [message]. *)
Inductive js_error : Type :=
  | Error (message : string)
  | TypeError (message : string)
  | SyntaxError (message : string).

Definition message (e : js_error) : string :=
  match e with
  | Error m | TypeError m | SyntaxError m => m
  end.

(** Completion of a call: it returns or it throws. *)
Inductive result (A : Type) : Type :=
  | Returns (a : A)
  | Throws (e : js_error).
Arguments Returns {A} a.
Arguments Throws {A} e.

#[global] Instance result_ret : MRet result := @Returns.
#[global] Instance result_bind : MBind result := fun A B k m =>
  match m with
  | Returns a => k a
  | Throws e => Throws e
  end.

(** [try { body } catch (error) { handler }]. *)
Definition tryCatch {A} (body : result A) (handler : js_error -> result A) : result A :=
  match body with
  | Returns a => Returns a
  | Throws error => handler error
  end.

(** How an awaited promise settles. *)
Inductive outcome : Type :=
  | Resolved
  | Rejected (err : js_error).

(** [a || b] on strings: the empty string is falsy. *)
Definition or_else (a b : string) : string :=
  match a with
  | EmptyString => b
  | _ => a
  end.

(** ** OTPModal.tsx *)
Module OTPModal.

(** The five [useState] cells of the component. *)
Record State : Type := mkState {
  otp : string;
  loading : bool;
  error : string;
  countdown : Z;
  canResend : bool
}.

(** [useState('')], [useState(false)], [useState('')], [useState(60)],
    [useState(false)]. *)
Definition initialState : State :=
  {| otp := ""; loading := false; error := ""; countdown := 60;
     canResend := false |}.

(** Calls that leave the component. *)
Inductive call : Type :=
  | OnVerify (code : string)
  | ResendOTP (email purpose : string).

(** A handler threads the state cells and logs the outside calls it makes. *)
Definition Handler (A : Type) : Type := State -> A * State * list call.

Definition pure {A} (a : A) : Handler A := fun s => (a, s, []).

Definition andThen {A B} (m : Handler A) (k : A -> Handler B) : Handler B :=
  fun s =>
    let '(a, s1, c1) := m s in
    let '(b, s2, c2) := k a s1 in
    (b, s2, c1 ++ c2).

#[global] Instance Handler_ret : MRet Handler := @pure.
#[global] Instance Handler_bind : MBind Handler := fun A B k m => andThen m k.

Definition setOtp (v : string) : Handler unit := fun s =>
  (tt, {| otp := v; loading := loading s; error := error s;
          countdown := countdown s; canResend := canResend s |}, []).
Definition setLoading (v : bool) : Handler unit := fun s =>
  (tt, {| otp := otp s; loading := v; error := error s;
          countdown := countdown s; canResend := canResend s |}, []).
Definition setError (v : string) : Handler unit := fun s =>
  (tt, {| otp := otp s; loading := loading s; error := v;
          countdown := countdown s; canResend := canResend s |}, []).
Definition setCountdown (v : Z) : Handler unit := fun s =>
  (tt, {| otp := otp s; loading := loading s; error := error s;
          countdown := v; canResend := canResend s |}, []).
Definition setCanResend (v : bool) : Handler unit := fun s =>
  (tt, {| otp := otp s; loading := loading s; error := error s;
          countdown := countdown s; canResend := v |}, []).
Definition invoke (c : call) : Handler unit := fun s => (tt, s, [c]).

(** A handler created by render [r], run on the cells of that render. *)
Definition perform {A} (h : State -> Handler A) (r : State) : A * State * list call :=
  h r r.

Definition stateOf {A} (x : A * State * list call) : State := snd (fst x).
Definition callsOf {A} (x : A * State * list call) : list call := snd x.
Definition valueOf {A} (x : A * State * list call) : A := fst (fst x).

(** [/\D/]: a code unit that is not one of 0..9. *)
Definition isDigit (c : ascii) : bool :=
  (48 <=? nat_of_ascii c)%nat && (nat_of_ascii c <=? 57)%nat.

(** [s.replace(/\D/g, '')]. *)
Fixpoint removeNonDigits (s : string) : string :=
  match s with
  | EmptyString => EmptyString
  | String c s' =>
      if isDigit c then String c (removeNonDigits s') else removeNonDigits s'
  end.

Fixpoint allDigits (s : string) : bool :=
  match s with
  | EmptyString => true
  | String c s' => isDigit c && allDigits s'
  end.

Section Component.

(** Props [email] and [purpose] (default ['signup'] filled by the caller). *)
Variables (email purpose : string).

(** The countdown [useEffect], dependencies [[countdown, isOpen]].  Its
    result is the timer it leaves pending: [Some v] stands for
    [setTimeout(() => setCountdown(v), 1000)], whose cleanup clears it. *)
Definition countdownEffect (isOpen : bool) (r : State) : Handler (option Z) :=
  if negb isOpen then
    setCountdown 60 ;;
    setCanResend false ;;
    pure None
  else if 0 <? countdown r then
    pure (Some (countdown r - 1))
  else
    setCanResend true ;;
    pure None.

(** [handleOTPChange], applied to [e.target.value]. *)
Definition handleOTPChange (r : State) (target_value : string) : Handler unit :=
  let value := removeNonDigits target_value in
  if (String.length value <=? 6)%nat then
    setOtp value ;;
    setError ""
  else
    pure tt.

(** [handleVerify] up to its [await]; the result tells whether
    [onVerify] was called and is being awaited. *)
Definition handleVerify_begin (r : State) : Handler bool :=
  if negb (String.length (otp r) =? 6)%nat then
    setError "Please enter a 6-digit OTP" ;;
    pure false
  else
    setLoading true ;;
    setError "" ;;
    invoke (OnVerify (otp r)) ;;
    pure true.

(** [handleVerify] after the awaited promise settled: [catch], then
    [finally]. *)
Definition handleVerify_resume (o : outcome) : Handler unit :=
  match o with
  | Resolved => pure tt
  | Rejected err => setError (or_else (message err) "Invalid OTP. Please try again.")
  end ;;
  setLoading false.

(** [handleVerify] run to completion against a callback [onVerify]. *)
Definition handleVerify (onVerify : string -> outcome) (r : State) : Handler unit :=
  awaiting ← handleVerify_begin r;
  if (awaiting : bool) then handleVerify_resume (onVerify (otp r)) else pure tt.

(** [handleResend] up to its [await]. *)
Definition handleResend_begin (r : State) : Handler unit :=
  setLoading true ;;
  setError "" ;;
  invoke (ResendOTP email purpose).

(** [handleResend] after [authAPI.resendOTP] settled. *)
Definition handleResend_resume (o : outcome) : Handler unit :=
  match o with
  | Resolved =>
      setCountdown 60 ;;
      setCanResend false ;;
      setOtp "" ;;
      setError ""
  | Rejected err => setError (or_else (message err) "Failed to resend OTP")
  end ;;
  setLoading false.

(** [handleResend] run to completion against [authAPI.resendOTP]. *)
Definition handleResend (resendOTP : string -> string -> outcome) (r : State)
  : Handler unit :=
  handleResend_begin r ;;
  handleResend_resume (resendOTP email purpose).

(** [handleKeyPress], applied to [e.key]. *)
Definition handleKeyPress (r : State) (key : string) : Handler bool :=
  if String.eqb key "Enter" && (String.length (otp r) =? 6)%nat then
    handleVerify_begin r
  else
    pure false.

(** *** The component instance under React

    Besides the state cells an instance has the [isOpen] prop, the timer
    the countdown effect left pending, and the promises it is awaiting. *)
Record Component : Type := mkComponent {
  isOpen : bool;
  state : State;
  timer : option Z;
  pendingVerify : nat;
  pendingResend : nat
}.

(** The dependency array [[countdown, isOpen]]. *)
Definition deps (c : Component) : Z * bool := (countdown (state c), isOpen c).

Definition deps_eqb (a b : Z * bool) : bool :=
  (fst a =? fst b) && Bool.eqb (snd a) (snd b).

(** One run of the effect: the cleanup of the previous run clears its
    timer, the new run may leave another one. *)
Definition runEffect (c : Component) : Component :=
  let out := countdownEffect (isOpen c) (state c) (state c) in
  {| isOpen := isOpen c; state := stateOf out; timer := valueOf out;
     pendingVerify := pendingVerify c; pendingResend := pendingResend c |}.

(** After a render React runs the effect when a dependency differs from
    the ones of its last run ([last]); the effect's own updates render
    again. *)
Fixpoint flushEffects (fuel : nat) (last : Z * bool) (c : Component) : Component :=
  match fuel with
  | O => c
  | S fuel' =>
      if deps_eqb (deps c) last then c
      else flushEffects fuel' (deps c) (runEffect c)
  end.

Definition commit (last : Z * bool) (c : Component) : Component :=
  flushEffects 3 last c.

Definition countCalls (p : call -> bool) (l : list call) : nat :=
  length (filter (fun x => p x = true) l).

Definition isOnVerify (x : call) : bool :=
  match x with OnVerify _ => true | _ => false end.
Definition isResendOTP (x : call) : bool :=
  match x with ResendOTP _ _ => true | _ => false end.

(** Run an event handler of the current render, then commit. *)
Definition dispatch {A} (h : State -> Handler A) (c : Component) : Component :=
  let out := perform h (state c) in
  commit (deps c)
    {| isOpen := isOpen c; state := stateOf out; timer := timer c;
       pendingVerify := pendingVerify c + countCalls isOnVerify (callsOf out);
       pendingResend := pendingResend c + countCalls isResendOTP (callsOf out) |}.

Definition setIsOpen (b : bool) (c : Component) : Component :=
  commit (deps c)
    {| isOpen := b; state := state c; timer := timer c;
       pendingVerify := pendingVerify c; pendingResend := pendingResend c |}.

(** The pending timer fires: its callback runs [setCountdown v]. *)
Definition fireTimer (v : Z) (c : Component) : Component :=
  commit (deps c)
    {| isOpen := isOpen c; state := stateOf (setCountdown v (state c));
       timer := None;
       pendingVerify := pendingVerify c; pendingResend := pendingResend c |}.

Definition settleVerify (c : Component) : Component :=
  {| isOpen := isOpen c; state := state c; timer := timer c;
     pendingVerify := Nat.pred (pendingVerify c);
     pendingResend := pendingResend c |}.
Definition settleResend (c : Component) : Component :=
  {| isOpen := isOpen c; state := state c; timer := timer c;
     pendingVerify := pendingVerify c;
     pendingResend := Nat.pred (pendingResend c) |}.

(** What can happen to a mounted modal. *)
Inductive event : Type :=
  | Open                              (* the parent sets isOpen *)
  | Close                             (* the parent clears isOpen *)
  | Tick                              (* the pending timer fires *)
  | Change (target_value : string)    (* onChange of the input *)
  | KeyPress (key : string)           (* onKeyPress of the input *)
  | ClickVerify
  | VerifySettled (o : outcome)       (* the awaited onVerify settles *)
  | ClickResend
  | ResendSettled (o : outcome).      (* the awaited resendOTP settles *)

(** The controls exist only while [isOpen] (the component renders [null]
    otherwise); the input is [disabled={loading}], the verify button
    [disabled={loading || otp.length !== 6}], the resend button is
    rendered when [canResend] and is [disabled={loading}].  A change event
    may carry any string: [maxLength={6}] limits what typing yields, the
    handler does its own check.  A promise may settle at any later time,
    also after the modal was closed or opened again. *)
Definition step (e : event) (c : Component) : option Component :=
  match e with
  | Open => if isOpen c then None else Some (setIsOpen true c)
  | Close => if isOpen c then Some (setIsOpen false c) else None
  | Tick =>
      match timer c with
      | Some v => Some (fireTimer v c)
      | None => None
      end
  | Change v =>
      if isOpen c && negb (loading (state c))
      then Some (dispatch (fun r => handleOTPChange r v) c) else None
  | KeyPress k =>
      if isOpen c && negb (loading (state c))
      then Some (dispatch (fun r => handleKeyPress r k) c) else None
  | ClickVerify =>
      if isOpen c
         && negb (loading (state c) || negb (String.length (otp (state c)) =? 6)%nat)
      then Some (dispatch handleVerify_begin c) else None
  | VerifySettled o =>
      if (0 <? pendingVerify c)%nat
      then Some (dispatch (fun _ => handleVerify_resume o) (settleVerify c))
      else None
  | ClickResend =>
      if isOpen c && canResend (state c) && negb (loading (state c))
      then Some (dispatch handleResend_begin c) else None
  | ResendSettled o =>
      if (0 <? pendingResend c)%nat
      then Some (dispatch (fun _ => handleResend_resume o) (settleResend c))
      else None
  end.

(** Mounting renders with the initial cells and runs the effect once. *)
Definition mount (open : bool) : Component :=
  let c0 := {| isOpen := open; state := initialState; timer := None;
               pendingVerify := 0; pendingResend := 0 |} in
  commit (deps c0) (runEffect c0).

Inductive reachable : Component -> Prop :=
  | reachable_mount (open : bool) : reachable (mount open)
  | reachable_step (c c' : Component) (e : event) :
      reachable c -> step e c = Some c' -> reachable c'.

(** What holds of every state React shows between two events. *)
Definition settled (c : Component) : Prop :=
  (canResend (state c) = true <-> countdown (state c) = 0)
  /\ 0 <= countdown (state c) <= 60
  /\ (isOpen c = false -> countdown (state c) = 60 /\ timer c = None)
  /\ (isOpen c = true ->
      timer c = if 0 <? countdown (state c)
                then Some (countdown (state c) - 1) else None).

Fixpoint run (es : list event) (c : Component) : option Component :=
  match es with
  | [] => Some c
  | e :: es' =>
      match step e c with
      | Some c' => run es' c'
      | None => None
      end
  end.

End Component.

End OTPModal.

(** ** lib/api.ts *)
Module Api.

(** *** Strings of the language *)

(** [s.split(sep)] for a separator of one code unit. *)
Fixpoint split (sep : ascii) (s : string) : list string :=
  match s with
  | EmptyString => [EmptyString]
  | String c s' =>
      if Ascii.eqb c sep then EmptyString :: split sep s'
      else
        match split sep s' with
        | piece :: pieces => String c piece :: pieces
        | [] => [String c EmptyString]
        end
  end.

(** [l.join(sep)]. *)
Fixpoint join (sep : string) (l : list string) : string :=
  match l with
  | [] => ""
  | [x] => x
  | x :: rest => x +:+ sep +:+ join sep rest
  end.

Fixpoint stripStart (p : ascii -> bool) (s : string) : string :=
  match s with
  | EmptyString => EmptyString
  | String c s' => if p c then stripStart p s' else s
  end.

Fixpoint stripEnd (p : ascii -> bool) (s : string) : string :=
  match s with
  | EmptyString => EmptyString
  | String c s' =>
      match stripEnd p s' with
      | EmptyString => if p c then EmptyString else String c EmptyString
      | t => String c t
      end
  end.

(** White space and line terminators of the language, among the code
    units below 256: TAB, LF, VT, FF, CR, SP, NBSP. *)
Definition isWhiteSpace (c : ascii) : bool :=
  let n := nat_of_ascii c in
  ((9 <=? n)%nat && (n <=? 13)%nat) || (n =? 32)%nat || (n =? 160)%nat.

(** [s.trim()]. *)
Definition trim (s : string) : string :=
  stripEnd isWhiteSpace (stripStart isWhiteSpace s).

(** The text before and after the first [sep], when there is one. *)
Fixpoint breakAt (sep : ascii) (s : string) : option (string * string) :=
  match s with
  | EmptyString => None
  | String c s' =>
      if Ascii.eqb c sep then Some (EmptyString, s')
      else
        match breakAt sep s' with
        | Some (a, b) => Some (String c a, b)
        | None => None
        end
  end.

Definition upTo (sep : ascii) (s : string) : string :=
  match breakAt sep s with
  | Some (a, _) => a
  | None => s
  end.

Fixpoint contains (c : ascii) (s : string) : bool :=
  match s with
  | EmptyString => false
  | String c' s' => Ascii.eqb c' c || contains c s'
  end.

(** *** JSON values *)

(** Numbers are kept abstract: the code only tests them for truth and
    converts them to strings. *)
Class JsNumber : Type := {
  number : Type;
  number_truthy : number -> bool;
  number_toString : number -> string
}.

Section Json.
Context {N : JsNumber}.

#[local] Set Warnings "-register-all".
Inductive json : Type :=
  | JNull
  | JBool (b : bool)
  | JNum (n : number)
  | JStr (s : string)
  | JArr (items : list json)
  | JObj (fields : list (string * json)).
#[local] Set Warnings "register-all".

(** ToBoolean. *)
Definition truthy (v : json) : bool :=
  match v with
  | JNull => false
  | JBool b => b
  | JNum n => number_truthy n
  | JStr s => negb (String.eqb s "")
  | JArr _ | JObj _ => true
  end.

(** ToString: an array joins its elements with commas, [null] elements
    giving the empty string; a plain object gives [[object Object]]. *)
Fixpoint toString (v : json) : string :=
  match v with
  | JNull => "null"
  | JBool true => "true"
  | JBool false => "false"
  | JNum n => number_toString n
  | JStr s => s
  | JArr items =>
      join "," (map (fun x => match x with JNull => "" | _ => toString x end) items)
  | JObj _ => "[object Object]"
  end.

Fixpoint assoc (key : string) (fields : list (string * json)) : option json :=
  match fields with
  | [] => None
  | (k, v) :: rest => if String.eqb k key then Some v else assoc key rest
  end.

(** [data.key] for [key] one of [detail], [message], which no prototype
    defines: reading it off [null] throws, off an object it gives the own
    property or [undefined] ([None]), off anything else [undefined]. *)
Definition getProp (data : json) (key : string) : result (option json) :=
  match data with
  | JNull =>
      Throws (TypeError ("Cannot read properties of null (reading '" +:+ key +:+ "')"))
  | JObj fields => Returns (assoc key fields)
  | _ => Returns None
  end.

Definition truthy_opt (v : option json) : bool :=
  match v with
  | Some x => truthy x
  | None => false
  end.

End Json.

(** *** The browser: clock, [document.cookie], [localStorage] *)

(** The cookies that [document.cookie] shows the page, oldest first, as
    name and value, and the local storage.  The cookies are those the page
    writes itself: with [path=/], for its own host and readable by script,
    so that a cookie is identified by its name, and no cookie that is
    hidden from script bears one of their names.  The page is served over
    https or from localhost, where a browser takes the [Secure] cookies
    that a production build writes; on another page a production build
    cannot store its tokens at all. *)
Record World : Type := mkWorld {
  cookies : list (string * string);
  localStorage : gmap string string;
  now : Z                               (* ms since the epoch *)
}.

(** A string assigned to [document.cookie]: the text up to the attributes
    that the code appends, and those attributes.  [expires] is the instant
    the attribute denotes. *)
Record CookieString : Type := mkCookieString {
  nameValue : string;
  expires : Z;
  path : string;
  sameSite : option string;
  secure : bool
}.

(** Space and horizontal tab. *)
Definition isWSP (c : ascii) : bool :=
  let n := nat_of_ascii c in (n =? 32)%nat || (n =? 9)%nat.

Definition trimWSP (s : string) : string := stripEnd isWSP (stripStart isWSP s).

(** The control characters: the code units below 32, and DEL. *)
Definition isControl (c : ascii) : bool :=
  let n := nat_of_ascii c in (n <? 32)%nat || (n =? 127)%nat.

(** The printable characters of ASCII, space included: what every browser
    stores in a cookie value and gives back unchanged. *)
Definition isCookieChar (c : ascii) : bool :=
  let n := nat_of_ascii c in (32 <=? n)%nat && (n <=? 126)%nat.

Fixpoint allChars (p : ascii -> bool) (s : string) : bool :=
  match s with
  | EmptyString => true
  | String c s' => p c && allChars p s'
  end.

(** The length of a text in UTF-8, for code units below 256: browsers
    measure cookies in octets. *)
Fixpoint octets (s : string) : nat :=
  match s with
  | EmptyString => 0
  | String c s' => ((if (nat_of_ascii c <? 128)%nat then 1 else 2) + octets s')%nat
  end.

(** The names that begin with two underscores: the prefixes [__Secure-]
    and [__Host-] bind a cookie to attributes that [deleteCookie] never
    sends and [setCookie] sends in production only. *)
Definition isReserved (name : string) : bool :=
  match name with
  | String "_" (String "_" _) => true
  | _ => false
  end.

(** A cookie name that every browser stores as written and that
    [getCookie] finds again: not empty, free of [=], [;] and control
    characters, without white space at either end, not reserved, and of a
    size that every browser takes. *)
Definition plainName (name : string) : bool :=
  negb (String.eqb name "")
  && negb (contains "=" name) && negb (contains ";" name)
  && String.eqb (stripStart isWhiteSpace name) name
  && String.eqb (stripEnd isWhiteSpace name) name
  && allChars (fun c => negb (isControl c)) name
  && negb (isReserved name)
  && (octets name <=? 4000)%nat.

(** A value that every browser stores under [name] as written, up to the
    spaces around it: printable ASCII without [;], of a size that every
    browser takes (browsers allow a cookie 4096 octets or a few less; the
    bound leaves room for the attributes that [setCookie] appends). *)
Definition regular (name value : string) : bool :=
  allChars isCookieChar value && negb (contains ";" value)
  && (octets name + octets value <=? 4000)%nat.

Fixpoint storeCookie (name value : string) (jar : list (string * string))
  : list (string * string) :=
  match jar with
  | [] => [(name, value)]
  | (n, v) :: rest =>
      if String.eqb n name then (name, value) :: rest
      else (n, v) :: storeCookie name value rest
  end.

Fixpoint removeCookie (name : string) (jar : list (string * string))
  : list (string * string) :=
  match jar with
  | [] => []
  | (n, v) :: rest =>
      if String.eqb n name then removeCookie name rest
      else (n, v) :: removeCookie name rest
  end.

(** What a browser makes of a write on which browsers differ: it ignores
    the write, removes the cookie of that name, or keeps a part of the
    value it parsed ([keep] code units after the first [skip]). *)
Inductive verdict : Type :=
  | Ignored
  | Removed
  | Kept (skip keep : nat).

(** Where browsers differ.  [oddValue] settles a write of a plain name
    whose value is not regular: one that holds a control character (cut
    there by some browsers, refused by others), a character outside ASCII,
    more octets than the limit, or a [;], after which the rest of the
    value is read as attributes of the cookie ([HttpOnly] and a foreign
    [Domain] make a browser refuse the write, [Max-Age] overrules the
    expiry).  [oddName] gives the jar after a write without a plain name:
    a browser may ignore it, keep a cookie without a name, keep one under
    a name it cut, or refuse a reserved name that lacks its attributes. *)
Class Browser : Type := {
  oddValue : CookieString -> World -> verdict;
  oddName : CookieString -> World -> list (string * string)
}.

(** Assignment to [document.cookie], after RFC 6265, 5.2 and 5.3, and its
    revision's limits: the name-value pair ends at the first [;] and is
    split at its first [=]; name and value are trimmed of spaces and tabs.
    For a plain name and a regular value without smuggled attributes all
    browsers agree: a cookie whose expiry is not in the future removes the
    cookie of that name, any other one replaces it in place or is added
    last.  Every other write is left to the browser; with a plain name it
    touches the cookie of that name only. *)
Definition set_document_cookie `{Browser} (cs : CookieString) (w : World) : World :=
  let jar :=
    match breakAt "=" (upTo ";" (nameValue cs)) with
    | None => oddName cs w
    | Some (n, v) =>
        let name := trimWSP n in
        let value := trimWSP v in
        if negb (plainName name) then oddName cs w
        else if negb (contains ";" (nameValue cs)) && regular name value then
          if expires cs <=? now w then removeCookie name (cookies w)
          else storeCookie name value (cookies w)
        else
          match oddValue cs w with
          | Ignored => cookies w
          | Removed => removeCookie name (cookies w)
          | Kept skip keep =>
              storeCookie name (substring skip keep value) (cookies w)
          end
    end in
  {| cookies := jar; localStorage := localStorage w; now := now w |}.

(** Reading [document.cookie] (RFC 6265, 5.4); a cookie without a name
    shows as its value alone. *)
Definition document_cookie (w : World) : string :=
  join "; "
    (map (fun c => if String.eqb (fst c) "" then snd c
                   else fst c +:+ "=" +:+ snd c) (cookies w)).

Definition localStorage_setItem (key value : string) (w : World) : World :=
  {| cookies := cookies w; localStorage := <[key := value]> (localStorage w);
     now := now w |}.

Definition localStorage_removeItem (key : string) (w : World) : World :=
  {| cookies := cookies w; localStorage := delete key (localStorage w);
     now := now w |}.

(** [string | null], and the [undefined] a destructuring can give. *)
Inductive maybeString : Type :=
  | Null
  | Undefined
  | Str (s : string).

(** [!!token]. *)
Definition truthyString (t : maybeString) : bool :=
  match t with
  | Str s => negb (String.eqb s "")
  | _ => false
  end.

(** [process.env]. *)
Record Env : Type := mkEnv {
  NEXT_PUBLIC_API_URL : option string;
  NODE_ENV : string
}.

(** *** The functions of api.ts *)

Record RequestInit : Type := mkRequestInit {
  method : option string;
  body : option string;
  headers : gmap string string
}.

(** What [fetch] is called with. *)
Record Request : Type := mkRequest {
  url : string;
  request_method : option string;
  request_body : option string;
  request_headers : gmap string string;
  credentials : string
}.

Section Api.
Context {N : JsNumber}.
Context {B : Browser}.

(** [process.env], and [JSON.parse] and [JSON.stringify] of the platform. *)
Variable env : Env.
Variable JSON_parse : string -> result json.
Variable JSON_stringify : json -> string.

(** A response: its [ok] flag and what [response.json()] settles to. *)
Record Response : Type := mkResponse {
  ok : bool;
  response_json : result json
}.

Definition API_BASE_URL : string :=
  match NEXT_PUBLIC_API_URL env with
  | Some u => or_else u "http://localhost:8000"
  | None => "http://localhost:8000"
  end.

Definition setCookie (name value : string) (days : Z) (w : World) : World :=
  let expires := now w + days * 24 * 60 * 60 * 1000 in
  let cookieString :=
    {| nameValue := name +:+ "=" +:+ value; expires := expires; path := "/";
       sameSite := Some "Lax";
       secure := String.eqb (NODE_ENV env) "production" |} in
  set_document_cookie cookieString w.

(** The loop of [getCookie] over the pieces of [document.cookie]. *)
Fixpoint findCookie (name : string) (cookies : list string) : maybeString :=
  match cookies with
  | [] => Null
  | cookie :: rest =>
      match split "=" (trim cookie) with
      | cookieName :: more =>
          if String.eqb cookieName name then
            match more with
            | cookieValue :: _ => Str cookieValue
            | [] => Undefined
            end
          else findCookie name rest
      | [] => findCookie name rest
      end
  end.

Definition getCookie (name : string) (w : World) : maybeString :=
  let cookies := split ";" (document_cookie w) in
  findCookie name cookies.

Definition deleteCookie (name : string) (w : World) : World :=
  set_document_cookie
    {| nameValue := name +:+ "="; expires := 0; path := "/";
       sameSite := None; secure := false |} w.

Record AuthData : Type := mkAuthData {
  access : string;
  refresh : string;
  user : option json
}.

Definition saveAuthData (authData : AuthData) (w : World) : World :=
  let w := setCookie "access_token" (access authData) 7 w in
  let w := setCookie "refresh_token" (refresh authData) 30 w in
  match user authData with
  | Some u =>
      if truthy u then localStorage_setItem "user" (JSON_stringify u) w else w
  | None => w
  end.

(** [getUserData]: [null] is [JNull]. *)
Definition getUserData (w : World) : result json :=
  match localStorage w !! "user" with
  | Some userData =>
      if negb (String.eqb userData "") then JSON_parse userData
      else Returns JNull
  | None => Returns JNull
  end.

Definition clearAuthData (w : World) : World :=
  let w := deleteCookie "access_token" w in
  let w := deleteCookie "refresh_token" w in
  localStorage_removeItem "user" w.

Definition isAuthenticated (w : World) : bool :=
  let token := getCookie "access_token" w in
  truthyString token.

(** The [headers] object of [apiRequest]: later spreads win. *)
Definition requestHeaders (options : RequestInit) (w : World) : gmap string string :=
  let token := getCookie "access_token" w in
  headers options
  ∪ match token with
    | Str t => if truthyString token
               then {[ "Authorization" := "Bearer " +:+ t ]} else ∅
    | _ => ∅
    end
  ∪ {[ "Content-Type" := "application/json" ]}.

Definition buildRequest (endpoint : string) (options : RequestInit) (w : World)
  : Request :=
  {| url := API_BASE_URL +:+ endpoint;
     request_method := method options;
     request_body := body options;
     request_headers := requestHeaders options w;
     credentials := "include" |}.

(** [a || b], where [b] is evaluated only when [a] is falsy. *)
Definition orElse (a : option json) (b : result (option json)) : result (option json) :=
  if truthy_opt a then Returns a else b.

(** [new Error(v)]: the message is [v] converted to a string, and empty
    for [undefined]. *)
Definition newError (v : option json) : js_error :=
  match v with
  | Some x => Error (toString x)
  | None => Error ""
  end.

(** [throw new Error(data.detail || data.message || 'API request failed')]. *)
Definition throwApiError (data : json) : result json :=
  detail ← getProp data "detail";
  first ← orElse detail (getProp data "message");
  reason ← orElse first (Returns (Some (JStr "API request failed")));
  Throws (newError reason).

(** [apiRequest], against the [fetch] of the platform.  The [catch] logs
    the error and throws the same one again. *)
Definition apiRequest (fetch : Request -> result Response)
    (endpoint : string) (options : RequestInit) (w : World) : result json :=
  tryCatch
    (response ← fetch (buildRequest endpoint options w);
     data ← response_json response;
     if negb (ok response) then throwApiError data
     else Returns data)
    (fun error => Throws error).

(** *** The specification's reading of the same operations *)

(** The message the specification gives a failed request: the [detail]
    field of the body, else its [message] field, else the fixed text.  A
    field counts when it is present and truthy. *)
Definition failureMessage (data : json) : string :=
  let field (key : string) : option json :=
    match data with
    | JObj fields => assoc key fields
    | _ => None
    end in
  match field "detail" with
  | Some d =>
      if truthy d then toString d
      else match field "message" with
           | Some m => if truthy m then toString m else "API request failed"
           | None => "API request failed"
           end
  | None =>
      match field "message" with
      | Some m => if truthy m then toString m else "API request failed"
      | None => "API request failed"
      end
  end.

(** The value [getCookie] gives back for a regular value passed to
    [setCookie]: trimmed of spaces by the browser, trimmed again at its
    end by [getCookie], cut at the first [=]. *)
Definition readBack (value : string) : string :=
  upTo "=" (stripEnd isWhiteSpace (trimWSP value)).

(** A cookie jar as the page's own writes leave it. *)
Definition jarOk (jar : list (string * string)) : Prop :=
  Forall (fun c => plainName (fst c) = true /\ contains ";" (snd c) = false) jar.

Fixpoint lookupCookie (name : string) (jar : list (string * string)) : option string :=
  match jar with
  | [] => None
  | (n, v) :: rest => if String.eqb n name then Some v else lookupCookie name rest
  end.

End Api.

(** *** A concrete platform, for the examples *)

#[global] Instance integerNumbers : JsNumber :=
  {| number := Z;
     number_truthy := fun z => negb (z =? 0);
     number_toString := fun z => NilZero.string_of_int (Z.to_int z) |}.

(** A [JSON.parse] that knows the three literal texts and rejects every
    other text.  It agrees with the platform's on the texts used in the
    examples. *)
Definition parseLiteral (text : string) : result json :=
  if String.eqb text "null" then Returns JNull
  else if String.eqb text "true" then Returns (JBool true)
  else if String.eqb text "false" then Returns (JBool false)
  else Throws (SyntaxError "Unexpected token").

Definition development : Env :=
  {| NEXT_PUBLIC_API_URL := None; NODE_ENV := "development" |}.

Definition emptyWorld (t : Z) : World :=
  {| cookies := []; localStorage := ∅; now := t |}.

(** A browser for the examples.  Of a value that is not regular it keeps
    what it parsed, as every browser does when the text after a [;] names
    no attribute it knows, and it ignores a write without a plain name.
    Apart from that the examples write regular cookies, which every
    browser treats alike. *)
Definition lenient : Browser :=
  {| oddValue := fun cs _ => Kept 0 (String.length (nameValue cs));
     oddName := fun _ w => cookies w |}.

End Api.

(** ** OTPModal.tsx: the calls an event makes *)
Module OTPModalCalls.
Import OTPModal.

Section Calls.
Variables (email purpose : string).

(** The calls that leave the component while it handles [e]: those of the
    handler that [step] dispatches. *)
Definition emitted (e : event) (c : Component) : list call :=
  match e with
  | Open | Close | Tick => []
  | Change v => callsOf (perform (fun r => handleOTPChange r v) (state c))
  | KeyPress k => callsOf (perform (fun r => handleKeyPress r k) (state c))
  | ClickVerify => callsOf (perform handleVerify_begin (state c))
  | VerifySettled o => callsOf (perform (fun _ => handleVerify_resume o) (state c))
  | ClickResend => callsOf (perform (handleResend_begin email purpose) (state c))
  | ResendSettled o => callsOf (perform (fun _ => handleResend_resume o) (state c))
  end.

End Calls.

End OTPModalCalls.

(** ** Regular expressions, as far as the pages use them *)
Module Regex.

Inductive regex : Type :=
  | Never
  | Empty
  | Class (p : ascii -> bool)
  | Seq (r1 r2 : regex)
  | Alt (r1 r2 : regex)
  | Star (r : regex).

(** [r+] and a literal code unit. *)
Definition Plus (r : regex) : regex := Seq r (Star r).
Definition Chr (c : ascii) : regex := Class (Ascii.eqb c).

(** The strings a pattern matches as a whole. *)
Inductive matches : regex -> string -> Prop :=
  | matches_empty : matches Empty ""
  | matches_class (p : ascii -> bool) (c : ascii) :
      p c = true -> matches (Class p) (String c "")
  | matches_seq (r1 r2 : regex) (s1 s2 : string) :
      matches r1 s1 -> matches r2 s2 -> matches (Seq r1 r2) (s1 +:+ s2)
  | matches_alt_l (r1 r2 : regex) (s : string) :
      matches r1 s -> matches (Alt r1 r2) s
  | matches_alt_r (r1 r2 : regex) (s : string) :
      matches r2 s -> matches (Alt r1 r2) s
  | matches_star_nil (r : regex) : matches (Star r) ""
  | matches_star_cons (r : regex) (s1 s2 : string) :
      matches r s1 -> matches (Star r) s2 -> matches (Star r) (s1 +:+ s2).

Fixpoint nullable (r : regex) : bool :=
  match r with
  | Never => false
  | Empty => true
  | Class _ => false
  | Seq r1 r2 => nullable r1 && nullable r2
  | Alt r1 r2 => nullable r1 || nullable r2
  | Star _ => true
  end.

(** What is left of [r] after the code unit [c]. *)
Fixpoint derive (c : ascii) (r : regex) : regex :=
  match r with
  | Never | Empty => Never
  | Class p => if p c then Empty else Never
  | Seq r1 r2 =>
      if nullable r1 then Alt (Seq (derive c r1) r2) (derive c r2)
      else Seq (derive c r1) r2
  | Alt r1 r2 => Alt (derive c r1) (derive c r2)
  | Star r' => Seq (derive c r') (Star r')
  end.

(** [/^r$/.test(s)]. *)
Fixpoint test (r : regex) (s : string) : bool :=
  match s with
  | EmptyString => nullable r
  | String c s' => test (derive c r) s'
  end.

(** Every code unit of [s] is in the class [p]. *)
Fixpoint allOf (p : ascii -> bool) (s : string) : bool :=
  match s with
  | EmptyString => true
  | String c s' => p c && allOf p s'
  end.

(** [[^\s@]]. *)
Definition notSpaceNorAt (c : ascii) : bool :=
  negb (Api.isWhiteSpace c) && negb (Ascii.eqb c "@").

(** [/^[^\s@]+@[^\s@]+\.[^\s@]+$/]. *)
Definition emailRegex : regex :=
  Seq (Plus (Class notSpaceNorAt))
    (Seq (Chr "@")
       (Seq (Plus (Class notSpaceNorAt))
          (Seq (Chr ".") (Plus (Class notSpaceNorAt))))).

(** [hay.includes(needle)]. *)
Fixpoint startsWith (needle hay : string) : bool :=
  match needle, hay with
  | EmptyString, _ => true
  | String a needle', String b hay' => Ascii.eqb a b && startsWith needle' hay'
  | String _ _, EmptyString => false
  end.

Fixpoint includes (needle hay : string) : bool :=
  startsWith needle hay
  || match hay with
     | EmptyString => false
     | String _ hay' => includes needle hay'
     end.

End Regex.

(** ** The pages: signup, login, dashboard *)
Module Pages.
Import Api Regex.

(** What a page does to the outside: a call of [authAPI] (endpoint and
    options, as passed to [apiRequest]) and a navigation. *)
Inductive effect : Type :=
  | ApiCall (endpoint : string) (options : RequestInit)
  | RouterPush (path : string).

(** The cells of a page together with the browser. *)
Record Store (P : Type) : Type := mkStore {
  page : P;
  world : World
}.
Arguments mkStore {P} page world.
Arguments page {P} s.
Arguments world {P} s.

(** A handler of a page threads the store and logs its effects. *)
Definition Script (P A : Type) : Type := Store P -> A * Store P * list effect.

#[global] Instance Script_ret {P} : MRet (Script P) :=
  fun A a s => (a, s, []).
#[global] Instance Script_bind {P} : MBind (Script P) :=
  fun A B k m s =>
    let '(a, s1, e1) := m s in
    let '(b, s2, e2) := k a s1 in
    (b, s2, e1 ++ e2).

Definition setCell {P} (f : P -> P) : Script P unit :=
  fun s => (tt, {| page := f (page s); world := world s |}, []).
Definition onWorld {P} (f : World -> World) : Script P unit :=
  fun s => (tt, {| page := page s; world := f (world s) |}, []).
Definition readWorld {P} : Script P World := fun s => (world s, s, []).
Definition emit {P} (e : effect) : Script P unit := fun s => (tt, s, [e]).

Definition resultOf {P A} (x : A * Store P * list effect) : A := fst (fst x).
Definition storeOf {P A} (x : A * Store P * list effect) : Store P := snd (fst x).
Definition effectsOf {P A} (x : A * Store P * list effect) : list effect := snd x.

Section Pages.
Context {N : JsNumber}.
Variable env : Env.
Variable JSON_parse : string -> result json.
Variable JSON_stringify : json -> string.

(** The [fetch] of the platform. *)
Variable fetch : Request -> result Response.

(** An awaited call of [apiRequest]. *)
Definition callApi {P} (endpoint : string) (options : RequestInit)
  : Script P (result json) :=
  emit (ApiCall endpoint options) ;;
  w ← readWorld;
  mret (apiRequest env fetch endpoint options w).

(** [authAPI]. *)
Definition authAPI_signup {P} (email password : string) : Script P (result json) :=
  callApi "/api/users/agent/signup/"
    {| method := Some "POST";
       body := Some (JSON_stringify
                       (JObj [("email", JStr email); ("password", JStr password)]));
       headers := ∅ |}.

Definition authAPI_verifyOTP {P} (email otp : string) : Script P (result json) :=
  callApi "/api/users/agent/verify-otp/"
    {| method := Some "POST";
       body := Some (JSON_stringify
                       (JObj [("email", JStr email); ("otp", JStr otp)]));
       headers := ∅ |}.

Definition authAPI_login {P} (email password : string) : Script P (result json) :=
  callApi "/api/users/agent/login/"
    {| method := Some "POST";
       body := Some (JSON_stringify
                       (JObj [("email", JStr email); ("password", JStr password)]));
       headers := ∅ |}.

Definition authAPI_resendOTP {P} (email purpose : string) : Script P (result json) :=
  callApi "/api/users/agent/resend-otp/"
    {| method := Some "POST";
       body := Some (JSON_stringify
                       (JObj [("email", JStr email); ("purpose", JStr purpose)]));
       headers := ∅ |}.

(** A value inside a template literal: [undefined] reads "undefined". *)
Definition interpolate (v : option json) : string :=
  match v with
  | Some x => toString x
  | None => "undefined"
  end.

(** [{access: response.access, refresh: response.refresh, user:
    response.user}]: the three property reads ([getProp] serves these keys
    as well), which throw on a [null] response.  The tokens reach only the
    template literal of [setCookie], which converts them to strings. *)
Definition authDataOf (response : json) : result AuthData :=
  a ← getProp response "access";
  r ← getProp response "refresh";
  u ← getProp response "user";
  Returns {| access := interpolate a; refresh := interpolate r; user := u |}.

End Pages.

End Pages.

(** ** The signup page *)
Module SignupPage.
Import Api Regex Pages.

Record Signup : Type := mkSignup {
  email : string;
  password : string;
  confirmPassword : string;
  loading : bool;
  error : string;
  showOTPModal : bool
}.

Definition initialSignup : Signup :=
  {| email := ""; password := ""; confirmPassword := ""; loading := false;
     error := ""; showOTPModal := false |}.

Definition setLoading (v : bool) : Script Signup unit :=
  setCell (fun p => {| email := email p; password := password p;
                       confirmPassword := confirmPassword p; loading := v;
                       error := error p; showOTPModal := showOTPModal p |}).
Definition setError (v : string) : Script Signup unit :=
  setCell (fun p => {| email := email p; password := password p;
                       confirmPassword := confirmPassword p; loading := loading p;
                       error := v; showOTPModal := showOTPModal p |}).
Definition setShowOTPModal (v : bool) : Script Signup unit :=
  setCell (fun p => {| email := email p; password := password p;
                       confirmPassword := confirmPassword p; loading := loading p;
                       error := error p; showOTPModal := v |}).

(** [!s] on a string. *)
Definition isEmpty (s : string) : bool := String.eqb s "".

Section Signup.
Context {N : JsNumber}.
Context {B : Browser}.
Variable env : Env.
Variable JSON_stringify : json -> string.
Variable fetch : Request -> result Response.

(** [validateForm], in the render [r]. *)
Definition validateForm (r : Signup) : Script Signup bool :=
  if isEmpty (email r) || isEmpty (password r) || isEmpty (confirmPassword r) then
    setError "All fields are required" ;;
    mret false
  else if negb (test emailRegex (email r)) then
    setError "Please enter a valid email address" ;;
    mret false
  else if (String.length (password r) <? 8)%nat then
    setError "Password must be at least 8 characters long" ;;
    mret false
  else if negb (String.eqb (password r) (confirmPassword r)) then
    setError "Passwords do not match" ;;
    mret false
  else
    mret true.

(** [handleSignup], run to completion. *)
Definition handleSignup (r : Signup) : Script Signup unit :=
  setError "" ;;
  valid ← validateForm r;
  if negb valid then mret tt
  else
    setLoading true ;;
    response ← authAPI_signup env JSON_stringify fetch (email r) (password r);
    match response with
    | Returns _ => setShowOTPModal true
    | Throws err => setError (or_else (message err) "Signup failed. Please try again.")
    end ;;
    setLoading false.


End Signup.

End SignupPage.

(** ** The login page *)
Module LoginPage.
Import Api Regex Pages.

Record Login : Type := mkLogin {
  email : string;
  password : string;
  loading : bool;
  error : string
}.

Definition initialLogin : Login :=
  {| email := ""; password := ""; loading := false; error := "" |}.

Definition setLoading (v : bool) : Script Login unit :=
  setCell (fun p => {| email := email p; password := password p; loading := v;
                       error := error p |}).
Definition setError (v : string) : Script Login unit :=
  setCell (fun p => {| email := email p; password := password p;
                       loading := loading p; error := v |}).

Definition isEmpty (s : string) : bool := String.eqb s "".

Section Login.
Context {N : JsNumber}.
Context {B : Browser}.
Variable env : Env.
Variable JSON_stringify : json -> string.
Variable fetch : Request -> result Response.

Definition validateForm (r : Login) : Script Login bool :=
  if isEmpty (email r) || isEmpty (password r) then
    setError "Email and password are required" ;;
    mret false
  else if negb (test emailRegex (email r)) then
    setError "Please enter a valid email address" ;;
    mret false
  else
    mret true.

(** The [catch] of [handleLogin]. *)
Definition showLoginError (err : js_error) : Script Login unit :=
  if includes "Invalid credentials" (message err) then
    setError "Invalid email or password"
  else if includes "Agent account required" (message err) then
    setError "This account is not registered as an agent"
  else
    setError (or_else (message err) "Login failed. Please try again.").

(** [handleLogin], run to completion. *)
Definition handleLogin (r : Login) : Script Login unit :=
  setError "" ;;
  valid ← validateForm r;
  if negb valid then mret tt
  else
    setLoading true ;;
    response ← authAPI_login env JSON_stringify fetch (email r) (password r);
    match response ≫= authDataOf with
    | Returns authData =>
        onWorld (saveAuthData env JSON_stringify authData) ;;
        emit (RouterPush "/dashboard")
    | Throws err => showLoginError err
    end ;;
    setLoading false.

(** [handleKeyPress], applied to [e.key]. *)
Definition handleKeyPress (r : Login) (key : string) : Script Login unit :=
  if String.eqb key "Enter" && negb (loading r) then handleLogin r
  else mret tt.

End Login.

End LoginPage.

(** ** The dashboard page *)
Module DashboardPage.
Import Api Pages.

Section Dashboard.
Context {N : JsNumber}.
Context {B : Browser}.
Variable JSON_parse : string -> result json.

(** [user] is [null] ([JNull]) until a profile is read. *)
Record Dashboard : Type := mkDashboard {
  user : json;
  loading : bool
}.

Definition initialDashboard : Dashboard := {| user := JNull; loading := true |}.

Definition setUser (v : json) : Script Dashboard unit :=
  setCell (fun p => {| user := v; loading := loading p |}).
Definition setLoading (v : bool) : Script Dashboard unit :=
  setCell (fun p => {| user := user p; loading := v |}).

(** The effect that runs on mount; it throws when [getUserData] does. *)
Definition checkAuthentication : Script Dashboard (result unit) :=
  w ← readWorld;
  if negb (isAuthenticated w) then
    emit (RouterPush "/auth/login") ;;
    mret (Returns tt)
  else
    match getUserData JSON_parse w with
    | Throws err => mret (Throws err)
    | Returns userData =>
        (if truthy userData then setUser userData else mret tt) ;;
        setLoading false ;;
        mret (Returns tt)
    end.

Definition handleLogout : Script Dashboard unit :=
  onWorld clearAuthData ;;
  emit (RouterPush "/auth/login").

End Dashboard.

End DashboardPage.

(** * Properties of the OTP modal *)
Module OTPModalSpec.
Import OTPModal.

Lemma removeNonDigits_allDigits (s : string) :
  allDigits (removeNonDigits s) = true.
Proof.
  induction s as [|c s IH]; simpl; [reflexivity|].
  destruct (isDigit c) eqn:Hc; simpl; [rewrite Hc|]; exact IH.
Qed.

Lemma removeNonDigits_length (s : string) :
  (String.length (removeNonDigits s) <= String.length s)%nat.
Proof.
  induction s as [|c s IH]; simpl; [lia|].
  destruct (isDigit c); simpl; lia.
Qed.

Lemma removeNonDigits_id (s : string) :
  allDigits s = true -> removeNonDigits s = s.
Proof.
  induction s as [|c s IH]; simpl; [reflexivity|].
  intros [Hc Hs]%andb_prop. rewrite Hc. f_equal. auto.
Qed.

Lemma deps_eqb_refl (d : Z * bool) : deps_eqb d d = true.
Proof.
  unfold deps_eqb. rewrite Z.eqb_refl. destruct (snd d); reflexivity.
Qed.

Lemma deps_eqb_eq (a b : Z * bool) : deps_eqb a b = true <-> a = b.
Proof.
  unfold deps_eqb. destruct a as [x p], b as [y q]. cbn.
  rewrite andb_true_iff, Z.eqb_eq, Bool.eqb_true_iff.
  split; [intros [-> ->]; reflexivity | intros [= -> ->]; auto].
Qed.

Lemma runEffect_open (c : Component) :
  isOpen c = true -> deps (runEffect c) = deps c.
Proof.
  intros Ho. unfold deps, runEffect, countdownEffect. rewrite Ho. cbn.
  destruct (0 <? countdown (state c)); reflexivity.
Qed.

Lemma runEffect_closed (c : Component) :
  isOpen c = false ->
  runEffect c =
    {| isOpen := false;
       state := {| otp := otp (state c); loading := loading (state c);
                   error := error (state c); countdown := 60;
                   canResend := false |};
       timer := None;
       pendingVerify := pendingVerify c; pendingResend := pendingResend c |}.
Proof.
  intros Ho. unfold runEffect, countdownEffect. rewrite Ho. reflexivity.
Qed.

(** The effect runs at most twice in a row: the commit is the state
    itself when no dependency changed, and one run of the effect
    otherwise. *)
Lemma commit_spec (last : Z * bool) (c : Component) :
  commit last c = if deps_eqb (deps c) last then c else runEffect c.
Proof.
  unfold commit. cbn [flushEffects].
  destruct (deps_eqb (deps c) last); [reflexivity|].
  destruct (isOpen c) eqn:Ho.
  - rewrite (runEffect_open c Ho), deps_eqb_refl. reflexivity.
  - rewrite (runEffect_closed c Ho).
    destruct (deps_eqb _ (deps c)); [reflexivity|].
    rewrite runEffect_closed by reflexivity. cbn.
    reflexivity.
Qed.

(** More fuel changes nothing: the commit has settled. *)
Lemma flushEffects_settled (n : nat) (last : Z * bool) (c : Component) :
  flushEffects (3 + n) last c = commit last c.
Proof.
  rewrite commit_spec. cbn [flushEffects Nat.add].
  destruct (deps_eqb (deps c) last); [reflexivity|].
  destruct (isOpen c) eqn:Ho.
  - rewrite (runEffect_open c Ho), deps_eqb_refl. reflexivity.
  - rewrite (runEffect_closed c Ho).
    destruct (deps_eqb _ (deps c)); [reflexivity|].
    rewrite runEffect_closed by reflexivity. cbn.
    rewrite ?deps_eqb_refl. destruct n; reflexivity.
Qed.

Section Handlers.
Variables (email purpose : string).

(** C1. [handleVerify] with a code whose length is not 6 sets the
    validation message, changes nothing else and never calls [onVerify];
    with a code of length 6 it calls [onVerify] once, with that code. *)
Theorem handleVerify_requires_six_digits
    (onVerify : string -> outcome) (r : State) :
  (String.length (otp r) <> 6%nat ->
     stateOf (perform (handleVerify onVerify) r) =
       {| otp := otp r; loading := loading r;
          error := "Please enter a 6-digit OTP";
          countdown := countdown r; canResend := canResend r |}
     /\ callsOf (perform (handleVerify onVerify) r) = []
     /\ callsOf (perform handleVerify_begin r) = [])
  /\ (String.length (otp r) = 6%nat ->
       callsOf (perform (handleVerify onVerify) r) = [OnVerify (otp r)]
       /\ callsOf (perform handleVerify_begin r) = [OnVerify (otp r)]).
Proof.
  unfold perform, handleVerify, handleVerify_begin. split.
  - intros Hlen. apply Nat.eqb_neq in Hlen. cbn. rewrite Hlen. cbn. auto.
  - intros Hlen. apply Nat.eqb_eq in Hlen. cbn. rewrite Hlen. cbn.
    destruct (onVerify (otp r)); cbn; auto.
Qed.

(** C2, as the code has it.  An edit whose digits number at most 6
    stores exactly those digits (so the field holds only digits, at most
    6 of them) and clears the error; in particular every input of at most
    6 characters does.  An edit that carries more than 6 digits is
    ignored: no cell changes.  In both cases a field that held at most 6
    digits still does. *)
Theorem handleOTPChange_effect (r : State) (target_value : string) :
  let r' := stateOf (perform (fun r => handleOTPChange r target_value) r) in
  ((String.length (removeNonDigits target_value) <= 6)%nat ->
     otp r' = removeNonDigits target_value /\ error r' = ""
     /\ allDigits (otp r') = true /\ (String.length (otp r') <= 6)%nat)
  /\ ((String.length target_value <= 6)%nat ->
       otp r' = removeNonDigits target_value /\ error r' = "")
  /\ ((6 < String.length (removeNonDigits target_value))%nat -> r' = r)
  /\ (allDigits (otp r) = true -> (String.length (otp r) <= 6)%nat ->
       allDigits (otp r') = true /\ (String.length (otp r') <= 6)%nat).
Proof.
  unfold perform, handleOTPChange. cbn zeta.
  pose proof (removeNonDigits_length target_value) as Hle.
  pose proof (removeNonDigits_allDigits target_value) as Hd.
  destruct (String.length (removeNonDigits target_value) <=? 6)%nat eqn:Hlen.
  - apply Nat.leb_le in Hlen. cbn. repeat split; auto; lia.
  - apply Nat.leb_gt in Hlen. cbn. destruct r; cbn.
    repeat split; auto; lia.
Qed.

Lemma mount_open :
  mount true =
    {| isOpen := true; state := initialState; timer := Some 59;
       pendingVerify := 0; pendingResend := 0 |}.
Proof. reflexivity. Qed.

Lemma mount_closed :
  mount false =
    {| isOpen := false; state := initialState; timer := None;
       pendingVerify := 0; pendingResend := 0 |}.
Proof. reflexivity. Qed.

Lemma mount_settled (open : bool) : settled (mount open).
Proof.
  destruct open; [rewrite mount_open | rewrite mount_closed];
    unfold settled; cbn; repeat split; intros; try lia; congruence.
Qed.

Lemma settled_frame (c c' : Component) :
  isOpen c' = isOpen c -> timer c' = timer c ->
  countdown (state c') = countdown (state c) ->
  canResend (state c') = canResend (state c) ->
  settled c -> settled c'.
Proof. unfold settled. intros -> -> -> ->. auto. Qed.

(** A handler that leaves [countdown] alone triggers no effect. *)
Lemma dispatch_frame {A} (h : State -> Handler A) (c : Component) :
  countdown (stateOf (h (state c) (state c))) = countdown (state c) ->
  isOpen (dispatch h c) = isOpen c
  /\ timer (dispatch h c) = timer c
  /\ state (dispatch h c) = stateOf (h (state c) (state c)).
Proof.
  intros Hcd. unfold dispatch, perform. rewrite commit_spec.
  match goal with
  | |- context [deps_eqb (deps ?x) (deps c)] =>
      assert (deps x = deps c) as ->
        by (unfold deps; cbn [isOpen state]; rewrite Hcd; reflexivity)
  end.
  rewrite deps_eqb_refl. cbn. auto.
Qed.

Lemma dispatch_settled {A} (h : State -> Handler A) (c : Component) :
  countdown (stateOf (h (state c) (state c))) = countdown (state c) ->
  canResend (stateOf (h (state c) (state c))) = canResend (state c) ->
  settled c -> settled (dispatch h c).
Proof.
  intros Hcd Hcr. destruct (dispatch_frame h c Hcd) as (Ho & Ht & Hs).
  apply settled_frame; rewrite ?Hs; auto.
Qed.

Lemma handleOTPChange_keeps (r : State) (v : string) :
  countdown (stateOf (handleOTPChange r v r)) = countdown r
  /\ canResend (stateOf (handleOTPChange r v r)) = canResend r.
Proof.
  unfold handleOTPChange.
  destruct (String.length (removeNonDigits v) <=? 6)%nat; cbn; auto.
Qed.

Lemma handleVerify_begin_keeps (r : State) :
  countdown (stateOf (handleVerify_begin r r)) = countdown r
  /\ canResend (stateOf (handleVerify_begin r r)) = canResend r.
Proof.
  unfold handleVerify_begin.
  destruct (negb (String.length (otp r) =? 6)%nat); cbn; auto.
Qed.

Lemma handleKeyPress_keeps (r : State) (k : string) :
  countdown (stateOf (handleKeyPress r k r)) = countdown r
  /\ canResend (stateOf (handleKeyPress r k r)) = canResend r.
Proof.
  unfold handleKeyPress.
  destruct (_ && _); [apply handleVerify_begin_keeps | cbn; auto].
Qed.

Lemma handleVerify_resume_keeps (o : outcome) (r : State) :
  countdown (stateOf (handleVerify_resume o r)) = countdown r
  /\ canResend (stateOf (handleVerify_resume o r)) = canResend r.
Proof. destruct o; cbn; auto. Qed.

Lemma handleResend_begin_keeps (r : State) :
  countdown (stateOf (handleResend_begin email purpose r r)) = countdown r
  /\ canResend (stateOf (handleResend_begin email purpose r r)) = canResend r.
Proof. cbn; auto. Qed.

Lemma handleResend_rejected_keeps (err : js_error) (r : State) :
  countdown (stateOf (handleResend_resume (Rejected err) r)) = countdown r
  /\ canResend (stateOf (handleResend_resume (Rejected err) r)) = canResend r.
Proof. cbn; auto. Qed.

Lemma settleVerify_settled (c : Component) : settled c -> settled (settleVerify c).
Proof. apply settled_frame; reflexivity. Qed.

Lemma settleResend_settled (c : Component) : settled c -> settled (settleResend c).
Proof. apply settled_frame; reflexivity. Qed.

(** The commits that do run the effect. *)
Lemma setIsOpen_true (c : Component) :
  isOpen c = false ->
  setIsOpen true c =
    {| isOpen := true;
       state := if 0 <? countdown (state c) then state c
                else stateOf (setCanResend true (state c));
       timer := if 0 <? countdown (state c)
                then Some (countdown (state c) - 1) else None;
       pendingVerify := pendingVerify c; pendingResend := pendingResend c |}.
Proof.
  intros Ho. unfold setIsOpen. rewrite commit_spec.
  unfold deps, deps_eqb. cbn. rewrite Ho, Z.eqb_refl. cbn.
  unfold runEffect, countdownEffect. cbn.
  destruct (0 <? countdown (state c)); reflexivity.
Qed.

Lemma setIsOpen_false (c : Component) :
  isOpen c = true ->
  setIsOpen false c =
    {| isOpen := false;
       state := {| otp := otp (state c); loading := loading (state c);
                   error := error (state c); countdown := 60;
                   canResend := false |};
       timer := None;
       pendingVerify := pendingVerify c; pendingResend := pendingResend c |}.
Proof.
  intros Ho. unfold setIsOpen. rewrite commit_spec.
  unfold deps, deps_eqb. cbn. rewrite Ho, Z.eqb_refl. cbn.
  reflexivity.
Qed.

Lemma fireTimer_spec (c : Component) :
  isOpen c = true -> 0 < countdown (state c) ->
  fireTimer (countdown (state c) - 1) c =
    {| isOpen := true;
       state := {| otp := otp (state c); loading := loading (state c);
                   error := error (state c);
                   countdown := countdown (state c) - 1;
                   canResend := if 0 <? countdown (state c) - 1
                                then canResend (state c) else true |};
       timer := if 0 <? countdown (state c) - 1
                then Some (countdown (state c) - 1 - 1) else None;
       pendingVerify := pendingVerify c; pendingResend := pendingResend c |}.
Proof.
  intros Ho Hpos. unfold fireTimer. rewrite commit_spec.
  unfold deps, deps_eqb. cbn.
  replace (countdown (state c) - 1 =? countdown (state c)) with false
    by (symmetry; apply Z.eqb_neq; lia).
  cbn. unfold runEffect, countdownEffect. cbn. rewrite Ho. cbn.
  destruct (0 <? countdown (state c) - 1); reflexivity.
Qed.

Lemma handleResend_resume_Resolved (r : State) :
  stateOf (handleResend_resume Resolved r) =
    {| otp := ""; loading := false; error := ""; countdown := 60;
       canResend := false |}.
Proof. reflexivity. Qed.

Lemma resendResolved_spec (c : Component) :
  let c' := dispatch (fun _ => handleResend_resume Resolved) c in
  isOpen c' = isOpen c
  /\ state c' = {| otp := ""; loading := false; error := ""; countdown := 60;
                   canResend := false |}
  /\ timer c' = if deps_eqb (60, isOpen c) (deps c) then timer c
                else if isOpen c then Some 59 else None.
Proof.
  cbn zeta. unfold dispatch, perform. rewrite handleResend_resume_Resolved.
  rewrite commit_spec.
  match goal with
  | |- context [deps_eqb (deps ?x) (deps c)] =>
      change (deps x) with (60, isOpen c)
  end.
  destruct (deps_eqb (60, isOpen c) (deps c)); cbn [isOpen state timer]; [auto|].
  unfold runEffect, countdownEffect. cbn [isOpen state].
  destruct (isOpen c); cbn; auto.
Qed.

Lemma step_settled (e : event) (c c' : Component) :
  settled c -> step email purpose e c = Some c' -> settled c'.
Proof.
  intros Hc Hstep.
  destruct e; cbn [step] in Hstep.
  - (* Open *)
    destruct (isOpen c) eqn:Ho; [discriminate|]. injection Hstep as <-.
    rewrite (setIsOpen_true c Ho).
    destruct Hc as (Hiff & Hrange & Hclosed & _).
    destruct (Hclosed Ho) as [Hcd Htm]. rewrite Hcd. cbn.
    unfold settled. cbn. rewrite Hcd. cbn.
    repeat split; intros; try lia; try congruence.
    apply Hiff in H. lia.
  - (* Close *)
    destruct (isOpen c) eqn:Ho; [|discriminate]. injection Hstep as <-.
    rewrite (setIsOpen_false c Ho). unfold settled. cbn.
    repeat split; intros; try lia; congruence.
  - (* Tick *)
    destruct (timer c) as [v|] eqn:Ht; [|discriminate]. injection Hstep as <-.
    destruct Hc as (Hiff & Hrange & Hclosed & Hopen).
    destruct (isOpen c) eqn:Ho.
    2:{ destruct (Hclosed eq_refl). congruence. }
    specialize (Hopen eq_refl).
    destruct (0 <? countdown (state c)) eqn:Hpos; [|congruence].
    apply Z.ltb_lt in Hpos. assert (v = countdown (state c) - 1) as -> by congruence.
    rewrite (fireTimer_spec c Ho Hpos). unfold settled. cbn.
    destruct (0 <? countdown (state c) - 1) eqn:Hpos'.
    + apply Z.ltb_lt in Hpos'.
      repeat split; intros; try lia; try congruence.
      apply Hiff in H. lia.
    + apply Z.ltb_ge in Hpos'.
      repeat split; intros; try lia; congruence.
  - (* Change *)
    destruct (_ && _); [|discriminate]. injection Hstep as <-.
    apply dispatch_settled; auto; apply (handleOTPChange_keeps (state c)).
  - (* KeyPress *)
    destruct (_ && _); [|discriminate]. injection Hstep as <-.
    apply dispatch_settled; auto; apply (handleKeyPress_keeps (state c)).
  - (* ClickVerify *)
    destruct (_ && _); [|discriminate]. injection Hstep as <-.
    apply dispatch_settled; auto; apply (handleVerify_begin_keeps (state c)).
  - (* VerifySettled *)
    destruct (_ <? _)%nat; [|discriminate]. injection Hstep as <-.
    apply dispatch_settled; auto using settleVerify_settled;
      apply handleVerify_resume_keeps.
  - (* ClickResend *)
    destruct (_ && _); [|discriminate]. injection Hstep as <-.
    apply dispatch_settled; auto; apply (handleResend_begin_keeps (state c)).
  - (* ResendSettled *)
    destruct (_ <? _)%nat; [|discriminate]. injection Hstep as <-.
    destruct o as [|err].
    + pose proof (resendResolved_spec (settleResend c)) as (Ho & Hs & Ht).
      cbn [isOpen settleResend] in Ho, Ht.
      destruct Hc as (Hiff & Hrange & Hclosed & Hopen).
      unfold settled. rewrite Ho, Hs, Ht. cbn.
      unfold deps. cbn.
      destruct (deps_eqb _ _) eqn:Heq.
      * apply deps_eqb_eq in Heq. injection Heq as Heq.
        rewrite <- Heq in *.
        repeat split; intros; try lia; try congruence.
        -- apply Hclosed; auto.
        -- rewrite Hopen by auto. reflexivity.
      * repeat split; intros; try lia; try congruence.
        -- rewrite H. reflexivity.
        -- rewrite H. reflexivity.
    + apply dispatch_settled; auto using settleResend_settled;
        apply handleResend_rejected_keeps.
Qed.

Lemma reachable_settled (c : Component) :
  reachable email purpose c -> settled c.
Proof.
  induction 1 as [open | c c' e _ IH Hstep].
  - apply mount_settled.
  - exact (step_settled e c c' IH Hstep).
Qed.

Lemma run_reachable (es : list event) (c c' : Component) :
  reachable email purpose c -> run email purpose es c = Some c' ->
  reachable email purpose c'.
Proof.
  revert c. induction es as [|e es IH]; intros c Hc Hrun; cbn in Hrun.
  - injection Hrun as <-. exact Hc.
  - destruct (step email purpose e c) as [c1|] eqn:Hstep; [|discriminate].
    apply (IH c1); [|exact Hrun].
    exact (reachable_step email purpose c c1 e Hc Hstep).
Qed.

Lemma run_settled (es : list event) (c c' : Component) :
  settled c -> run email purpose es c = Some c' -> settled c'.
Proof.
  revert c. induction es as [|e es IH]; intros c Hc Hrun; cbn in Hrun.
  - injection Hrun as <-. exact Hc.
  - destruct (step email purpose e c) as [c1|] eqn:Hstep; [|discriminate].
    apply (IH c1); [|exact Hrun]. exact (step_settled e c c1 Hc Hstep).
Qed.

Lemma close_settled (c c' : Component) :
  step email purpose Close c = Some c' -> settled c'.
Proof.
  cbn [step]. destruct (isOpen c) eqn:Ho; [|discriminate]. intros [= <-].
  rewrite (setIsOpen_false c Ho). unfold settled. cbn.
  repeat split; intros; try lia; congruence.
Qed.

Lemma open_from_settled (c c' : Component) :
  settled c -> step email purpose Open c = Some c' ->
  state c' = state c /\ countdown (state c') = 60 /\ canResend (state c') = false.
Proof.
  intros (Hiff & _ & Hclosed & _). cbn [step].
  destruct (isOpen c) eqn:Ho; [discriminate|]. intros [= <-].
  destruct (Hclosed eq_refl) as [Hcd _].
  rewrite (setIsOpen_true c Ho), Hcd. cbn. rewrite Hcd. repeat split.
  destruct (canResend (state c)); [|reflexivity].
  assert (countdown (state c) = 0) by (apply Hiff; reflexivity). lia.
Qed.

(** C3. Whenever the modal opens, the countdown it shows is 60 with resend
    disabled: in every state the component can be in, and, whatever the
    cells held when it was last closed and whatever happened while it was
    closed, on the next opening. *)
Theorem open_yields_fresh_countdown :
  (forall c c' : Component,
     reachable email purpose c -> step email purpose Open c = Some c' ->
     countdown (state c') = 60 /\ canResend (state c') = false)
  /\ (forall (c c1 c2 c3 : Component) (es : list event),
       step email purpose Close c = Some c1 ->
       run email purpose es c1 = Some c2 ->
       step email purpose Open c2 = Some c3 ->
       countdown (state c3) = 60 /\ canResend (state c3) = false).
Proof.
  split.
  - intros c c' Hc Hopen.
    apply (open_from_settled c c' (reachable_settled c Hc) Hopen).
  - intros c c1 c2 c3 es Hclose Hrun Hopen.
    apply (open_from_settled c2 c3); [|exact Hopen].
    apply (run_settled es c1 c2); [|exact Hrun].
    exact (close_settled c c1 Hclose).
Qed.

(** How each event moves the countdown cells of a settled component. *)
Lemma step_countdown (e : event) (c c' : Component) :
  settled c -> step email purpose e c = Some c' ->
  match e with
  | Close | ResendSettled Resolved =>
      countdown (state c') = 60 /\ canResend (state c') = false
  | Tick =>
      isOpen c = true /\ 0 < countdown (state c)
      /\ countdown (state c') = countdown (state c) - 1
  | _ =>
      countdown (state c') = countdown (state c)
      /\ canResend (state c') = canResend (state c)
  end.
Proof.
  intros Hc Hstep. pose proof Hc as (Hiff & Hrange & Hclosed & Hopen).
  destruct e; cbn [step] in Hstep.
  - destruct (open_from_settled c c' Hc Hstep) as (-> & _). auto.
  - destruct (isOpen c) eqn:Ho; [|discriminate]. injection Hstep as <-.
    rewrite (setIsOpen_false c Ho). cbn. auto.
  - destruct (timer c) as [v|] eqn:Ht; [|discriminate]. injection Hstep as <-.
    destruct (isOpen c) eqn:Ho.
    2:{ destruct (Hclosed eq_refl). congruence. }
    specialize (Hopen eq_refl).
    destruct (0 <? countdown (state c)) eqn:Hpos; [|congruence].
    apply Z.ltb_lt in Hpos.
    assert (v = countdown (state c) - 1) as -> by congruence.
    rewrite (fireTimer_spec c Ho Hpos). cbn. auto.
  - destruct (_ && _); [|discriminate]. injection Hstep as <-.
    destruct (handleOTPChange_keeps (state c) target_value) as [Hcd Hcr].
    destruct (dispatch_frame (fun r => handleOTPChange r target_value) c Hcd)
      as (_ & _ & ->). auto.
  - destruct (_ && _); [|discriminate]. injection Hstep as <-.
    destruct (handleKeyPress_keeps (state c) key) as [Hcd Hcr].
    destruct (dispatch_frame (fun r => handleKeyPress r key) c Hcd)
      as (_ & _ & ->). auto.
  - destruct (_ && _); [|discriminate]. injection Hstep as <-.
    destruct (handleVerify_begin_keeps (state c)) as [Hcd Hcr].
    destruct (dispatch_frame handleVerify_begin c Hcd) as (_ & _ & ->). auto.
  - destruct (_ <? _)%nat; [|discriminate]. injection Hstep as <-.
    destruct (handleVerify_resume_keeps o (state c)) as [Hcd Hcr].
    destruct (dispatch_frame (fun _ => handleVerify_resume o) (settleVerify c) Hcd)
      as (_ & _ & ->). auto.
  - destruct (_ && _); [|discriminate]. injection Hstep as <-.
    destruct (handleResend_begin_keeps (state c)) as [Hcd Hcr].
    destruct (dispatch_frame (handleResend_begin email purpose) c Hcd)
      as (_ & _ & ->). auto.
  - destruct (_ <? _)%nat; [|discriminate]. injection Hstep as <-.
    destruct o as [|err].
    + destruct (resendResolved_spec (settleResend c)) as (_ & -> & _). auto.
    + destruct (handleResend_rejected_keeps err (state c)) as [Hcd Hcr].
      destruct (dispatch_frame (fun _ => handleResend_resume (Rejected err))
                  (settleResend c) Hcd) as (_ & _ & ->). auto.
Qed.

(** C4. A resend that succeeds leaves code "", countdown 60, resend
    disabled and no error; a resend that fails shows the failure's message
    (the fixed text when the failure carries none) and leaves the countdown,
    the resend flag and the code as they were.  This holds of the handler
    run in one go, where the request is made once for this email and
    purpose, and of its continuation on whatever the cells hold when the
    request settles, effects included. *)
Theorem handleResend_outcome
    (resendOTP : string -> string -> outcome) (r : State) :
  let out := perform (handleResend email purpose resendOTP) r in
  (resendOTP email purpose = Resolved ->
     otp (stateOf out) = "" /\ countdown (stateOf out) = 60
     /\ canResend (stateOf out) = false /\ error (stateOf out) = "")
  /\ (forall err, resendOTP email purpose = Rejected err ->
       error (stateOf out) = or_else (message err) "Failed to resend OTP"
       /\ (message err <> "" -> error (stateOf out) = message err)
       /\ countdown (stateOf out) = countdown r
       /\ canResend (stateOf out) = canResend r
       /\ otp (stateOf out) = otp r)
  /\ callsOf out = [ResendOTP email purpose]
  /\ (forall (c c' : Component),
       step email purpose (ResendSettled Resolved) c = Some c' ->
       otp (state c') = "" /\ countdown (state c') = 60
       /\ canResend (state c') = false /\ error (state c') = "")
  /\ (forall (c c' : Component) (err : js_error),
       step email purpose (ResendSettled (Rejected err)) c = Some c' ->
       error (state c') = or_else (message err) "Failed to resend OTP"
       /\ countdown (state c') = countdown (state c)
       /\ canResend (state c') = canResend (state c)
       /\ otp (state c') = otp (state c)).
Proof.
  cbn zeta. refine (conj _ (conj _ (conj _ (conj _ _)))).
  - unfold perform, handleResend, handleResend_begin, handleResend_resume.
    intros ->. cbn. auto.
  - unfold perform, handleResend, handleResend_begin, handleResend_resume.
    intros err ->. cbn. repeat split; auto.
    intros Hm. destruct (message err); [congruence|reflexivity].
  - unfold perform, handleResend, handleResend_begin, handleResend_resume.
    destruct (resendOTP email purpose); reflexivity.
  - intros c c'. cbn [step].
    destruct (_ <? _)%nat; [|discriminate]. intros [= <-].
    destruct (resendResolved_spec (settleResend c)) as (_ & -> & _). auto.
  - intros c c' err. cbn [step].
    destruct (_ <? _)%nat; [|discriminate]. intros [= <-].
    destruct (handleResend_rejected_keeps err (state c)) as [Hcd Hcr].
    destruct (dispatch_frame (fun _ => handleResend_resume (Rejected err))
                (settleResend c) Hcd) as (_ & _ & ->).
    cbn. auto.
Qed.

(** C5, as the code has it.  In every state the component can be in,
    resend is enabled exactly when the countdown is 0.  Over one event,
    resend goes from disabled to enabled exactly when the countdown goes
    from non-zero to 0, which only a timer tick does; it goes from enabled
    to disabled only when the modal is closed or a resend succeeds. *)
Theorem resend_enabled_iff_countdown_zero (c : Component) :
  reachable email purpose c ->
  (canResend (state c) = true <-> countdown (state c) = 0)
  /\ forall (e : event) (c' : Component),
      step email purpose e c = Some c' ->
      ((canResend (state c) = false /\ canResend (state c') = true)
         <-> (countdown (state c) <> 0 /\ countdown (state c') = 0))
      /\ (canResend (state c) = false -> canResend (state c') = true ->
          e = Tick)
      /\ (canResend (state c) = true -> canResend (state c') = false ->
          e = Close \/ e = ResendSettled Resolved).
Proof.
  intros Hreach. pose proof (reachable_settled c Hreach) as Hc.
  pose proof Hc as (Hiff & Hrange & Hclosed & Hopen).
  split; [exact Hiff|]. intros e c' Hstep.
  pose proof (step_settled e c c' Hc Hstep) as (Hiff' & _).
  pose proof (step_countdown e c c' Hc Hstep) as Hmove.
  assert (Hnot : canResend (state c) = false <-> countdown (state c) <> 0).
  { rewrite <- Hiff. destruct (canResend (state c)); split; congruence. }
  split; [|split].
  - rewrite Hnot, Hiff'. reflexivity.
  - intros Hoff Hon.
    destruct e as [| | |v|k| |o| |o]; try reflexivity; try destruct o;
      cbn in Hmove; destruct Hmove as [_ Hsame]; congruence.
  - intros Hon Hoff.
    destruct e as [| | |v|k| |o| |o]; try destruct o; cbn in Hmove; auto;
      try (destruct Hmove as [_ Hsame]; congruence).
    destruct Hmove as (_ & Hpos & _). apply Hiff in Hon. lia.
Qed.

End Handlers.

End OTPModalSpec.

(** * Properties of the HTTP client wrapper and the credential store *)
Module ApiSpec.
Import Api.

(** ** Strings *)

Lemma append_nil_l (s : string) : "" +:+ s = s.
Proof. reflexivity. Qed.

Lemma append_cons (c : ascii) (a b : string) :
  String c a +:+ b = String c (a +:+ b).
Proof. reflexivity. Qed.

Ltac str :=
  rewrite ?append_nil_l, ?append_cons;
  cbn [split join stripStart stripEnd breakAt contains String.length].

Ltac str_in H :=
  rewrite ?append_nil_l, ?append_cons in H;
  cbn [split join stripStart stripEnd breakAt contains String.length] in H.

Lemma split_cons (sep : ascii) (s : string) :
  exists pieces, split sep s = upTo sep s :: pieces.
Proof.
  induction s as [|c s [pieces IH]]; str.
  - exists []. reflexivity.
  - unfold upTo in *. str. destruct (Ascii.eqb c sep).
    + eexists. reflexivity.
    + rewrite IH. destruct (breakAt sep s) as [[a b]|]; eexists; reflexivity.
Qed.

Lemma split_none (sep : ascii) (s : string) :
  contains sep s = false -> split sep s = [s].
Proof.
  induction s as [|c s IH]; str; [reflexivity|].
  intros [Hc Hs]%orb_false_elim. rewrite Hc, (IH Hs). reflexivity.
Qed.

Lemma split_app (sep : ascii) (a b : string) :
  contains sep a = false ->
  split sep (a +:+ String sep b) = a :: split sep b.
Proof.
  induction a as [|c a IH]; str.
  - intros _. rewrite Ascii.eqb_refl. reflexivity.
  - intros [Hc Ha]%orb_false_elim. rewrite Hc, (IH Ha). reflexivity.
Qed.

Lemma breakAt_app (sep : ascii) (a b : string) :
  contains sep a = false ->
  breakAt sep (a +:+ String sep b) = Some (a, b).
Proof.
  induction a as [|c a IH]; str.
  - intros _. rewrite Ascii.eqb_refl. reflexivity.
  - intros [Hc Ha]%orb_false_elim. rewrite Hc, (IH Ha). reflexivity.
Qed.

Lemma breakAt_none (sep : ascii) (s : string) :
  contains sep s = false -> breakAt sep s = None.
Proof.
  induction s as [|c s IH]; str; [reflexivity|].
  intros [Hc Hs]%orb_false_elim. rewrite Hc, (IH Hs). reflexivity.
Qed.

Lemma upTo_none (sep : ascii) (s : string) :
  contains sep s = false -> upTo sep s = s.
Proof. intros H. unfold upTo. rewrite (breakAt_none sep s H). reflexivity. Qed.

Lemma upTo_app_other (sep : ascii) (a b : string) :
  contains sep a = false -> upTo sep (a +:+ b) = a +:+ upTo sep b.
Proof.
  unfold upTo. induction a as [|c a IH]; str; [reflexivity|].
  intros [Hc Ha]%orb_false_elim. rewrite Hc. specialize (IH Ha).
  destruct (breakAt sep (a +:+ b)) as [[x y]|], (breakAt sep b) as [[x' y']|];
    str; repeat match goal with H : _ |- _ => progress str_in H end; congruence.
Qed.

Lemma upTo_free (sep : ascii) (s : string) : contains sep (upTo sep s) = false.
Proof.
  unfold upTo. induction s as [|c s IH]; str; [reflexivity|].
  destruct (Ascii.eqb c sep) eqn:Hc; [reflexivity|].
  destruct (breakAt sep s) as [[a b]|]; str; repeat match goal with H : _ |- _ => progress str_in H end; rewrite Hc; exact IH.
Qed.

Lemma upTo_length (sep : ascii) (s : string) :
  (String.length (upTo sep s) <= String.length s)%nat.
Proof.
  unfold upTo. induction s as [|c s IH]; str; [lia|].
  destruct (Ascii.eqb c sep); str; [lia|].
  destruct (breakAt sep s) as [[a b]|]; str; repeat match goal with H : _ |- _ => progress str_in H end; lia.
Qed.

Lemma upTo_full (sep : ascii) (s : string) :
  String.length (upTo sep s) = String.length s -> contains sep s = false.
Proof.
  unfold upTo. induction s as [|c s IH]; str; [reflexivity|].
  destruct (Ascii.eqb c sep) eqn:Hc; str; [lia|].
  destruct (breakAt sep s) as [[a b]|] eqn:Hb; str; repeat match goal with H : _ |- _ => progress str_in H end; intros H.
  - apply IH. lia.
  - apply IH. reflexivity.
Qed.

Lemma contains_app (c : ascii) (a b : string) :
  contains c (a +:+ b) = contains c a || contains c b.
Proof.
  induction a as [|x a IH]; str; [reflexivity|].
  rewrite IH, orb_assoc. reflexivity.
Qed.

Lemma stripStart_length (p : ascii -> bool) (s : string) :
  (String.length (stripStart p s) <= String.length s)%nat.
Proof. induction s as [|c s IH]; str; [lia|]. destruct (p c); str; lia. Qed.

Lemma stripStart_full (p : ascii -> bool) (s : string) :
  String.length (stripStart p s) = String.length s -> stripStart p s = s.
Proof.
  destruct s as [|c s]; str; [reflexivity|].
  destruct (p c); [|reflexivity].
  pose proof (stripStart_length p s). lia.
Qed.

Lemma stripEnd_length (p : ascii -> bool) (s : string) :
  (String.length (stripEnd p s) <= String.length s)%nat.
Proof.
  induction s as [|c s IH]; str; [lia|].
  destruct (stripEnd p s); str; repeat match goal with H : _ |- _ => progress str_in H end; [destruct (p c); str; lia | lia].
Qed.

Lemma stripEnd_full (p : ascii -> bool) (s : string) :
  String.length (stripEnd p s) = String.length s -> stripEnd p s = s.
Proof.
  induction s as [|c s IH]; str; [reflexivity|].
  pose proof (stripEnd_length p s) as Hle.
  destruct (stripEnd p s) as [|d t] eqn:Hs; str; repeat match goal with H : _ |- _ => progress str_in H end.
  - destruct (p c); str; intros H; [lia|].
    destruct s; str; repeat match goal with H : _ |- _ => progress str_in H end; [reflexivity | lia].
  - intros H. rewrite <- IH by lia. reflexivity.
Qed.

Lemma stripStart_free (p : ascii -> bool) (c : ascii) (s : string) :
  contains c s = false -> contains c (stripStart p s) = false.
Proof.
  induction s as [|x s IH]; str; [reflexivity|].
  intros H. destruct (orb_false_elim _ _ H) as [Hx Hs].
  destruct (p x); [auto | str; exact H].
Qed.

Lemma stripEnd_free (p : ascii -> bool) (c : ascii) (s : string) :
  contains c s = false -> contains c (stripEnd p s) = false.
Proof.
  induction s as [|x s IH]; str; [reflexivity|].
  intros [Hx Hs]%orb_false_elim. specialize (IH Hs).
  destruct (stripEnd p s); str; repeat match goal with H : _ |- _ => progress str_in H end.
  - destruct (p x); str; [reflexivity | rewrite Hx; reflexivity].
  - rewrite Hx. exact IH.
Qed.

(** Stripping the end stops at a code unit that is kept. *)
Lemma stripEnd_app (p : ascii -> bool) (a : string) (c : ascii) (b : string) :
  p c = false ->
  stripEnd p (a +:+ String c b) = a +:+ String c (stripEnd p b).
Proof.
  intros Hc. induction a as [|x a IH]; str.
  - destruct (stripEnd p b); [rewrite Hc|]; reflexivity.
  - rewrite IH. destruct a; reflexivity.
Qed.

Lemma stripStart_app (p : ascii -> bool) (a b : string) :
  a <> "" -> stripStart p a = a -> stripStart p (a +:+ b) = a +:+ b.
Proof.
  destruct a as [|c a]; [congruence|]. str. intros _.
  destruct (p c); [|reflexivity].
  intros H. pose proof (stripStart_length p a) as Hle.
  rewrite H in Hle. cbn [String.length] in Hle. lia.
Qed.

(** A string fixed by a coarser strip is fixed by a finer one. *)
Lemma stripStart_weaken (p q : ascii -> bool) (s : string) :
  (forall c, q c = true -> p c = true) ->
  stripStart p s = s -> stripStart q s = s.
Proof.
  intros Hpq. destruct s as [|c s]; str; [reflexivity|].
  destruct (p c) eqn:Hp.
  - intros H. pose proof (stripStart_length p s) as Hle.
    rewrite H in Hle. cbn [String.length] in Hle. lia.
  - destruct (q c) eqn:Hq; [|reflexivity]. rewrite (Hpq c Hq) in Hp. discriminate.
Qed.

Lemma stripEnd_weaken (p q : ascii -> bool) (s : string) :
  (forall c, q c = true -> p c = true) ->
  stripEnd p s = s -> stripEnd q s = s.
Proof.
  intros Hpq. induction s as [|c s IH]; str; [reflexivity|].
  pose proof (stripEnd_length p s) as Hle.
  destruct (stripEnd p s) as [|d t] eqn:Hs.
  - destruct (p c) eqn:Hp; [discriminate|]. intros [= <-]. str.
    destruct (q c) eqn:Hq; [|reflexivity]. rewrite (Hpq c Hq) in Hp. discriminate.
  - intros [= H]. rewrite IH by exact H. destruct s; [discriminate|reflexivity].
Qed.

Lemma isWSP_isWhiteSpace (c : ascii) : isWSP c = true -> isWhiteSpace c = true.
Proof.
  unfold isWSP, isWhiteSpace. cbn zeta.
  intros [H|H]%orb_prop; apply Nat.eqb_eq in H; rewrite H; reflexivity.
Qed.

(** The pieces of a split hold no separator, and nothing the string did
    not hold. *)
Lemma split_pieces_free (sep : ascii) (s : string) :
  Forall (fun x => contains sep x = false) (split sep s).
Proof.
  induction s as [|c s IH]; str; [repeat constructor|].
  destruct (Ascii.eqb c sep) eqn:Hc; [constructor; [reflexivity | exact IH]|].
  destruct (split sep s) as [|piece pieces]; [repeat constructor; str; rewrite Hc; reflexivity|].
  inversion IH as [|? ? Hp Hps]; subst. constructor; [|exact Hps].
  str. rewrite Hc, Hp. reflexivity.
Qed.

Lemma split_pieces_keep (sep c : ascii) (s : string) :
  contains c s = false -> Forall (fun x => contains c x = false) (split sep s).
Proof.
  induction s as [|d s IH]; str; [repeat constructor|].
  intros [Hd Hs]%orb_false_elim. specialize (IH Hs).
  destruct (Ascii.eqb d sep); [constructor; [reflexivity | exact IH]|].
  destruct (split sep s) as [|piece pieces]; [repeat constructor; str; rewrite Hd; reflexivity|].
  inversion IH as [|? ? Hp Hps]; subst. constructor; [|exact Hps].
  str. rewrite Hd, Hp. reflexivity.
Qed.

Lemma findCookie_bare (name : string) (pieces : list string) (s : string) :
  Forall (fun x => contains ";" x = false) pieces ->
  findCookie name pieces = Str s ->
  contains "=" s = false /\ contains ";" s = false.
Proof.
  induction 1 as [|cookie pieces Hc _ IH]; cbn [findCookie]; [discriminate|].
  assert (Htrim : contains ";" (trim cookie) = false)
    by (apply stripEnd_free, stripStart_free, Hc).
  pose proof (split_pieces_free "=" (trim cookie)) as Heq.
  pose proof (split_pieces_keep "=" ";" (trim cookie) Htrim) as Hsemi.
  destruct (split "=" (trim cookie)) as [|cookieName more]; [exact IH|].
  destruct (String.eqb cookieName name); [|exact IH].
  destruct more as [|cookieValue more]; [discriminate|]. intros [= <-].
  inversion Heq as [|? ? _ Heq']; subst. inversion Heq' as [|? ? Hv _]; subst.
  inversion Hsemi as [|? ? _ Hsemi']; subst. inversion Hsemi' as [|? ? Hv' _]; subst.
  auto.
Qed.

(** ** Reading and writing cookies *)

Lemma split_join (l : list string) :
  Forall (fun x => contains ";" x = false) l ->
  split ";" (join "; " l) =
    match l with
    | [] => [""]
    | x :: rest => x :: map (String " ") rest
    end.
Proof.
  induction l as [|x l IH]; intros Hl; [reflexivity|].
  inversion Hl as [|? ? Hx Hrest]; subst. specialize (IH Hrest).
  destruct l as [|y l].
  - cbn [join map]. apply split_none, Hx.
  - change (join "; " (x :: y :: l)) with (x +:+ "; " +:+ join "; " (y :: l)).
    change ("; " +:+ join "; " (y :: l))
      with (String ";" (String " " (join "; " (y :: l)))).
    rewrite (split_app ";" x _ Hx).
    cbn [split]. change (Ascii.eqb " " ";") with false. cbv iota.
    rewrite IH. reflexivity.
Qed.

Lemma findCookie_trim (name : string) (l1 l2 : list string) :
  map trim l1 = map trim l2 -> findCookie name l1 = findCookie name l2.
Proof.
  revert l2. induction l1 as [|x l1 IH]; intros [|y l2] H;
    try discriminate H; [reflexivity|].
  injection H as Hxy Hrest. cbn [findCookie]. rewrite Hxy, (IH l2 Hrest).
  reflexivity.
Qed.

Lemma trim_space (s : string) : trim (String " " s) = trim s.
Proof. reflexivity. Qed.

Lemma plainName_facts (name : string) :
  plainName name = true ->
  name <> "" /\ contains "=" name = false /\ contains ";" name = false
  /\ stripStart isWhiteSpace name = name /\ stripEnd isWhiteSpace name = name.
Proof.
  unfold plainName. rewrite !andb_true_iff, !negb_true_iff.
  intros (((((((Hne & Heq) & Hsemi) & Hstart) & Hend) & _) & _) & _).
  apply String.eqb_neq in Hne. apply String.eqb_eq in Hstart, Hend. auto.
Qed.

Lemma plainName_octets (name : string) :
  plainName name = true -> (octets name <= 4000)%nat.
Proof.
  unfold plainName. rewrite !andb_true_iff.
  intros (_ & Hsize). apply Nat.leb_le, Hsize.
Qed.

Lemma trimWSP_plainName (name : string) :
  plainName name = true -> trimWSP name = name.
Proof.
  intros (_ & _ & _ & Hstart & Hend)%plainName_facts. unfold trimWSP.
  rewrite (stripStart_weaken isWhiteSpace isWSP name isWSP_isWhiteSpace Hstart).
  apply (stripEnd_weaken isWhiteSpace isWSP name isWSP_isWhiteSpace Hend).
Qed.

(** The text of a cookie of the jar in [document.cookie]. *)
Lemma entry_plain (n v : string) :
  plainName n = true ->
  (if String.eqb n "" then v else n +:+ "=" +:+ v) = n +:+ "=" +:+ v.
Proof.
  intros (Hne & _)%plainName_facts. apply String.eqb_neq in Hne.
  rewrite Hne. reflexivity.
Qed.

(** A cookie of the jar, as [getCookie] sees its piece of [document.cookie]. *)
Lemma trim_entry (n v : string) :
  plainName n = true ->
  trim (n +:+ "=" +:+ v) = n +:+ String "=" (stripEnd isWhiteSpace v).
Proof.
  intros (Hne & _ & _ & Hstart & _)%plainName_facts. unfold trim.
  rewrite (stripStart_app isWhiteSpace n _ Hne Hstart).
  change ("=" +:+ v) with (String "=" v).
  apply stripEnd_app. reflexivity.
Qed.

Lemma findCookie_entries (name : string) (jar : list (string * string)) :
  jarOk jar ->
  findCookie name
    (map (fun c => if String.eqb (fst c) "" then snd c
                   else fst c +:+ "=" +:+ snd c) jar) =
    match lookupCookie name jar with
    | Some v => Str (upTo "=" (stripEnd isWhiteSpace v))
    | None => Null
    end.
Proof.
  induction jar as [|[n v] jar IH]; intros Hjar; [reflexivity|].
  inversion Hjar as [|? ? [Hn Hv] Hrest]; subst. cbn [fst snd] in Hn, Hv.
  cbn [map findCookie lookupCookie fst snd].
  rewrite (entry_plain n v Hn), (trim_entry n v Hn).
  destruct (plainName_facts n Hn) as (_ & Heq & _).
  rewrite (split_app "=" n _ Heq).
  destruct (split_cons "=" (stripEnd isWhiteSpace v)) as [pieces ->].
  destruct (String.eqb n name); [reflexivity | exact (IH Hrest)].
Qed.

Lemma jarOk_entries (jar : list (string * string)) :
  jarOk jar ->
  Forall (fun x => contains ";" x = false)
    (map (fun c => if String.eqb (fst c) "" then snd c
                   else fst c +:+ "=" +:+ snd c) jar).
Proof.
  induction 1 as [|[n v] jar [Hn Hv] _ IH]; constructor; [|exact IH].
  cbn [fst snd] in *. rewrite (entry_plain n v Hn).
  destruct (plainName_facts n Hn) as (_ & _ & Hsemi & _).
  rewrite !contains_app, Hsemi, Hv. reflexivity.
Qed.

(** [getCookie] gives the value of the first cookie of that name, without
    white space at its end, up to its first [=]. *)
Lemma getCookie_spec (name : string) (w : World) :
  jarOk (cookies w) -> name <> "" ->
  getCookie name w =
    match lookupCookie name (cookies w) with
    | Some v => Str (upTo "=" (stripEnd isWhiteSpace v))
    | None => Null
    end.
Proof.
  intros Hjar Hname. unfold getCookie, document_cookie. cbv zeta.
  rewrite (split_join _ (jarOk_entries _ Hjar)).
  rewrite <- (findCookie_entries name (cookies w) Hjar).
  destruct (cookies w) as [|c jar]; cbn [map].
  - cbn. destruct name; [congruence | reflexivity].
  - apply findCookie_trim. cbn [map]. f_equal.
    rewrite map_map. apply map_ext. intros x. apply trim_space.
Qed.

Lemma lookupCookie_store (name value : string) (jar : list (string * string)) :
  lookupCookie name (storeCookie name value jar) = Some value.
Proof.
  induction jar as [|[n v] jar IH]; cbn [storeCookie lookupCookie].
  - rewrite String.eqb_refl. reflexivity.
  - destruct (String.eqb n name) eqn:Hn; cbn [lookupCookie].
    + rewrite String.eqb_refl. reflexivity.
    + rewrite Hn. exact IH.
Qed.

Lemma lookupCookie_store_other (name value other : string)
    (jar : list (string * string)) :
  other <> name ->
  lookupCookie other (storeCookie name value jar) = lookupCookie other jar.
Proof.
  intros Hne. induction jar as [|[n v] jar IH]; cbn [storeCookie lookupCookie].
  - apply String.eqb_neq in Hne. rewrite String.eqb_sym, Hne. reflexivity.
  - destruct (String.eqb n name) eqn:Hn; cbn [lookupCookie].
    + apply String.eqb_eq in Hn. subst n.
      apply String.eqb_neq in Hne. rewrite String.eqb_sym, Hne. reflexivity.
    + rewrite IH. reflexivity.
Qed.

Lemma lookupCookie_remove (name : string) (jar : list (string * string)) :
  lookupCookie name (removeCookie name jar) = None.
Proof.
  induction jar as [|[n v] jar IH]; cbn [removeCookie lookupCookie]; [reflexivity|].
  destruct (String.eqb n name) eqn:Hn; cbn [lookupCookie]; [exact IH|].
  rewrite Hn. exact IH.
Qed.

Lemma lookupCookie_remove_other (name other : string) (jar : list (string * string)) :
  other <> name ->
  lookupCookie other (removeCookie name jar) = lookupCookie other jar.
Proof.
  intros Hne. induction jar as [|[n v] jar IH]; cbn [removeCookie lookupCookie];
    [reflexivity|].
  destruct (String.eqb n name) eqn:Hn; cbn [lookupCookie].
  - apply String.eqb_eq in Hn. subst n.
    apply String.eqb_neq in Hne. rewrite String.eqb_sym, Hne. exact IH.
  - rewrite IH. reflexivity.
Qed.

Lemma jarOk_store (name value : string) (jar : list (string * string)) :
  plainName name = true -> contains ";" value = false ->
  jarOk jar -> jarOk (storeCookie name value jar).
Proof.
  intros Hn Hv. induction 1 as [|[n v] jar Hc Hjar IH]; cbn [storeCookie].
  - repeat constructor; assumption.
  - destruct (String.eqb n name); constructor; auto.
Qed.

Lemma jarOk_remove (name : string) (jar : list (string * string)) :
  jarOk jar -> jarOk (removeCookie name jar).
Proof.
  induction 1 as [|[n v] jar Hc _ IH]; cbn [removeCookie]; [constructor|].
  destruct (String.eqb n name); [exact IH | constructor; auto].
Qed.

(** ** Regular values *)

Lemma allChars_stripStart (p q : ascii -> bool) (s : string) :
  allChars p s = true -> allChars p (stripStart q s) = true.
Proof.
  induction s as [|c s IH]; cbn [allChars stripStart]; [reflexivity|].
  intros [Hc Hs]%andb_prop. destruct (q c); [auto|].
  cbn [allChars]. rewrite Hc, Hs. reflexivity.
Qed.

Lemma allChars_stripEnd (p q : ascii -> bool) (s : string) :
  allChars p s = true -> allChars p (stripEnd q s) = true.
Proof.
  induction s as [|c s IH]; cbn [allChars stripEnd]; [reflexivity|].
  intros [Hc Hs]%andb_prop. specialize (IH Hs).
  destruct (stripEnd q s) as [|d t].
  - destruct (q c); cbn [allChars]; rewrite ?Hc; reflexivity.
  - change (allChars p (String c (String d t)))
      with (p c && allChars p (String d t)).
    rewrite Hc, IH. reflexivity.
Qed.

Lemma octets_stripStart (q : ascii -> bool) (s : string) :
  (octets (stripStart q s) <= octets s)%nat.
Proof.
  induction s as [|c s IH]; cbn [octets stripStart]; [lia|].
  destruct (q c); cbn [octets]; lia.
Qed.

Lemma octets_stripEnd (q : ascii -> bool) (s : string) :
  (octets (stripEnd q s) <= octets s)%nat.
Proof.
  induction s as [|c s IH]; cbn [octets stripEnd]; [lia|].
  destruct (stripEnd q s) as [|d t].
  - destruct (q c); cbn [octets]; lia.
  - change (octets (String c (String d t)))
      with ((if (nat_of_ascii c <? 128)%nat then 1 else 2)
            + octets (String d t))%nat.
    lia.
Qed.

Lemma regular_facts (name value : string) :
  regular name value = true ->
  allChars isCookieChar value = true /\ contains ";" value = false
  /\ (octets name + octets value <= 4000)%nat.
Proof.
  unfold regular. rewrite !andb_true_iff, negb_true_iff.
  intros ((Hc & Hs) & Hl). apply Nat.leb_le in Hl. auto.
Qed.

(** What the browser stores of a regular value is regular. *)
Lemma regular_trimWSP (name value : string) :
  regular name value = true -> regular name (trimWSP value) = true.
Proof.
  intros (Hc & Hs & Hl)%regular_facts. unfold regular, trimWSP.
  rewrite allChars_stripEnd by (apply allChars_stripStart, Hc).
  rewrite stripEnd_free by (apply stripStart_free, Hs).
  cbn [negb andb]. apply Nat.leb_le.
  pose proof (octets_stripEnd isWSP (stripStart isWSP value)).
  pose proof (octets_stripStart isWSP value). lia.
Qed.

Lemma substring_free (c : ascii) (skip keep : nat) (s : string) :
  contains c s = false -> contains c (substring skip keep s) = false.
Proof.
  revert skip keep.
  induction s as [|x s IH]; intros skip keep; cbn [contains].
  - destruct skip, keep; reflexivity.
  - intros [Hx Hs]%orb_false_elim.
    destruct skip as [|skip]; [|cbn [substring]; apply IH, Hs].
    destruct keep as [|keep]; [reflexivity|].
    cbn [substring contains]. rewrite Hx. apply IH, Hs.
Qed.

Lemma readBack_fixed (value : string) :
  readBack value = value <->
  contains "=" value = false
  /\ stripStart isWSP value = value /\ stripEnd isWhiteSpace value = value.
Proof.
  unfold readBack, trimWSP. split.
  - intros H.
    pose proof (stripStart_length isWSP value) as H2.
    pose proof (stripEnd_length isWSP (stripStart isWSP value)) as H3.
    pose proof (stripEnd_length isWhiteSpace
                  (stripEnd isWSP (stripStart isWSP value))) as H4.
    pose proof (upTo_length "="
                  (stripEnd isWhiteSpace
                     (stripEnd isWSP (stripStart isWSP value)))) as H5.
    rewrite H in H5.
    assert (Hstart : stripStart isWSP value = value)
      by (apply stripStart_full; lia).
    rewrite Hstart in *.
    assert (Hend : stripEnd isWSP value = value) by (apply stripEnd_full; lia).
    rewrite Hend in *.
    assert (Hws : stripEnd isWhiteSpace value = value)
      by (apply stripEnd_full; lia).
    rewrite Hws in *.
    assert (Heq : contains "=" value = false)
      by (apply upTo_full; rewrite H; reflexivity).
    auto.
  - intros (Heq & Hstart & Hws).
    rewrite Hstart.
    rewrite (stripEnd_weaken isWhiteSpace isWSP value isWSP_isWhiteSpace Hws).
    rewrite Hws. apply upTo_none, Heq.
Qed.

Section Store.
Context {N : JsNumber}.
Context {B : Browser}.
Variable env : Env.
Variable JSON_parse : string -> result json.
Variable JSON_stringify : json -> string.

(** The pair that the browser parses out of what [setCookie] and
    [deleteCookie] assign. *)
Lemma parse_pair (name value : string) :
  plainName name = true ->
  breakAt "=" (upTo ";" (name +:+ "=" +:+ value)) = Some (name, upTo ";" value).
Proof.
  intros (_ & Heq & Hsemi & _)%plainName_facts.
  rewrite (upTo_app_other ";" name _ Hsemi).
  change ("=" +:+ value) with (String "=" ("" +:+ value)).
  rewrite append_nil_l.
  assert (Hcut : upTo ";" (String "=" value) = String "=" (upTo ";" value)).
  { unfold upTo. cbn [breakAt]. change (Ascii.eqb "=" ";") with false. cbv iota.
    destruct (breakAt ";" value) as [[a b]|]; reflexivity. }
  rewrite Hcut. apply (breakAt_app "=" name _ Heq).
Qed.

(** Whatever the value, a write of [setCookie] touches the cookie of its
    name only: the browser leaves it, removes it or stores some text
    without [;] for it. *)
Lemma setCookie_outcome (name value : string) (days : Z) (w : World) :
  plainName name = true ->
  localStorage (setCookie env name value days w) = localStorage w
  /\ now (setCookie env name value days w) = now w
  /\ (cookies (setCookie env name value days w) = cookies w
      \/ cookies (setCookie env name value days w) = removeCookie name (cookies w)
      \/ exists v, contains ";" v = false
                   /\ cookies (setCookie env name value days w) =
                        storeCookie name v (cookies w)).
Proof.
  intros Hname. refine (conj eq_refl (conj eq_refl _)).
  assert (Hfree : contains ";" (trimWSP (upTo ";" value)) = false)
    by apply stripEnd_free, stripStart_free, upTo_free.
  unfold setCookie, set_document_cookie. cbv zeta. cbn [nameValue expires cookies].
  rewrite (parse_pair name value Hname), (trimWSP_plainName name Hname), Hname.
  cbn [negb].
  destruct (negb _ && regular _ _).
  - destruct (_ <=? _); [right; left; reflexivity|].
    right; right. eexists. split; [exact Hfree | reflexivity].
  - destruct (oddValue _ _) as [| |skip keep].
    + left. reflexivity.
    + right; left. reflexivity.
    + right; right. eexists. split; [|reflexivity].
      apply substring_free, Hfree.
Qed.

Lemma setCookie_jarOk (name value : string) (days : Z) (w : World) :
  plainName name = true -> jarOk (cookies w) ->
  jarOk (cookies (setCookie env name value days w)).
Proof.
  intros Hname Hjar.
  destruct (setCookie_outcome name value days w Hname)
    as (_ & _ & [-> | [-> | (v & Hv & ->)]]);
    auto using jarOk_remove, jarOk_store.
Qed.

Lemma setCookie_frame (name other value : string) (days : Z) (w : World) :
  plainName name = true -> other <> name ->
  lookupCookie other (cookies (setCookie env name value days w)) =
    lookupCookie other (cookies w).
Proof.
  intros Hname Hne.
  destruct (setCookie_outcome name value days w Hname)
    as (_ & _ & [-> | [-> | (v & Hv & ->)]]);
    auto using lookupCookie_remove_other, lookupCookie_store_other.
Qed.

(** A regular value is stored, trimmed of the spaces around it. *)
Lemma setCookie_spec (name value : string) (days : Z) (w : World) :
  plainName name = true -> regular name value = true -> 0 < days ->
  setCookie env name value days w =
    {| cookies := storeCookie name (trimWSP value) (cookies w);
       localStorage := localStorage w; now := now w |}.
Proof.
  intros Hname Hvalue Hdays.
  destruct (plainName_facts name Hname) as (_ & _ & Hsemi & _).
  destruct (regular_facts name value Hvalue) as (_ & Hfree & _).
  unfold setCookie, set_document_cookie. cbv zeta. cbn [nameValue expires].
  rewrite (parse_pair name value Hname), (trimWSP_plainName name Hname), Hname.
  rewrite (upTo_none ";" value Hfree), (regular_trimWSP name value Hvalue).
  rewrite !contains_app, Hsemi, Hfree. cbn [contains negb andb orb].
  change (Ascii.eqb "=" ";") with false. cbn [negb andb orb].
  replace (now w + days * 24 * 60 * 60 * 1000 <=? now w) with false
    by (symmetry; apply Z.leb_gt; lia).
  reflexivity.
Qed.

Lemma deleteCookie_spec (name : string) (w : World) :
  plainName name = true -> 0 <= now w ->
  deleteCookie name w =
    {| cookies := removeCookie name (cookies w);
       localStorage := localStorage w; now := now w |}.
Proof.
  intros Hname Hnow.
  destruct (plainName_facts name Hname) as (_ & _ & Hsemi & _).
  pose proof (plainName_octets name Hname) as Hsize.
  unfold deleteCookie, set_document_cookie. cbv zeta. cbn [nameValue expires].
  change (name +:+ "=") with (name +:+ "=" +:+ "").
  rewrite (parse_pair name "" Hname), (trimWSP_plainName name Hname), Hname.
  rewrite !contains_app, Hsemi.
  replace (regular name (trimWSP (upTo ";" ""))) with true
    by (symmetry; unfold regular; cbn; apply Nat.leb_le; lia).
  cbn [contains negb andb orb]. change (Ascii.eqb "=" ";") with false.
  cbn [negb andb orb].
  replace (0 <=? now w) with true by (symmetry; apply Z.leb_le; lia).
  reflexivity.
Qed.

Lemma getCookie_setCookie (name value : string) (days : Z) (w : World) :
  jarOk (cookies w) -> plainName name = true -> regular name value = true ->
  0 < days ->
  getCookie name (setCookie env name value days w) = Str (readBack value).
Proof.
  intros Hjar Hname Hvalue Hdays.
  pose proof (setCookie_jarOk name value days w Hname Hjar) as Hjar'.
  destruct (plainName_facts name Hname) as (Hne & _).
  rewrite (getCookie_spec _ _ Hjar' Hne).
  rewrite (setCookie_spec name value days w Hname Hvalue Hdays). cbn [cookies].
  rewrite lookupCookie_store. reflexivity.
Qed.

Lemma getCookie_setCookie_other (name other value : string) (days : Z) (w : World) :
  jarOk (cookies w) -> plainName name = true -> 0 < days ->
  other <> "" -> other <> name ->
  getCookie other (setCookie env name value days w) = getCookie other w.
Proof.
  intros Hjar Hname Hdays Hother Hne.
  rewrite !getCookie_spec; auto using setCookie_jarOk.
  rewrite (setCookie_frame name other value days w Hname Hne). reflexivity.
Qed.

Lemma saveAuthData_cookies (authData : AuthData) (w : World) :
  cookies (saveAuthData env JSON_stringify authData w) =
    cookies (setCookie env "refresh_token" (refresh authData) 30
               (setCookie env "access_token" (access authData) 7 w)).
Proof.
  unfold saveAuthData. cbv zeta.
  destruct (user authData) as [u|]; [destruct (truthy u)|]; reflexivity.
Qed.

Lemma saveAuthData_jarOk (authData : AuthData) (w : World) :
  jarOk (cookies w) -> jarOk (cookies (saveAuthData env JSON_stringify authData w)).
Proof.
  intros Hjar. rewrite saveAuthData_cookies.
  repeat apply setCookie_jarOk; auto.
Qed.

(** [saveAuthData] leaves the cookies of other names alone. *)
Lemma saveAuthData_frame (authData : AuthData) (name : string) (w : World) :
  name <> "access_token" -> name <> "refresh_token" ->
  lookupCookie name (cookies (saveAuthData env JSON_stringify authData w)) =
    lookupCookie name (cookies w).
Proof.
  intros Ha Hr. rewrite saveAuthData_cookies.
  rewrite !setCookie_frame by (reflexivity || assumption). reflexivity.
Qed.

(** After [saveAuthData] a regular access token reads back cut like any
    cookie, whatever the refresh token is. *)
Lemma getCookie_saveAuthData (authData : AuthData) (w : World) :
  jarOk (cookies w) -> regular "access_token" (access authData) = true ->
  getCookie "access_token" (saveAuthData env JSON_stringify authData w) =
    Str (readBack (access authData)).
Proof.
  intros Hjar Haccess. rewrite getCookie_spec;
    [|apply saveAuthData_jarOk, Hjar | discriminate].
  rewrite saveAuthData_cookies.
  rewrite setCookie_frame by (reflexivity || discriminate).
  rewrite setCookie_spec by (reflexivity || assumption || lia). cbn [cookies].
  rewrite lookupCookie_store. reflexivity.
Qed.

(** C9, as the code has it.  For a cookie name that is itself read as
    written, and a jar of such cookies: [getCookie] gives the stored value
    only up to its first [=] (and without white space at its end); a value
    that comes back from [setCookie] as it was written has no [=] and no
    [;], whatever the browser; for a regular value (printable ASCII
    without [;], within the size a browser allows) [getCookie] gives
    [readBack value] after [setCookie], which is the value up to its first
    [=] when the value has no space around it, and it gives the value back
    exactly when the value has no [=], no leading space and no trailing
    space.  So after [saveAuthData] with a regular access token both
    [isAuthenticated] and the bearer header work from the token cut in
    this way. *)
Theorem getCookie_reads_back (name value : string) (days : Z) (w : World)
    (authData : AuthData) (options : RequestInit) :
  jarOk (cookies w) -> plainName name = true -> 0 < days ->
  (forall v, lookupCookie name (cookies w) = Some v ->
     getCookie name w = Str (upTo "=" (stripEnd isWhiteSpace v)))
  /\ (getCookie name (setCookie env name value days w) = Str value ->
      contains "=" value = false /\ contains ";" value = false)
  /\ (regular name value = true ->
      getCookie name (setCookie env name value days w) = Str (readBack value))
  /\ (stripStart isWSP value = value -> stripEnd isWhiteSpace value = value ->
      readBack value = upTo "=" value)
  /\ (regular name value = true ->
      (getCookie name (setCookie env name value days w) = Str value <->
       contains "=" value = false
       /\ stripStart isWSP value = value /\ stripEnd isWhiteSpace value = value))
  /\ (regular "access_token" (access authData) = true ->
      isAuthenticated (saveAuthData env JSON_stringify authData w) =
        negb (String.eqb (readBack (access authData)) ""))
  /\ (regular "access_token" (access authData) = true ->
      headers options !! "Authorization" = None ->
      requestHeaders options (saveAuthData env JSON_stringify authData w)
        !! "Authorization" =
        if String.eqb (readBack (access authData)) "" then None
        else Some ("Bearer " +:+ readBack (access authData))).
Proof.
  intros Hjar Hname Hdays.
  destruct (plainName_facts name Hname) as (Hne & _).
  refine (conj _ (conj _ (conj _ (conj _ (conj _ (conj _ _)))))).
  - intros v Hv. rewrite (getCookie_spec name w Hjar Hne), Hv. reflexivity.
  - unfold getCookie. cbv zeta. intros Hget.
    refine (findCookie_bare name _ value _ Hget). apply split_pieces_free.
  - intros Hvalue. exact (getCookie_setCookie name value days w Hjar Hname Hvalue Hdays).
  - intros Hstart Hend. unfold readBack, trimWSP. rewrite Hstart.
    rewrite (stripEnd_weaken isWhiteSpace isWSP value isWSP_isWhiteSpace Hend).
    rewrite Hend. reflexivity.
  - intros Hvalue.
    rewrite (getCookie_setCookie name value days w Hjar Hname Hvalue Hdays).
    rewrite <- readBack_fixed.
    split; [intros H; injection H as H; exact H | intros H; rewrite H; reflexivity].
  - intros Haccess. unfold isAuthenticated. cbv zeta.
    rewrite (getCookie_saveAuthData authData w Hjar Haccess). reflexivity.
  - intros Haccess Hnone. unfold requestHeaders. cbv zeta.
    rewrite (getCookie_saveAuthData authData w Hjar Haccess). cbn [truthyString].
    rewrite <- assoc_L by apply _.
    rewrite (lookup_union_r _ _ _ Hnone).
    destruct (String.eqb (readBack (access authData)) ""); cbn [negb].
    + rewrite lookup_union_r by apply lookup_empty.
      apply lookup_singleton_ne. discriminate.
    + apply lookup_union_Some_l, lookup_singleton_eq.
Qed.

(** What [saveAuthData] then [isAuthenticated] gives in general. *)
Lemma isAuthenticated_saveAuthData (authData : AuthData) (w : World) :
  jarOk (cookies w) -> regular "access_token" (access authData) = true ->
  isAuthenticated (saveAuthData env JSON_stringify authData w) =
    negb (String.eqb (readBack (access authData)) "").
Proof.
  intros Hjar Haccess. unfold isAuthenticated. cbv zeta.
  rewrite (getCookie_saveAuthData authData w Hjar Haccess). reflexivity.
Qed.

(** C7, where the code departs from it: an access token that begins with
    [=] is not empty, yet after [saveAuthData] the page does not count as
    authenticated. *)
Theorem isAuthenticated_false_after_save (w : World) :
  jarOk (cookies w) ->
  access {| access := "=A"; refresh := "B"; user := None |} <> ""
  /\ isAuthenticated
       (saveAuthData env JSON_stringify
          {| access := "=A"; refresh := "B"; user := None |} w) = false.
Proof.
  intros Hjar. split; [discriminate|].
  rewrite (isAuthenticated_saveAuthData
             {| access := "=A"; refresh := "B"; user := None |} w Hjar eq_refl).
  reflexivity.
Qed.

Lemma isAuthenticated_clearAuthData (w : World) :
  jarOk (cookies w) -> 0 <= now w -> isAuthenticated (clearAuthData w) = false.
Proof.
  intros Hjar Hnow. unfold isAuthenticated, clearAuthData. cbv zeta.
  rewrite (deleteCookie_spec "access_token" w) by (reflexivity || exact Hnow).
  rewrite deleteCookie_spec by (reflexivity || exact Hnow). cbn [cookies].
  rewrite getCookie_spec; cbn [cookies localStorage_removeItem];
    [|auto using jarOk_remove | discriminate].
  rewrite lookupCookie_remove_other by discriminate.
  rewrite lookupCookie_remove. reflexivity.
Qed.


Lemma saveAuthData_falsy_user (authData : AuthData) (w : World) :
  truthy_opt (user authData) = false ->
  saveAuthData env JSON_stringify authData w =
    setCookie env "refresh_token" (refresh authData) 30
      (setCookie env "access_token" (access authData) 7 w).
Proof.
  unfold saveAuthData. cbv zeta.
  destruct (user authData) as [u|]; cbn [truthy_opt]; [intros ->|]; reflexivity.
Qed.

(** C10. [saveAuthData] without a user profile ([user] missing, or
    present and falsy like [null]) leaves the local storage, and so the
    stored profile, as it was; it writes the two token cookies and leaves
    every other cookie as it was. *)
Theorem saveAuthData_without_user (authData : AuthData) (w : World) :
  truthy_opt (user authData) = false ->
  localStorage (saveAuthData env JSON_stringify authData w) = localStorage w
  /\ getUserData JSON_parse (saveAuthData env JSON_stringify authData w) =
       getUserData JSON_parse w
  /\ saveAuthData env JSON_stringify authData w =
       setCookie env "refresh_token" (refresh authData) 30
         (setCookie env "access_token" (access authData) 7 w)
  /\ forall name : string,
       name <> "access_token" -> name <> "refresh_token" ->
       lookupCookie name (cookies (saveAuthData env JSON_stringify authData w)) =
         lookupCookie name (cookies w).
Proof.
  intros Hu.
  assert (Hls : localStorage (saveAuthData env JSON_stringify authData w) =
                localStorage w).
  { rewrite saveAuthData_falsy_user by exact Hu. reflexivity. }
  repeat apply conj.
  - exact Hls.
  - unfold getUserData. rewrite Hls. reflexivity.
  - apply saveAuthData_falsy_user. exact Hu.
  - intros name Ha Hr. apply saveAuthData_frame; assumption.
Qed.

(** C8, as the code has it.  [getUserData] gives [null] when nothing is
    stored or the stored text is empty; otherwise it gives whatever
    [JSON.parse] gives for the stored text: the profile when the text
    parses, and the parse failure, thrown on to the caller, when it does
    not. *)
Theorem getUserData_outcome (w : World) :
  (localStorage w !! "user" = None -> getUserData JSON_parse w = Returns JNull)
  /\ (localStorage w !! "user" = Some "" ->
      getUserData JSON_parse w = Returns JNull)
  /\ (forall userData : string,
        localStorage w !! "user" = Some userData -> userData <> "" ->
        getUserData JSON_parse w = JSON_parse userData
        /\ (forall profile, JSON_parse userData = Returns profile ->
            getUserData JSON_parse w = Returns profile)
        /\ (forall e, JSON_parse userData = Throws e ->
            getUserData JSON_parse w = Throws e)).
Proof.
  unfold getUserData. repeat apply conj.
  - intros ->. reflexivity.
  - intros ->. reflexivity.
  - intros userData -> Hne. apply String.eqb_neq in Hne. rewrite Hne. cbn [negb].
    repeat split; intros; congruence.
Qed.


(** Reading [detail] off a [null] body throws, and the [catch] throws that
    error on. *)
Lemma apiRequest_null_body_throws (fetch : Request -> result Response)
    (endpoint : string) (options : RequestInit) (w : World) (response : Response) :
  fetch (buildRequest env endpoint options w) = Returns response ->
  response_json response = Returns JNull -> ok response = false ->
  apiRequest env fetch endpoint options w =
    Throws (TypeError "Cannot read properties of null (reading 'detail')").
Proof.
  intros Hfetch Hjson Hok. unfold apiRequest. rewrite Hfetch. cbn.
  rewrite Hjson, Hok. reflexivity.
Qed.

(** The three cases of the error payload convention. *)
Lemma failureMessage_detail (fields : list (string * json)) (text : string) :
  assoc "detail" fields = Some (JStr text) -> text <> "" ->
  failureMessage (JObj fields) = text.
Proof.
  intros Hd Hne. unfold failureMessage. rewrite Hd. cbn.
  apply String.eqb_neq in Hne. rewrite Hne. reflexivity.
Qed.

Lemma failureMessage_message (fields : list (string * json)) (text : string) :
  assoc "detail" fields = None ->
  assoc "message" fields = Some (JStr text) -> text <> "" ->
  failureMessage (JObj fields) = text.
Proof.
  intros Hd Hm Hne. unfold failureMessage. rewrite Hd, Hm. cbn.
  apply String.eqb_neq in Hne. rewrite Hne. reflexivity.
Qed.

Lemma failureMessage_neither (fields : list (string * json)) :
  assoc "detail" fields = None -> assoc "message" fields = None ->
  failureMessage (JObj fields) = "API request failed".
Proof. intros Hd Hm. unfold failureMessage. rewrite Hd, Hm. reflexivity. Qed.

End Store.

End ApiSpec.

(** * The properties on concrete inputs *)
Module Examples.
Import OTPModal OTPModalSpec Api ApiSpec.

#[local] Existing Instance lenient.

(** C1 on a five-digit and on a six-digit code. *)
Lemma handleVerify_requires_six_digits_witness :
  callsOf (perform (handleVerify (fun _ => Resolved))
             {| otp := "12345"; loading := false; error := "";
                countdown := 60; canResend := false |}) = []
  /\ callsOf (perform (handleVerify (fun _ => Resolved))
                {| otp := "123456"; loading := false; error := "";
                   countdown := 60; canResend := false |}) = [OnVerify "123456"].
Proof.
  split.
  - apply (proj1 (handleVerify_requires_six_digits (fun _ => Resolved)
                    {| otp := "12345"; loading := false; error := "";
                       countdown := 60; canResend := false |})).
    cbn. lia.
  - apply (proj2 (handleVerify_requires_six_digits (fun _ => Resolved)
                    {| otp := "123456"; loading := false; error := "";
                       countdown := 60; canResend := false |})).
    reflexivity.
Defined.

(** C2 fails on an edit with seven digits: after a rejected verification
    the error stays on screen. *)
Lemma edit_with_seven_digits_keeps_error :
  exists c : Component,
    run "agent@example.com" "signup"
      [Change "123456"; ClickVerify; VerifySettled (Rejected (Error ""));
       Change "1234567"] (mount true) = Some c
    /\ error (state c) = "Invalid OTP. Please try again."
    /\ error (state c) <> "".
Proof.
  eexists. split; [vm_compute; reflexivity|]. split; [reflexivity|discriminate].
Qed.

Lemma handleOTPChange_effect_witness :
  otp (stateOf (perform (fun r => handleOTPChange r "12a-34")
                  {| otp := "1"; loading := false; error := "Invalid OTP";
                     countdown := 60; canResend := false |})) = "1234"
  /\ error (stateOf (perform (fun r => handleOTPChange r "12a-34")
                      {| otp := "1"; loading := false; error := "Invalid OTP";
                         countdown := 60; canResend := false |})) = "".
Proof.
  pose proof (handleOTPChange_effect
                {| otp := "1"; loading := false; error := "Invalid OTP";
                   countdown := 60; canResend := false |} "12a-34") as H.
  cbv zeta in H. destruct H as (_ & H & _).
  apply H. cbn. lia.
Defined.

(** C3 on the first opening after a mount, and on a reopening after the
    countdown ran out and a resend failed while the modal was closed. *)
Lemma open_yields_fresh_countdown_witness :
  (reachable "agent@example.com" "signup" (mount false)
   /\ step "agent@example.com" "signup" Open (mount false) =
        Some (setIsOpen true (mount false))
   /\ countdown (state (setIsOpen true (mount false))) = 60
   /\ canResend (state (setIsOpen true (mount false))) = false)
  /\ (let c := {| isOpen := true;
                  state := {| otp := "12"; loading := true; error := "";
                              countdown := 0; canResend := true |};
                  timer := None; pendingVerify := 0; pendingResend := 1 |} in
      exists c1 c2 c3 : Component,
        step "agent@example.com" "signup" Close c = Some c1
        /\ run "agent@example.com" "signup"
             [ResendSettled (Rejected (Error "Too many requests"))] c1 = Some c2
        /\ step "agent@example.com" "signup" Open c2 = Some c3
        /\ countdown (state c3) = 60 /\ canResend (state c3) = false).
Proof.
  split.
  - split; [constructor|]. split; [reflexivity|].
    apply (proj1 (open_yields_fresh_countdown "agent@example.com" "signup")
             (mount false)); [constructor | reflexivity].
  - cbv zeta. do 3 eexists.
    assert (forall A B C D : Prop, A -> B -> C -> (A -> B -> C -> D) ->
                                   A /\ B /\ C /\ D) as Hchain by tauto.
    apply Hchain.
    + vm_compute. reflexivity.
    + vm_compute. reflexivity.
    + vm_compute. reflexivity.
    + intros Hclose Hrun Hopen.
      exact (proj2 (open_yields_fresh_countdown "agent@example.com" "signup")
               _ _ _ _ _ Hclose Hrun Hopen).
Defined.

(** C4 on a resend that fails with a message. *)
Lemma handleResend_outcome_witness :
  error (stateOf (perform (handleResend "agent@example.com" "signup"
                             (fun _ _ => Rejected (Error "Too many requests")))
                    {| otp := "12"; loading := false; error := "";
                       countdown := 0; canResend := true |})) = "Too many requests".
Proof.
  pose proof (handleResend_outcome "agent@example.com" "signup"
                (fun _ _ => Rejected (Error "Too many requests"))
                {| otp := "12"; loading := false; error := "";
                   countdown := 0; canResend := true |}) as H.
  cbv zeta in H. destruct H as (_ & H & _).
  destruct (H (Error "Too many requests") eq_refl) as (_ & Hmsg & _).
  apply Hmsg. discriminate.
Defined.

(** The modal after its countdown ran out. *)
Lemma countdown_ran_out :
  run "agent@example.com" "signup" (repeat Tick 60) (mount true) =
    Some {| isOpen := true;
            state := {| otp := ""; loading := false; error := "";
                        countdown := 0; canResend := true |};
            timer := None; pendingVerify := 0; pendingResend := 0 |}.
Proof. vm_compute. reflexivity. Qed.

(** C5 fails at a close: closing the modal, not reopening it, is what
    disables resend again. *)
Lemma close_disables_resend :
  ~ (forall (c c' : Component) (e : event),
       reachable "agent@example.com" "signup" c ->
       step "agent@example.com" "signup" e c = Some c' ->
       canResend (state c) = true -> canResend (state c') = false ->
       e = Open \/ e = ResendSettled Resolved).
Proof.
  intros Hall.
  pose proof (run_reachable "agent@example.com" "signup" _ _ _
                (reachable_mount _ _ true) countdown_ran_out) as Hreach.
  destruct (Hall _ _ Close Hreach eq_refl eq_refl eq_refl); discriminate.
Qed.

(** C5 on the state in which the countdown ran out. *)
Lemma resend_enabled_iff_countdown_zero_witness :
  let c := {| isOpen := true;
              state := {| otp := ""; loading := false; error := "";
                          countdown := 0; canResend := true |};
              timer := None; pendingVerify := 0; pendingResend := 0 |} in
  reachable "agent@example.com" "signup" c
  /\ (canResend (state c) = true <-> countdown (state c) = 0).
Proof.
  cbv zeta.
  pose proof (run_reachable "agent@example.com" "signup" _ _ _
                (reachable_mount _ _ true) countdown_ran_out) as Hreach.
  split; [exact Hreach|].
  apply (resend_enabled_iff_countdown_zero "agent@example.com" "signup" _ Hreach).
Defined.



(** C7: the failing input, from an empty jar. *)
Lemma isAuthenticated_false_after_save_witness :
  isAuthenticated
    (saveAuthData development (fun _ => "null")
       {| access := "=A"; refresh := "B"; user := None |} (emptyWorld 0)) = false.
Proof.
  apply (isAuthenticated_false_after_save development (fun _ => "null") (emptyWorld 0)).
  constructor.
Defined.

(** C8 fails on a stored text that does not parse: the parse failure
    reaches the caller. *)
Lemma getUserData_throws_on_invalid :
  parseLiteral "{" = Throws (SyntaxError "Unexpected token")
  /\ getUserData parseLiteral (localStorage_setItem "user" "{" (emptyWorld 0)) =
       Throws (SyntaxError "Unexpected token")
  /\ getUserData parseLiteral (localStorage_setItem "user" "{" (emptyWorld 0)) <>
       Returns JNull.
Proof.
  assert (H : getUserData parseLiteral
                (localStorage_setItem "user" "{" (emptyWorld 0)) =
              Throws (SyntaxError "Unexpected token")).
  { unfold getUserData. cbn [localStorage localStorage_setItem emptyWorld].
    rewrite lookup_insert_eq. reflexivity. }
  split; [reflexivity|]. split; [exact H | rewrite H; discriminate].
Qed.

Lemma getUserData_outcome_witness :
  getUserData parseLiteral (localStorage_setItem "user" "true" (emptyWorld 0)) =
    Returns (JBool true).
Proof.
  pose proof (getUserData_outcome parseLiteral
                (localStorage_setItem "user" "true" (emptyWorld 0)))
    as (_ & _ & H).
  destruct (H "true") as (_ & Hvalid & _).
  - cbn [localStorage localStorage_setItem emptyWorld]. apply lookup_insert_eq.
  - discriminate.
  - apply Hvalid. reflexivity.
Defined.

(** C9 fails on a value that ends in a space: it has no [=] and no [;],
    and still does not come back. *)
Lemma getCookie_drops_trailing_space :
  ~ (getCookie "access_token"
       (setCookie development "access_token" "A " 7 (emptyWorld 0)) = Str "A "
     <-> contains "=" "A " = false /\ contains ";" "A " = false).
Proof.
  intros [_ H]. specialize (H (conj eq_refl eq_refl)).
  vm_compute in H. discriminate H.
Qed.

(** C9 on a token with base64 padding. *)
Lemma getCookie_reads_back_witness :
  getCookie "access_token"
    (setCookie development "access_token" "YWJjZA==" 7 (emptyWorld 0)) =
    Str "YWJjZA".
Proof.
  pose proof (getCookie_reads_back development (fun _ => "null")
                "access_token" "YWJjZA==" 7 (emptyWorld 0)
                {| access := "YWJjZA=="; refresh := "B"; user := None |}
                {| method := None; body := None; headers := ∅ |}) as H.
  destruct H as (_ & _ & H & _).
  - constructor.
  - reflexivity.
  - lia.
  - exact (H eq_refl).
Defined.

(** C10 on a jar that holds another cookie and a stored profile. *)
Lemma saveAuthData_without_user_witness :
  let w := {| cookies := [("theme", "dark")];
              localStorage := {[ "user" := "true" ]}; now := 0 |} in
  localStorage
    (saveAuthData development (fun _ => "null")
       {| access := "A"; refresh := "B"; user := None |} w) = localStorage w.
Proof.
  cbv zeta.
  apply (saveAuthData_without_user development parseLiteral (fun _ => "null")
           {| access := "A"; refresh := "B"; user := None |}).
  reflexivity.
Defined.

End Examples.

(** * More on the OTP modal *)
Module OTPModalMore.
Import OTPModal OTPModalCalls OTPModalSpec.

(** The effect touches the countdown cells only. *)
Lemma runEffect_keeps (c : Component) :
  isOpen (runEffect c) = isOpen c
  /\ otp (state (runEffect c)) = otp (state c)
  /\ loading (state (runEffect c)) = loading (state c)
  /\ error (state (runEffect c)) = error (state c)
  /\ pendingVerify (runEffect c) = pendingVerify c
  /\ pendingResend (runEffect c) = pendingResend c.
Proof.
  unfold runEffect, countdownEffect.
  destruct (isOpen c); cbn; [destruct (0 <? countdown (state c)); cbn|];
    repeat split; reflexivity.
Qed.

Lemma commit_keeps (last : Z * bool) (c : Component) :
  isOpen (commit last c) = isOpen c
  /\ otp (state (commit last c)) = otp (state c)
  /\ loading (state (commit last c)) = loading (state c)
  /\ error (state (commit last c)) = error (state c)
  /\ pendingVerify (commit last c) = pendingVerify c
  /\ pendingResend (commit last c) = pendingResend c.
Proof.
  rewrite commit_spec. destruct (deps_eqb (deps c) last);
    [repeat split; reflexivity|].
  apply runEffect_keeps.
Qed.

Ltac cells :=
  cbv [perform mbind mret Handler_bind Handler_ret andThen pure setOtp
       setLoading setError setCountdown setCanResend invoke stateOf callsOf
       valueOf fst snd];
  cbn [otp loading error countdown canResend app];
  cbv [countCalls isOnVerify isResendOTP]; simpl.

Section More.
Variables (email purpose : string).

(** The cells other than the countdown after each event. *)
Lemma step_cells (e : event) (c c' : Component) :
  step email purpose e c = Some c' ->
  otp (state c') =
    otp (match e with
         | Change v => stateOf (perform (fun r => handleOTPChange r v) (state c))
         | ResendSettled Resolved => initialState
         | _ => state c
         end)
  /\ loading (state c') =
       match e with
       | Open | Close | Tick | Change _ => loading (state c)
       | KeyPress k =>
           loading (stateOf (perform (fun r => handleKeyPress r k) (state c)))
       | ClickVerify | ClickResend => true
       | VerifySettled _ | ResendSettled _ => false
       end
  /\ pendingVerify c' =
       match e with
       | KeyPress k =>
           (pendingVerify c
            + countCalls isOnVerify
                (callsOf (perform (fun r => handleKeyPress r k) (state c))))%nat
       | ClickVerify => S (pendingVerify c)
       | VerifySettled _ => Nat.pred (pendingVerify c)
       | _ => pendingVerify c
       end
  /\ pendingResend c' =
       match e with
       | ClickResend => S (pendingResend c)
       | ResendSettled _ => Nat.pred (pendingResend c)
       | _ => pendingResend c
       end.
Proof.
  intros Hstep. destruct e; cbn [step] in Hstep.
  - destruct (isOpen c); [discriminate|]. injection Hstep as <-.
    unfold setIsOpen.
    match goal with |- context [commit ?l ?x] =>
      destruct (commit_keeps l x) as (_ & -> & -> & _ & -> & ->) end. auto.
  - destruct (isOpen c); [|discriminate]. injection Hstep as <-.
    unfold setIsOpen.
    match goal with |- context [commit ?l ?x] =>
      destruct (commit_keeps l x) as (_ & -> & -> & _ & -> & ->) end. auto.
  - destruct (timer c); [|discriminate]. injection Hstep as <-.
    unfold fireTimer.
    match goal with |- context [commit ?l ?x] =>
      destruct (commit_keeps l x) as (_ & -> & -> & _ & -> & ->) end. auto.
  - destruct (_ && _); [|discriminate]. injection Hstep as <-.
    unfold dispatch.
    match goal with |- context [commit ?l ?x] =>
      destruct (commit_keeps l x) as (_ & -> & -> & _ & -> & ->) end.
    cbn [state pendingVerify pendingResend].
    unfold perform, handleOTPChange. cbv beta zeta.
    destruct (_ <=? _)%nat; cells; rewrite ?Nat.add_0_r; auto.
  - destruct (_ && _); [|discriminate]. injection Hstep as <-.
    unfold dispatch.
    match goal with |- context [commit ?l ?x] =>
      destruct (commit_keeps l x) as (_ & -> & -> & _ & -> & ->) end.
    cbn [state pendingVerify pendingResend].
    unfold perform, handleKeyPress, handleVerify_begin. cbv beta.
    destruct (_ && _); [destruct (negb _)|]; cells; rewrite ?Nat.add_0_r; auto.
  - destruct (isOpen c && _) eqn:Hg; [|discriminate]. injection Hstep as <-.
    apply andb_prop in Hg as [_ Hg]. apply negb_true_iff, orb_false_elim in Hg.
    destruct Hg as [_ Hlen]. unfold dispatch.
    match goal with |- context [commit ?l ?x] =>
      destruct (commit_keeps l x) as (_ & -> & -> & _ & -> & ->) end.
    cbn [state pendingVerify pendingResend].
    unfold perform, handleVerify_begin. cbv beta. rewrite Hlen. cells.
    repeat split; lia.
  - destruct (_ <? _)%nat; [|discriminate]. injection Hstep as <-.
    unfold dispatch.
    match goal with |- context [commit ?l ?x] =>
      destruct (commit_keeps l x) as (_ & -> & -> & _ & -> & ->) end.
    cbn [state pendingVerify pendingResend settleVerify].
    unfold perform, handleVerify_resume. cbv beta.
    destruct o; cells; rewrite ?Nat.add_0_r; auto.
  - destruct (_ && _); [|discriminate]. injection Hstep as <-.
    unfold dispatch.
    match goal with |- context [commit ?l ?x] =>
      destruct (commit_keeps l x) as (_ & -> & -> & _ & -> & ->) end.
    cbn [state pendingVerify pendingResend].
    unfold perform, handleResend_begin. cbv beta. cells. repeat split; lia.
  - destruct (_ <? _)%nat; [|discriminate]. injection Hstep as <-.
    unfold dispatch.
    match goal with |- context [commit ?l ?x] =>
      destruct (commit_keeps l x) as (_ & -> & -> & _ & -> & ->) end.
    cbn [state pendingVerify pendingResend settleResend].
    unfold perform, handleResend_resume. cbv beta.
    destruct o; cells; rewrite ?Nat.add_0_r; auto.
Qed.

Lemma step_error_open_close (e : event) (c c' : Component) :
  e = Open \/ e = Close \/ e = Tick ->
  step email purpose e c = Some c' -> error (state c') = error (state c).
Proof.
  intros [-> | [-> | ->]]; cbn [step].
  - destruct (isOpen c); [discriminate|]. intros [= <-]. unfold setIsOpen.
    match goal with |- context [commit ?l ?x] =>
      destruct (commit_keeps l x) as (_ & _ & _ & -> & _) end. reflexivity.
  - destruct (isOpen c); [|discriminate]. intros [= <-]. unfold setIsOpen.
    match goal with |- context [commit ?l ?x] =>
      destruct (commit_keeps l x) as (_ & _ & _ & -> & _) end. reflexivity.
  - destruct (timer c); [|discriminate]. intros [= <-]. unfold fireTimer.
    match goal with |- context [commit ?l ?x] =>
      destruct (commit_keeps l x) as (_ & _ & _ & -> & _) end. reflexivity.
Qed.

(** The Enter key either starts a verification or does nothing. *)
Lemma handleKeyPress_cases (r : State) (k : string) :
  (String.eqb k "Enter" && (String.length (otp r) =? 6)%nat = true
   /\ loading (stateOf (perform (fun r => handleKeyPress r k) r)) = true
   /\ callsOf (perform (fun r => handleKeyPress r k) r) = [OnVerify (otp r)])
  \/ (String.eqb k "Enter" && (String.length (otp r) =? 6)%nat = false
      /\ stateOf (perform (fun r => handleKeyPress r k) r) = r
      /\ callsOf (perform (fun r => handleKeyPress r k) r) = []).
Proof.
  unfold perform, handleKeyPress, handleVerify_begin.
  destruct (String.eqb k "Enter" && (String.length (otp r) =? 6)%nat) eqn:Hk.
  - left. apply andb_prop in Hk as [_ Hlen]. rewrite Hlen. cells. auto.
  - right. cells. auto.
Qed.

Lemma countCalls_one (code : string) : countCalls isOnVerify [OnVerify code] = 1%nat.
Proof. reflexivity. Qed.

Lemma countCalls_none (p : call -> bool) : countCalls p [] = 0%nat.
Proof. reflexivity. Qed.

(** An edit keeps the code a run of at most six digits. *)
Lemma handleOTPChange_digits (r : State) (v : string) :
  allDigits (otp r) = true -> (String.length (otp r) <= 6)%nat ->
  allDigits (otp (stateOf (perform (fun r => handleOTPChange r v) r))) = true
  /\ (String.length (otp (stateOf (perform (fun r => handleOTPChange r v) r))) <= 6)%nat.
Proof.
  intros Hd Hl. unfold perform, handleOTPChange. cbv beta zeta.
  destruct (String.length (removeNonDigits v) <=? 6)%nat eqn:Hlen; cells.
  - apply Nat.leb_le in Hlen. split; [apply removeNonDigits_allDigits | exact Hlen].
  - auto.
Qed.

(** The code of a reachable state. *)
Lemma reachable_otp_digits (c : Component) :
  reachable email purpose c ->
  allDigits (otp (state c)) = true /\ (String.length (otp (state c)) <= 6)%nat.
Proof.
  induction 1 as [open | c c' e _ IH Hstep].
  - destruct open; [rewrite mount_open | rewrite mount_closed]; cbn;
      (split; [reflexivity | lia]).
  - destruct (step_cells e c c' Hstep) as (Hotp & _). rewrite Hotp.
    destruct e as [| | |v|k| |o| |o]; try exact IH.
    + destruct IH as [Hd Hl]. exact (handleOTPChange_digits (state c) v Hd Hl).
    + destruct o; [cbn; split; [reflexivity | lia] | exact IH].
Qed.

(** X1. Whatever happens to a mounted modal, in whatever order, the code
    field holds digits only, and at most six of them. *)
Theorem otp_stays_digits (open : bool) (es : list event) (c : Component) :
  run email purpose es (mount open) = Some c ->
  allDigits (otp (state c)) = true /\ (String.length (otp (state c)) <= 6)%nat.
Proof.
  intros Hrun. apply reachable_otp_digits.
  apply (run_reachable email purpose es (mount open) c); [|exact Hrun].
  apply reachable_mount.
Qed.

(** X2. At most one request is in flight at any time, and [loading] is
    true exactly while one is. *)
Theorem one_request_in_flight (c : Component) :
  reachable email purpose c ->
  (pendingVerify c + pendingResend c <= 1)%nat
  /\ (loading (state c) = true <-> (pendingVerify c + pendingResend c = 1)%nat).
Proof.
  induction 1 as [open | c c' e _ [Hle Hiff] Hstep].
  - destruct open; [rewrite mount_open | rewrite mount_closed]; cbn;
      split; try lia; split; intros; (discriminate || lia).
  - assert (Hidle : loading (state c) = false ->
                    (pendingVerify c + pendingResend c = 0)%nat).
    { intros Hl. destruct (Nat.eq_dec (pendingVerify c + pendingResend c)%nat 1%nat) as [H1|H1];
        [apply Hiff in H1; congruence | lia]. }
    destruct (step_cells e c c' Hstep) as (_ & Hl & Hpv & Hpr).
    rewrite Hl, Hpv, Hpr. clear Hl Hpv Hpr.
    destruct e as [| | |v|k| |o| |o]; cbn [step] in Hstep; try (split; assumption).
    + destruct (isOpen c && negb (loading (state c))) eqn:Hg; [|discriminate].
      apply andb_prop in Hg as [_ Hg]. apply negb_true_iff in Hg.
      specialize (Hidle Hg).
      destruct (handleKeyPress_cases (state c) k) as [(_ & -> & ->) | (_ & -> & ->)];
        rewrite ?countCalls_one, ?countCalls_none, ?Hg;
        (split; [lia|]); split; intros; (congruence || lia).
    + destruct (isOpen c && _) eqn:Hg; [|discriminate].
      apply andb_prop in Hg as [_ Hg]. apply negb_true_iff, orb_false_elim in Hg.
      destruct Hg as [Hg _]. specialize (Hidle Hg).
      split; [lia|]. split; intros; (reflexivity || lia).
    + destruct (0 <? pendingVerify c)%nat eqn:Hg; [|discriminate].
      apply Nat.ltb_lt in Hg. split; [lia|]. split; intros; (discriminate || lia).
    + destruct (isOpen c && canResend (state c) && negb (loading (state c))) eqn:Hg;
        [|discriminate].
      apply andb_prop in Hg as [_ Hg]. apply negb_true_iff in Hg.
      specialize (Hidle Hg).
      split; [lia|]. split; intros; (reflexivity || lia).
    + destruct (0 <? pendingResend c)%nat eqn:Hg; [|discriminate].
      apply Nat.ltb_lt in Hg. split; [lia|]. split; intros; (discriminate || lia).
Qed.

(** X3. An event makes at most one call, and only while nothing is in
    flight: [onVerify] receives the code of the field, which then has
    exactly six digits; [resendOTP] is asked for this email and purpose and
    only once the countdown is at 0. *)
Theorem calls_are_well_formed (e : event) (c c' : Component) :
  reachable email purpose c -> step email purpose e c = Some c' ->
  (length (emitted email purpose e c) <= 1)%nat
  /\ forall x : call,
       In x (emitted email purpose e c) ->
       loading (state c) = false
       /\ match x with
          | OnVerify code =>
              code = otp (state c) /\ String.length code = 6%nat
              /\ allDigits code = true
          | ResendOTP em pu =>
              em = email /\ pu = purpose /\ countdown (state c) = 0
          end.
Proof.
  intros Hreach Hstep.
  destruct (reachable_otp_digits c Hreach) as [Hdigits _].
  destruct (reachable_settled email purpose c Hreach) as (Hiff & _).
  destruct e as [| | |v|k| |o| |o]; cbn [step] in Hstep; cbn [emitted];
    try (split; [cbn; lia | intros x []]).
  - unfold perform, handleOTPChange. cbv beta zeta.
    destruct (_ <=? _)%nat; cells; (split; [lia | intros x []]).
  - destruct (isOpen c && negb (loading (state c))) eqn:Hg; [|discriminate].
    apply andb_prop in Hg as [_ Hg]. apply negb_true_iff in Hg.
    destruct (handleKeyPress_cases (state c) k) as [(Hk & _ & ->) | (_ & _ & ->)].
    + apply andb_prop in Hk as [_ Hlen]. apply Nat.eqb_eq in Hlen.
      split; [cbn; lia|]. intros x [<- | []]. auto.
    + split; [cbn; lia | intros x []].
  - destruct (isOpen c && _) eqn:Hg; [|discriminate].
    apply andb_prop in Hg as [_ Hg]. apply negb_true_iff, orb_false_elim in Hg.
    destruct Hg as [Hg Hlen]. apply negb_false_iff, Nat.eqb_eq in Hlen.
    unfold perform, handleVerify_begin.
    replace (negb (String.length (otp (state c)) =? 6)%nat) with false
      by (symmetry; apply negb_false_iff, Nat.eqb_eq, Hlen).
    cells. split; [lia|]. intros x [<- | []]. auto.
  - unfold perform, handleVerify_resume. cbv beta.
    destruct o; cells; (split; [lia | intros x []]).
  - destruct (isOpen c && canResend (state c) && negb (loading (state c))) eqn:Hg;
      [|discriminate].
    apply andb_prop in Hg as [Hg Hl]. apply andb_prop in Hg as [_ Hcr].
    apply negb_true_iff in Hl.
    unfold perform, handleResend_begin. cells. split; [lia|].
    intros x [<- | []]. repeat split; auto. apply Hiff, Hcr.
  - unfold perform, handleResend_resume. cbv beta.
    destruct o; cells; (split; [lia | intros x []]).
Qed.

Lemma ticks_settled (k : nat) (c : Component) :
  settled c -> isOpen c = true -> Z.of_nat k <= countdown (state c) ->
  exists c' : Component,
    run email purpose (repeat Tick k) c = Some c'
    /\ settled c' /\ isOpen c' = true
    /\ countdown (state c') = countdown (state c) - Z.of_nat k
    /\ otp (state c') = otp (state c)
    /\ loading (state c') = loading (state c)
    /\ error (state c') = error (state c).
Proof.
  revert c. induction k as [|k IH]; intros c Hc Ho Hk.
  - exists c. cbn [repeat run].
    refine (conj eq_refl (conj Hc (conj Ho (conj _ (conj eq_refl (conj eq_refl eq_refl)))))).
    cbn. lia.
  - pose proof Hc as (_ & _ & _ & Htimer). specialize (Htimer Ho).
    assert (Hpos : 0 < countdown (state c)) by lia.
    replace (0 <? countdown (state c)) with true in Htimer
      by (symmetry; apply Z.ltb_lt; exact Hpos).
    assert (Hstep : step email purpose Tick c =
                    Some (fireTimer (countdown (state c) - 1) c))
      by (cbn [step]; rewrite Htimer; reflexivity).
    pose proof (step_settled email purpose Tick c _ Hc Hstep) as Hc1.
    pose proof (step_cells Tick c _ Hstep) as (Hotp & Hload & _).
    pose proof (step_error_open_close Tick c _ (or_intror (or_intror eq_refl)) Hstep)
      as Herr.
    pose proof (step_countdown email purpose Tick c _ Hc Hstep) as (_ & _ & Hcd).
    assert (Ho1 : isOpen (fireTimer (countdown (state c) - 1) c) = true).
    { unfold fireTimer.
      match goal with |- context [commit ?l ?x] =>
        destruct (commit_keeps l x) as (-> & _) end. exact Ho. }
    destruct (IH _ Hc1 Ho1) as (c' & Hrun & Hc' & Ho' & Hcd' & Hotp' & Hload' & Herr').
    { rewrite Hcd. lia. }
    exists c'. cbn [repeat run]. rewrite Hstep.
    refine (conj Hrun (conj Hc' (conj Ho' (conj _ (conj _ (conj _ _)))))); try congruence.
    rewrite Hcd', Hcd. lia.
Qed.

(** X4. While the modal stays open the timer can fire exactly as many
    times as the countdown says: after [k] ticks the countdown is lower by
    [k], the code, the error and the busy flag are as they were, resend is
    enabled exactly when the countdown has reached 0, and then no further
    tick can happen. *)
Theorem ticks_count_down (k : nat) (c : Component) :
  reachable email purpose c -> isOpen c = true ->
  Z.of_nat k <= countdown (state c) ->
  exists c' : Component,
    run email purpose (repeat Tick k) c = Some c'
    /\ countdown (state c') = countdown (state c) - Z.of_nat k
    /\ otp (state c') = otp (state c)
    /\ loading (state c') = loading (state c)
    /\ error (state c') = error (state c)
    /\ (canResend (state c') = true <-> Z.of_nat k = countdown (state c))
    /\ (Z.of_nat k = countdown (state c) -> step email purpose Tick c' = None).
Proof.
  intros Hreach Ho Hk.
  destruct (ticks_settled k c (reachable_settled email purpose c Hreach) Ho Hk)
    as (c' & Hrun & Hc' & Ho' & Hcd & Hotp & Hload & Herr).
  exists c'. destruct Hc' as (Hiff & _ & _ & Htimer).
  repeat split; auto.
  - intros Hon. apply Hiff in Hon. lia.
  - intros Hk'. apply Hiff. lia.
  - intros Hk'. cbn [step]. rewrite (Htimer Ho').
    replace (0 <? countdown (state c')) with false
      by (symmetry; apply Z.ltb_ge; lia).
    reflexivity.
Qed.

(** X5. The timer fires only while the modal is open and the countdown is
    positive; when it fires the countdown drops by exactly one and stays
    non-negative. *)
Theorem timer_runs_only_while_counting (c : Component) :
  reachable email purpose c ->
  (step email purpose Tick c = None <->
   isOpen c = false \/ countdown (state c) = 0)
  /\ forall c' : Component,
       step email purpose Tick c = Some c' ->
       countdown (state c') = countdown (state c) - 1
       /\ 0 <= countdown (state c') /\ isOpen c' = true.
Proof.
  intros Hreach. pose proof (reachable_settled email purpose c Hreach) as Hc.
  pose proof Hc as (_ & Hrange & Hclosed & Hopen). split.
  - cbn [step]. destruct (isOpen c) eqn:Ho.
    + rewrite (Hopen eq_refl). destruct (0 <? countdown (state c)) eqn:Hpos.
      * apply Z.ltb_lt in Hpos. split; [discriminate | intros [H|H]; [discriminate | lia]].
      * apply Z.ltb_ge in Hpos. split; [intros _; right; lia | reflexivity].
    + destruct (Hclosed eq_refl) as [_ ->]. split; auto.
  - intros c' Hstep.
    pose proof (step_countdown email purpose Tick c c' Hc Hstep) as (Ho & Hpos & Hcd).
    pose proof (step_settled email purpose Tick c c' Hc Hstep) as (_ & Hrange' & _).
    repeat split; [exact Hcd | lia |].
    cbn [step] in Hstep. destruct (timer c); [|discriminate]. injection Hstep as <-.
    unfold fireTimer.
    match goal with |- context [commit ?l ?x] =>
      destruct (commit_keeps l x) as (-> & _) end. exact Ho.
Qed.

(** X6. Closing the modal and opening it again resets the countdown only:
    the code typed so far, the error shown and the busy flag come back as
    they were. *)
Theorem reopen_keeps_code_and_error (c c1 c2 : Component) :
  step email purpose Close c = Some c1 ->
  step email purpose Open c1 = Some c2 ->
  otp (state c2) = otp (state c)
  /\ error (state c2) = error (state c)
  /\ loading (state c2) = loading (state c)
  /\ countdown (state c2) = 60 /\ canResend (state c2) = false.
Proof.
  intros Hclose Hopen.
  destruct (step_cells Close c c1 Hclose) as (Hotp1 & Hl1 & _).
  destruct (step_cells Open c1 c2 Hopen) as (Hotp2 & Hl2 & _).
  pose proof (step_error_open_close Close c c1 (or_intror (or_introl eq_refl)) Hclose).
  pose proof (step_error_open_close Open c1 c2 (or_introl eq_refl) Hopen).
  destruct (open_from_settled email purpose c1 c2
              (close_settled email purpose c c1 Hclose) Hopen) as (_ & Hcd & Hcr).
  repeat split; congruence.
Qed.

(** X7. A verification that fails after the modal was closed still lands:
    when the modal is opened again it shows that failure's message (or the
    fixed text) and is no longer busy. *)
Theorem late_rejection_shows_on_reopen (c : Component) (err : js_error) :
  isOpen c = true -> (0 < pendingVerify c)%nat ->
  exists c' : Component,
    run email purpose [Close; VerifySettled (Rejected err); Open] c = Some c'
    /\ isOpen c' = true
    /\ error (state c') = or_else (message err) "Invalid OTP. Please try again."
    /\ loading (state c') = false
    /\ otp (state c') = otp (state c).
Proof.
  intros Ho Hpending.
  assert (Hclose : step email purpose Close c = Some (setIsOpen false c))
    by (cbn [step]; rewrite Ho; reflexivity).
  destruct (step_cells Close c _ Hclose) as (Hotp1 & _ & Hpv1 & _).
  assert (Ho1 : isOpen (setIsOpen false c) = false).
  { unfold setIsOpen.
    match goal with |- context [commit ?l ?x] =>
      destruct (commit_keeps l x) as (-> & _) end. reflexivity. }
  set (c1 := setIsOpen false c) in *.
  assert (Hlate : step email purpose (VerifySettled (Rejected err)) c1 =
                  Some (dispatch (fun _ => handleVerify_resume (Rejected err))
                          (settleVerify c1))).
  { cbn [step]. rewrite Hpv1.
    replace (0 <? pendingVerify c)%nat with true
      by (symmetry; apply Nat.ltb_lt; exact Hpending).
    reflexivity. }
  set (c2 := dispatch (fun _ => handleVerify_resume (Rejected err)) (settleVerify c1)) in *.
  destruct (step_cells _ c1 c2 Hlate) as (Hotp2 & Hl2 & _).
  assert (Ho2 : isOpen c2 = false /\
                error (state c2) = or_else (message err) "Invalid OTP. Please try again.").
  { unfold c2, dispatch.
    match goal with |- context [commit ?l ?x] =>
      destruct (commit_keeps l x) as (-> & _ & _ & -> & _) end.
    cbn [isOpen settleVerify]. split; [exact Ho1 | reflexivity]. }
  destruct Ho2 as [Ho2 Herr2].
  assert (Hopen : step email purpose Open c2 = Some (setIsOpen true c2))
    by (cbn [step]; rewrite Ho2; reflexivity).
  destruct (step_cells Open c2 _ Hopen) as (Hotp3 & Hl3 & _).
  pose proof (step_error_open_close Open c2 _ (or_introl eq_refl) Hopen) as Herr3.
  exists (setIsOpen true c2). cbn [run]. rewrite Hclose, Hlate, Hopen.
  repeat split; try congruence.
  unfold setIsOpen.
  match goal with |- context [commit ?l ?x] =>
    destruct (commit_keeps l x) as (-> & _) end. reflexivity.
Qed.

End More.

End OTPModalMore.

(** * More on the credential store and the HTTP client wrapper *)
Module ApiMore.
Import Api ApiSpec.

Ltac strs :=
  rewrite ?append_nil_l, ?append_cons;
  cbn [split join stripStart stripEnd breakAt contains String.length].

(** X8. Whatever the cookies of the page are, a value that [getCookie]
    returns holds neither [=] nor [;]. *)
Theorem getCookie_value_is_bare (name : string) (w : World) (s : string) :
  getCookie name w = Str s ->
  contains "=" s = false /\ contains ";" s = false.
Proof.
  unfold getCookie. cbv zeta.
  apply findCookie_bare, split_pieces_free.
Qed.

Lemma storeCookie_twice (name v1 v2 : string) (jar : list (string * string)) :
  storeCookie name v2 (storeCookie name v1 jar) = storeCookie name v2 jar.
Proof.
  induction jar as [|[n v] jar IH]; cbn [storeCookie].
  - rewrite String.eqb_refl. reflexivity.
  - destruct (String.eqb n name) eqn:Hn; cbn [storeCookie].
    + rewrite String.eqb_refl. reflexivity.
    + rewrite Hn, IH. reflexivity.
Qed.

Lemma removeCookie_twice (name : string) (jar : list (string * string)) :
  removeCookie name (removeCookie name jar) = removeCookie name jar.
Proof.
  induction jar as [|[n v] jar IH]; cbn [removeCookie]; [reflexivity|].
  destruct (String.eqb n name) eqn:Hn; cbn [removeCookie]; [exact IH|].
  rewrite Hn, IH. reflexivity.
Qed.

Lemma removeCookie_swap (a b : string) (jar : list (string * string)) :
  removeCookie a (removeCookie b jar) = removeCookie b (removeCookie a jar).
Proof.
  induction jar as [|[n v] jar IH]; cbn [removeCookie]; [reflexivity|].
  destruct (String.eqb n b) eqn:Hb, (String.eqb n a) eqn:Ha; cbn [removeCookie];
    rewrite ?Ha, ?Hb, IH; reflexivity.
Qed.

Section StoreMore.
Context {N : JsNumber}.
Context {B : Browser}.
Variable env : Env.
Variable JSON_parse : string -> result json.
Variable JSON_stringify : json -> string.

(** X9. Deleting a cookie makes it read as [null], leaves every other
    cookie reading as before and leaves the local storage alone. *)
Theorem deleteCookie_removes (name : string) (w : World) :
  jarOk (cookies w) -> plainName name = true -> 0 <= now w ->
  getCookie name (deleteCookie name w) = Null
  /\ (forall other : string,
        other <> "" -> other <> name ->
        getCookie other (deleteCookie name w) = getCookie other w)
  /\ localStorage (deleteCookie name w) = localStorage w.
Proof.
  intros Hjar Hname Hnow. rewrite (deleteCookie_spec name w Hname Hnow).
  destruct (plainName_facts name Hname) as (Hne & _).
  refine (conj _ (conj _ eq_refl)).
  - rewrite getCookie_spec; cbn [cookies]; auto using jarOk_remove.
    rewrite lookupCookie_remove. reflexivity.
  - intros other Hother Hdiff.
    rewrite !getCookie_spec; cbn [cookies]; auto using jarOk_remove.
    rewrite lookupCookie_remove_other by exact Hdiff. reflexivity.
Qed.

(** X10. Writing a cookie twice with regular values keeps the second
    value only: the browser is left as the second write alone would leave
    it, the cookie reads back as the second value does, and cookies of
    other names read as before. *)
Theorem setCookie_overwrites (name v1 v2 : string) (d1 d2 : Z) (w : World) :
  jarOk (cookies w) -> plainName name = true ->
  regular name v1 = true -> regular name v2 = true -> 0 < d1 -> 0 < d2 ->
  setCookie env name v2 d2 (setCookie env name v1 d1 w) =
    setCookie env name v2 d2 w
  /\ getCookie name (setCookie env name v2 d2 (setCookie env name v1 d1 w)) =
       Str (readBack v2)
  /\ (forall other : string,
        other <> "" -> other <> name ->
        getCookie other (setCookie env name v2 d2 (setCookie env name v1 d1 w)) =
          getCookie other w).
Proof.
  intros Hjar Hname Hv1 Hv2 Hd1 Hd2.
  pose proof (setCookie_jarOk env name v1 d1 w Hname Hjar) as Hjar1.
  refine (conj _ (conj _ _)).
  - rewrite !(setCookie_spec env name) by assumption.
    cbn [cookies localStorage now]. rewrite storeCookie_twice. reflexivity.
  - apply getCookie_setCookie; assumption.
  - intros other Hother Hdiff.
    rewrite (getCookie_setCookie_other env name other v2 d2 _ Hjar1 Hname Hd2
               Hother Hdiff).
    apply getCookie_setCookie_other; assumption.
Qed.

Lemma clearAuthData_spec (w : World) :
  0 <= now w ->
  clearAuthData w =
    {| cookies := removeCookie "refresh_token"
                    (removeCookie "access_token" (cookies w));
       localStorage := delete "user" (localStorage w); now := now w |}.
Proof.
  intros Hnow. unfold clearAuthData. cbv zeta.
  rewrite (deleteCookie_spec "access_token" w) by (reflexivity || exact Hnow).
  rewrite deleteCookie_spec by (reflexivity || exact Hnow). reflexivity.
Qed.

Lemma getCookie_access_cleared (w : World) :
  jarOk (cookies w) -> 0 <= now w ->
  getCookie "access_token" (clearAuthData w) = Null.
Proof.
  intros Hjar Hnow. rewrite (clearAuthData_spec w Hnow).
  rewrite getCookie_spec; cbn [cookies]; [|auto using jarOk_remove | discriminate].
  rewrite lookupCookie_remove_other by discriminate.
  rewrite lookupCookie_remove. reflexivity.
Qed.

(** X11. After [clearAuthData] the page is not authenticated, the refresh
    token is gone as well, and no profile is read any more. *)
Theorem clearAuthData_logs_out (w : World) :
  jarOk (cookies w) -> 0 <= now w ->
  isAuthenticated (clearAuthData w) = false
  /\ getCookie "access_token" (clearAuthData w) = Null
  /\ getCookie "refresh_token" (clearAuthData w) = Null
  /\ getUserData JSON_parse (clearAuthData w) = Returns JNull.
Proof.
  intros Hjar Hnow.
  pose proof (getCookie_access_cleared w Hjar Hnow) as Ha.
  refine (conj _ (conj Ha (conj _ _))).
  - unfold isAuthenticated. cbv zeta. rewrite Ha. reflexivity.
  - rewrite (clearAuthData_spec w Hnow).
    rewrite getCookie_spec; cbn [cookies]; [|auto using jarOk_remove | discriminate].
    rewrite lookupCookie_remove. reflexivity.
  - rewrite (clearAuthData_spec w Hnow). unfold getUserData. cbn [localStorage].
    rewrite lookup_delete_eq. reflexivity.
Qed.

(** X12. [clearAuthData] touches nothing but the two token cookies and the
    stored profile, and clearing twice is clearing once. *)
Theorem clearAuthData_frame (w : World) :
  0 <= now w ->
  (forall name : string,
     name <> "access_token" -> name <> "refresh_token" ->
     lookupCookie name (cookies (clearAuthData w)) = lookupCookie name (cookies w))
  /\ (forall key : string,
        key <> "user" ->
        localStorage (clearAuthData w) !! key = localStorage w !! key)
  /\ clearAuthData (clearAuthData w) = clearAuthData w.
Proof.
  intros Hnow. rewrite (clearAuthData_spec w Hnow). refine (conj _ (conj _ _)).
  - intros name Ha Hr. cbn [cookies].
    rewrite !lookupCookie_remove_other by assumption. reflexivity.
  - intros key Hkey. cbn [localStorage]. apply lookup_delete_ne. congruence.
  - rewrite clearAuthData_spec by exact Hnow. cbn [cookies localStorage now].
    rewrite (removeCookie_swap "access_token" "refresh_token").
    rewrite !removeCookie_twice.
    rewrite delete_delete_eq. reflexivity.
Qed.

Lemma getCookie_refresh_saveAuthData (authData : AuthData) (w : World) :
  jarOk (cookies w) -> regular "refresh_token" (refresh authData) = true ->
  getCookie "refresh_token" (saveAuthData env JSON_stringify authData w) =
    Str (readBack (refresh authData)).
Proof.
  intros Hjar Hrefresh. rewrite getCookie_spec;
    [|apply saveAuthData_jarOk, Hjar | discriminate].
  rewrite saveAuthData_cookies.
  rewrite setCookie_spec by (reflexivity || assumption || lia). cbn [cookies].
  rewrite lookupCookie_store. reflexivity.
Qed.

Lemma saveAuthData_localStorage (authData : AuthData) (w : World) :
  localStorage (saveAuthData env JSON_stringify authData w) =
    match user authData with
    | Some u => if truthy u then <["user" := JSON_stringify u]> (localStorage w)
                else localStorage w
    | None => localStorage w
    end.
Proof.
  unfold saveAuthData. cbv zeta.
  destruct (user authData) as [u|]; [destruct (truthy u)|]; reflexivity.
Qed.

(** X13. A profile that [JSON.parse] reads back from its own text is the
    one [getUserData] returns after [saveAuthData]; the other keys of the
    local storage and the clock are left alone. *)
Theorem saveAuthData_profile_round_trip (authData : AuthData) (u : json)
    (w : World) :
  user authData = Some u -> truthy u = true -> JSON_stringify u <> "" ->
  JSON_parse (JSON_stringify u) = Returns u ->
  getUserData JSON_parse (saveAuthData env JSON_stringify authData w) = Returns u
  /\ (forall key : string,
        key <> "user" ->
        localStorage (saveAuthData env JSON_stringify authData w) !! key =
          localStorage w !! key)
  /\ now (saveAuthData env JSON_stringify authData w) = now w.
Proof.
  intros Hu Ht Hs Hparse. refine (conj _ (conj _ _)).
  - unfold getUserData. rewrite saveAuthData_localStorage, Hu, Ht.
    rewrite lookup_insert_eq. apply String.eqb_neq in Hs. rewrite Hs. exact Hparse.
  - intros key Hkey. rewrite saveAuthData_localStorage, Hu, Ht.
    apply lookup_insert_ne. congruence.
  - unfold saveAuthData. cbv zeta. rewrite Hu, Ht. reflexivity.
Qed.

(** X14. Saving credentials a second time, all tokens being regular,
    replaces both tokens; when the second credentials carry no profile,
    the profile of the first ones stays in the local storage and is what
    [getUserData] reads. *)
Theorem saveAuthData_again (first second : AuthData) (u : json) (w : World) :
  jarOk (cookies w) ->
  user first = Some u -> truthy u = true -> JSON_stringify u <> "" ->
  truthy_opt (user second) = false ->
  regular "access_token" (access first) = true ->
  regular "refresh_token" (refresh first) = true ->
  regular "access_token" (access second) = true ->
  regular "refresh_token" (refresh second) = true ->
  let w' := saveAuthData env JSON_stringify second
              (saveAuthData env JSON_stringify first w) in
  getCookie "access_token" w' = Str (readBack (access second))
  /\ getCookie "refresh_token" w' = Str (readBack (refresh second))
  /\ localStorage w' !! "user" = Some (JSON_stringify u)
  /\ getUserData JSON_parse w' = JSON_parse (JSON_stringify u).
Proof.
  intros Hjar Hu Ht Hs Hnone _ _ Haccess Hrefresh w'. subst w'.
  pose proof (saveAuthData_jarOk env JSON_stringify first w Hjar) as Hjar'.
  assert (Hls : localStorage (saveAuthData env JSON_stringify second
                  (saveAuthData env JSON_stringify first w)) !! "user" =
                Some (JSON_stringify u)).
  { rewrite saveAuthData_localStorage.
    destruct (user second) as [v|]; cbn [truthy_opt] in Hnone; rewrite ?Hnone;
      rewrite saveAuthData_localStorage, Hu, Ht; apply lookup_insert_eq. }
  refine (conj _ (conj _ (conj Hls _))).
  - apply getCookie_saveAuthData; assumption.
  - apply getCookie_refresh_saveAuthData; assumption.
  - unfold getUserData. rewrite Hls. apply String.eqb_neq in Hs. rewrite Hs.
    reflexivity.
Qed.

(** Every header of a request, by precedence. *)
Lemma requestHeaders_lookup (options : RequestInit) (w : World) (key : string) :
  requestHeaders options w !! key =
    match headers options !! key with
    | Some v => Some v
    | None =>
        if String.eqb key "Authorization" then
          match getCookie "access_token" w with
          | Str t => if String.eqb t "" then None else Some ("Bearer " +:+ t)
          | _ => None
          end
        else if String.eqb key "Content-Type" then Some "application/json"
        else None
    end.
Proof.
  unfold requestHeaders. cbv zeta.
  rewrite <- assoc_L by apply _.
  destruct (headers options !! key) as [v|] eqn:Hcaller.
  - apply lookup_union_Some_l. exact Hcaller.
  - rewrite (lookup_union_r _ _ _ Hcaller).
    destruct (String.eqb_spec key "Authorization") as [->|Hauth].
    + destruct (getCookie "access_token" w) as [| |t]; cbn [truthyString].
      * rewrite lookup_union_r by apply lookup_empty.
        apply lookup_singleton_ne. discriminate.
      * rewrite lookup_union_r by apply lookup_empty.
        apply lookup_singleton_ne. discriminate.
      * destruct (String.eqb t ""); cbn [negb].
        -- rewrite lookup_union_r by apply lookup_empty.
           apply lookup_singleton_ne. discriminate.
        -- apply lookup_union_Some_l, lookup_singleton_eq.
    + assert (Hnone : (match getCookie "access_token" w with
                       | Str t => if truthyString (getCookie "access_token" w)
                                  then {[ "Authorization" := "Bearer " +:+ t ]}
                                  else ∅
                       | _ => ∅
                       end : gmap string string) !! key = None).
      { destruct (getCookie "access_token" w) as [| |t];
          try apply lookup_empty.
        destruct (truthyString (Str t)); [|apply lookup_empty].
        apply lookup_singleton_ne. congruence. }
      rewrite (lookup_union_r _ _ _ Hnone).
      destruct (String.eqb_spec key "Content-Type") as [->|Hct].
      * apply lookup_singleton_eq.
      * apply lookup_singleton_ne. congruence.
Qed.

(** X15. The headers of a request: a header the caller passes is sent as
    passed, also in place of [Content-Type] and [Authorization]; without
    one, [Content-Type] is [application/json] and [Authorization] is the
    bearer of the access token when [getCookie] gives a non-empty one and
    is absent otherwise; no other header is added. *)
Theorem requestHeaders_precedence (options : RequestInit) (w : World) :
  (forall key v, headers options !! key = Some v ->
     requestHeaders options w !! key = Some v)
  /\ (headers options !! "Content-Type" = None ->
      requestHeaders options w !! "Content-Type" = Some "application/json")
  /\ (headers options !! "Authorization" = None ->
      requestHeaders options w !! "Authorization" =
        match getCookie "access_token" w with
        | Str t => if String.eqb t "" then None else Some ("Bearer " +:+ t)
        | _ => None
        end)
  /\ (forall key, key <> "Authorization" -> key <> "Content-Type" ->
      requestHeaders options w !! key = headers options !! key).
Proof.
  refine (conj _ (conj _ (conj _ _))).
  - intros key v Hv. rewrite requestHeaders_lookup, Hv. reflexivity.
  - intros Hnone. rewrite requestHeaders_lookup, Hnone. reflexivity.
  - intros Hnone. rewrite requestHeaders_lookup, Hnone. reflexivity.
  - intros key Ha Hc. rewrite requestHeaders_lookup.
    apply String.eqb_neq in Ha, Hc. rewrite Ha, Hc.
    destruct (headers options !! key); reflexivity.
Qed.

(** X16. After [clearAuthData] a request carries an [Authorization] header
    only if the caller passes one, and after [saveAuthData] a caller's
    [Authorization] header still replaces the bearer of the saved token. *)
Theorem requestHeaders_after_logout (options : RequestInit) (authData : AuthData)
    (w : World) :
  jarOk (cookies w) -> 0 <= now w ->
  requestHeaders options (clearAuthData w) !! "Authorization" =
    headers options !! "Authorization"
  /\ (forall v : string,
        headers options !! "Authorization" = Some v ->
        requestHeaders options (saveAuthData env JSON_stringify authData w)
          !! "Authorization" = Some v).
Proof.
  intros Hjar Hnow. split.
  - rewrite requestHeaders_lookup.
    rewrite (getCookie_access_cleared w Hjar Hnow).
    destruct (headers options !! "Authorization"); reflexivity.
  - intros v Hv. rewrite requestHeaders_lookup, Hv. reflexivity.
Qed.

(** X17. [apiRequest] returns a value exactly when [fetch] gave a response
    whose status is a success and whose body parsed, and the value is that
    body; in every other case it throws. *)
Theorem apiRequest_returns_iff (fetch : Request -> result Response)
    (endpoint : string) (options : RequestInit) (w : World) (data : json) :
  (apiRequest env fetch endpoint options w = Returns data <->
   exists response,
     fetch (buildRequest env endpoint options w) = Returns response
     /\ ok response = true /\ response_json response = Returns data)
  /\ ((forall response,
         fetch (buildRequest env endpoint options w) = Returns response ->
         ok response = false) ->
      exists e, apiRequest env fetch endpoint options w = Throws e).
Proof.
  assert (Hthrow : forall d, exists e, throwApiError d = Throws e).
  { intros d. unfold throwApiError, orElse.
    destruct (getProp d "detail") as [detail|e] eqn:Hdetail; cbn; [|eauto].
    destruct (truthy_opt detail); cbn.
    - destruct (truthy_opt detail); cbn; eauto.
    - destruct (getProp d "message") as [m|e]; cbn; [|eauto].
      destruct (truthy_opt m); cbn; eauto. }
  unfold apiRequest. split; [split|].
  - destruct (fetch (buildRequest env endpoint options w)) as [response|e];
      cbn; [|discriminate].
    destruct (response_json response) as [d|e] eqn:Hjson; cbn; [|discriminate].
    destruct (ok response) eqn:Hok; cbn.
    + intros [= <-]. exists response. rewrite Hjson. auto.
    + destruct (Hthrow d) as [e ->]. discriminate.
  - intros (response & -> & Hok & Hjson). cbn. rewrite Hjson, Hok. reflexivity.
  - intros Hbad.
    destruct (fetch (buildRequest env endpoint options w)) as [response|e];
      cbn; [|eauto].
    rewrite (Hbad response eq_refl).
    destruct (response_json response) as [d|e]; cbn; [|eauto].
    destruct (Hthrow d) as [e ->]. eauto.
Qed.

Lemma apiRequest_not_ok (fetch : Request -> result Response)
    (endpoint : string) (options : RequestInit) (w : World)
    (response : Response) (fields : list (string * json)) :
  fetch (buildRequest env endpoint options w) = Returns response ->
  ok response = false -> response_json response = Returns (JObj fields) ->
  apiRequest env fetch endpoint options w =
    Throws (Error (failureMessage (JObj fields))).
Proof.
  intros Hfetch Hok Hjson.
  unfold apiRequest. rewrite Hfetch. cbn. rewrite Hjson, Hok. cbn.
  unfold throwApiError, failureMessage, orElse.
  cbn. destruct (assoc "detail" fields) as [d|]; cbn.
  + destruct (truthy d) eqn:Hd; cbn; rewrite ?Hd; cbn; [reflexivity|].
    destruct (assoc "message" fields) as [m|]; cbn; [|reflexivity].
    destruct (truthy m) eqn:Hm; cbn; rewrite ?Hm; reflexivity.
  + destruct (assoc "message" fields) as [m|]; cbn; [|reflexivity].
    destruct (truthy m) eqn:Hm; cbn; rewrite ?Hm; reflexivity.
Qed.

(** X18. On a status that is no success the [detail] of the body is the
    message thrown whenever it is a non-empty text, whatever [message]
    holds; [message] is used when [detail] is missing, [null], [false] or
    the empty text. *)
Theorem apiRequest_detail_first (fetch : Request -> result Response)
    (endpoint : string) (options : RequestInit) (w : World)
    (response : Response) (fields : list (string * json)) :
  fetch (buildRequest env endpoint options w) = Returns response ->
  ok response = false -> response_json response = Returns (JObj fields) ->
  (forall text, assoc "detail" fields = Some (JStr text) -> text <> "" ->
     apiRequest env fetch endpoint options w = Throws (Error text))
  /\ (forall d text,
        assoc "detail" fields = None \/
        (assoc "detail" fields = Some d /\
         (d = JNull \/ d = JBool false \/ d = JStr "")) ->
        assoc "message" fields = Some (JStr text) -> text <> "" ->
        apiRequest env fetch endpoint options w = Throws (Error text)).
Proof.
  intros Hfetch Hok Hjson.
  rewrite (apiRequest_not_ok fetch endpoint options w response fields
             Hfetch Hok Hjson).
  split.
  - intros text Hd Hne. rewrite (failureMessage_detail fields text Hd Hne).
    reflexivity.
  - intros d text Hd Hm Hne. f_equal. f_equal.
    apply String.eqb_neq in Hne.
    unfold failureMessage. rewrite Hm.
    destruct Hd as [-> | (-> & [-> | [-> | ->]])]; cbn; rewrite Hne; reflexivity.
Qed.

End StoreMore.

End ApiMore.

(** * The email pattern of the pages *)
Module RegexMore.
Import Api ApiSpec Regex.

Lemma append_nil_r (s : string) : s +:+ "" = s.
Proof. induction s as [|c s IH]; [reflexivity|]. rewrite append_cons, IH. reflexivity. Qed.

Lemma append_assoc (a b c : string) : (a +:+ b) +:+ c = a +:+ (b +:+ c).
Proof.
  induction a as [|x a IH]; [rewrite !append_nil_l; reflexivity|].
  rewrite !append_cons, IH. reflexivity.
Qed.

Lemma append_eq_nil (a b : string) : a +:+ b = "" -> a = "" /\ b = "".
Proof.
  destruct a as [|x a]; [rewrite append_nil_l; auto|].
  rewrite append_cons. discriminate.
Qed.

Lemma append_eq_cons (a b : string) (c : ascii) (s : string) :
  a +:+ b = String c s ->
  (a = "" /\ b = String c s) \/ (exists a', a = String c a' /\ s = a' +:+ b).
Proof.
  destruct a as [|x a]; [rewrite append_nil_l; auto|].
  rewrite append_cons. intros [= -> <-]. right. eauto.
Qed.

Lemma nullable_matches (r : regex) : nullable r = true -> matches r "".
Proof.
  induction r as [| |p|r1 IH1 r2 IH2|r1 IH1 r2 IH2|r IH]; cbn [nullable];
    try discriminate.
  - constructor.
  - intros [H1 H2]%andb_prop.
    rewrite <- (append_nil_l ""). constructor; auto.
  - intros [H|H]%orb_prop; [apply matches_alt_l | apply matches_alt_r]; auto.
  - constructor.
Qed.

Lemma matches_nullable (r : regex) (s : string) :
  matches r s -> s = "" -> nullable r = true.
Proof.
  induction 1 as [|p c Hp|r1 r2 s1 s2 _ IH1 _ IH2|r1 r2 s _ IH|r1 r2 s _ IH
                  |r|r s1 s2 _ IH1 _ IH2]; cbn [nullable]; try reflexivity.
  - discriminate.
  - intros [-> ->]%append_eq_nil. rewrite IH1, IH2; reflexivity.
  - intros ->. rewrite IH; reflexivity.
  - intros ->. rewrite IH by reflexivity. apply orb_true_r.
Qed.

Lemma derive_sound (c : ascii) (r : regex) (s : string) :
  matches (derive c r) s -> matches r (String c s).
Proof.
  revert s.
  induction r as [| |p|r1 IH1 r2 IH2|r1 IH1 r2 IH2|r IH]; intros s;
    cbn [derive].
  - inversion 1.
  - inversion 1.
  - destruct (p c) eqn:Hp; inversion 1; subst. constructor. exact Hp.
  - assert (Hseq : matches (Seq (derive c r1) r2) s ->
                   matches (Seq r1 r2) (String c s)).
    { inversion 1 as [| |? ? s1 s2 H1 H2| | | |]; subst.
      rewrite <- append_cons. constructor; auto. }
    destruct (nullable r1) eqn:Hn; [|exact Hseq].
    inversion 1 as [| | |? ? ? Hl|? ? ? Hr| |]; subst; [auto|].
    rewrite <- (append_nil_l (String c s)).
    constructor; [apply nullable_matches, Hn | apply IH2, Hr].
  - inversion 1 as [| | |? ? ? Hl|? ? ? Hr| |]; subst;
      [apply matches_alt_l | apply matches_alt_r]; auto.
  - inversion 1 as [| |? ? s1 s2 H1 H2| | | |]; subst.
    rewrite <- append_cons. apply matches_star_cons; auto.
Qed.

Lemma derive_complete (r : regex) (t : string) :
  matches r t -> forall c s, t = String c s -> matches (derive c r) s.
Proof.
  induction 1 as [|p x Hp|r1 r2 s1 s2 H1 IH1 H2 IH2|r1 r2 t _ IH|r1 r2 t _ IH
                  |r|r s1 s2 H1 IH1 H2 IH2]; intros c s Heq; cbn [derive];
    try discriminate.
  - injection Heq as -> <-. rewrite Hp. constructor.
  - destruct (append_eq_cons _ _ _ _ Heq) as [[-> ->] | (a' & -> & ->)].
    + rewrite (matches_nullable r1 "" H1 eq_refl).
      apply matches_alt_r. apply IH2. reflexivity.
    + assert (Hseq : matches (Seq (derive c r1) r2) (a' +:+ s2))
        by (constructor; [apply IH1; reflexivity | exact H2]).
      destruct (nullable r1); [apply matches_alt_l|]; exact Hseq.
  - apply matches_alt_l. auto.
  - apply matches_alt_r. auto.
  - destruct (append_eq_cons _ _ _ _ Heq) as [[-> ->] | (a' & -> & ->)].
    + apply (IH2 c s eq_refl).
    + constructor; [apply IH1; reflexivity | exact H2].
Qed.

(** [test] decides [matches]. *)
Lemma test_matches (r : regex) (s : string) : test r s = true <-> matches r s.
Proof.
  revert r. induction s as [|c s IH]; intros r; cbn [test].
  - split; [apply nullable_matches | intros H; exact (matches_nullable r "" H eq_refl)].
  - rewrite IH. split; [apply derive_sound|].
    intros H. exact (derive_complete r _ H c s eq_refl).
Qed.

Lemma matches_star_class (p : ascii -> bool) (s : string) :
  matches (Star (Class p)) s <-> allOf p s = true.
Proof.
  split.
  - remember (Star (Class p)) as r eqn:Hr. intros H.
    induction H as [| | | | | |r' s1 s2 H1 _ _ IH2]; try discriminate;
      [reflexivity|].
    injection Hr as ->. inversion H1; subst. rewrite append_cons, append_nil_l.
    cbn [allOf]. rewrite IH2 by reflexivity. rewrite andb_true_r. assumption.
  - induction s as [|c s IH]; cbn [allOf]; [constructor|].
    intros [Hc Hs]%andb_prop.
    change (String c s) with (String c "" +:+ s).
    apply matches_star_cons; [constructor; exact Hc | auto].
Qed.

Lemma matches_plus_class (p : ascii -> bool) (s : string) :
  matches (Plus (Class p)) s <-> s <> "" /\ allOf p s = true.
Proof.
  unfold Plus. split.
  - inversion 1 as [| |? ? s1 s2 H1 H2| | | |]; subst.
    inversion H1; subst. rewrite append_cons, append_nil_l.
    apply matches_star_class in H2. cbn [allOf].
    split; [discriminate|]. rewrite H2, andb_true_r. assumption.
  - intros [Hne Hall]. destruct s as [|c s]; [congruence|].
    cbn [allOf] in Hall. apply andb_prop in Hall as [Hc Hs].
    change (String c s) with (String c "" +:+ s).
    constructor; [constructor; exact Hc | apply matches_star_class, Hs].
Qed.

Lemma matches_chr (c : ascii) (s : string) :
  matches (Chr c) s <-> s = String c "".
Proof.
  unfold Chr. split.
  - inversion 1 as [|? x Hx| | | | |]; subst.
    apply Ascii.eqb_eq in Hx. subst. reflexivity.
  - intros ->. constructor. apply Ascii.eqb_refl.
Qed.

Lemma matches_seq_iff (r1 r2 : regex) (s : string) :
  matches (Seq r1 r2) s <->
  exists s1 s2, s = s1 +:+ s2 /\ matches r1 s1 /\ matches r2 s2.
Proof.
  split.
  - inversion 1; subst. eauto.
  - intros (s1 & s2 & -> & H1 & H2). constructor; assumption.
Qed.

(** X19. The email pattern of the signup and login forms accepts exactly
    the texts [local@domain.tld] whose three parts are not empty and hold
    neither white space nor [@] (they may hold further dots). *)
Theorem emailRegex_accepts (s : string) :
  test emailRegex s = true <->
  exists localPart domain tld : string,
    s = localPart +:+ "@" +:+ domain +:+ "." +:+ tld
    /\ localPart <> "" /\ domain <> "" /\ tld <> ""
    /\ allOf notSpaceNorAt localPart = true
    /\ allOf notSpaceNorAt domain = true
    /\ allOf notSpaceNorAt tld = true.
Proof.
  rewrite test_matches. unfold emailRegex. split.
  - intros (l & s1 & -> & [Hl Hl']%matches_plus_class & H)%matches_seq_iff.
    apply matches_seq_iff in H as (at_ & s2 & -> & ->%matches_chr & H).
    apply matches_seq_iff in H as (d & s3 & -> & [Hd Hd']%matches_plus_class & H).
    apply matches_seq_iff in H as (dot & t & -> & ->%matches_chr
                                   & [Ht Ht']%matches_plus_class).
    exists l, d, t. auto 10.
  - intros (l & d & t & -> & Hl & Hd & Ht & Hl' & Hd' & Ht').
    constructor; [apply matches_plus_class; auto|].
    constructor; [apply matches_chr; reflexivity|].
    constructor; [apply matches_plus_class; auto|].
    constructor; [apply matches_chr; reflexivity|].
    apply matches_plus_class; auto.
Qed.

End RegexMore.

(** * The pages *)
Module PagesMore.
Import Api ApiSpec Regex Pages.

Ltac script :=
  cbv [mbind mret Script_bind Script_ret setCell onWorld readWorld emit
       resultOf storeOf effectsOf callApi authAPI_signup authAPI_verifyOTP
       authAPI_login authAPI_resendOTP fst snd];
  cbn [page world app].

Lemma or_else_not_empty (a b : string) : b <> "" -> or_else a b <> "".
Proof. destruct a; [auto | discriminate]. Qed.

Section Signup.
Import SignupPage.
Context {N : JsNumber}.
Context {B : Browser}.
Variable env : Env.
Variable JSON_stringify : json -> string.
Variable fetch : Request -> result Response.

#[local] Abbreviation signupOptions r :=
  {| method := Some "POST";
     body := Some (JSON_stringify
                     (JObj [("email", JStr (email r));
                            ("password", JStr (password r))]));
     headers := ∅ |}.

#[local] Abbreviation valid r :=
  (email r <> "" /\ password r <> "" /\ confirmPassword r <> ""
   /\ test emailRegex (email r) = true
   /\ Nat.le 8 (String.length (password r))
   /\ password r = confirmPassword r).

(** What [validateForm] gives. *)
Lemma validateForm_spec (r : Signup) (s : Store Signup) :
  (valid r /\ validateForm r s = (true, s, []))
  \/ (~ valid r /\ exists text,
        text <> "" /\
        validateForm r s =
          (false, storeOf (setError text s), [])).
Proof.
  unfold validateForm, isEmpty.
  destruct (String.eqb_spec (email r) "") as [He|He];
    [right; split; [tauto|]; cbn [orb]; eexists; split; [|reflexivity]; discriminate|].
  destruct (String.eqb_spec (password r) "") as [Hp|Hp];
    [right; split; [tauto|]; cbn [orb]; eexists; split; [|reflexivity]; discriminate|].
  destruct (String.eqb_spec (confirmPassword r) "") as [Hc|Hc];
    [right; split; [tauto|]; cbn [orb]; eexists; split; [|reflexivity]; discriminate|].
  cbn [orb].
  destruct (test emailRegex (email r)) eqn:Ht; cbn [negb];
    [|right; split; [intros (_ & _ & _ & H & _); discriminate|];
      eexists; split; [|reflexivity]; discriminate].
  destruct (Nat.ltb_spec (String.length (password r)) 8) as [Hl|Hl];
    [right; split; [intros (_ & _ & _ & _ & H & _); lia|];
      eexists; split; [|reflexivity]; discriminate|].
  destruct (String.eqb_spec (password r) (confirmPassword r)) as [Hm|Hm]; cbn [negb];
    [|right; split; [tauto|]; eexists; split; [|reflexivity]; discriminate].
  left. split; [tauto | reflexivity].
Qed.

(** [handleSignup] on a form that fails a check. *)
Lemma handleSignup_invalid (r : Signup) (s : Store Signup) :
  ~ valid r ->
  exists text,
    text <> "" /\
    handleSignup env JSON_stringify fetch r s =
      (tt,
       {| page := {| email := email (page s); password := password (page s);
                     confirmPassword := confirmPassword (page s);
                     loading := loading (page s); error := text;
                     showOTPModal := showOTPModal (page s) |};
          world := world s |},
       []).
Proof.
  intros Hbad. unfold handleSignup, setLoading, setShowOTPModal, setError. script.
  match goal with
  | |- context [validateForm r ?s'] =>
      destruct (validateForm_spec r s') as [[Hv _] | (_ & text & Htext & ->)]
  end; [tauto|].
  exists text. split; [exact Htext | reflexivity].
Qed.

(** [handleSignup] on a form that passes them. *)
Lemma handleSignup_valid (r : Signup) (s : Store Signup) :
  valid r ->
  handleSignup env JSON_stringify fetch r s =
    (tt,
     {| page :=
          match apiRequest env fetch "/api/users/agent/signup/"
                  (signupOptions r) (world s) with
          | Returns _ =>
              {| email := email (page s); password := password (page s);
                 confirmPassword := confirmPassword (page s);
                 loading := false; error := ""; showOTPModal := true |}
          | Throws err =>
              {| email := email (page s); password := password (page s);
                 confirmPassword := confirmPassword (page s);
                 loading := false;
                 error := or_else (message err) "Signup failed. Please try again.";
                 showOTPModal := showOTPModal (page s) |}
          end;
        world := world s |},
     [ApiCall "/api/users/agent/signup/" (signupOptions r)]).
Proof.
  intros Hok. unfold handleSignup, setLoading, setShowOTPModal, setError. script.
  match goal with
  | |- context [validateForm r ?s'] =>
      destruct (validateForm_spec r s') as [[_ ->] | (Hbad & _)]
  end; [|tauto].
  cbn [negb world page].
  destruct (apiRequest env fetch "/api/users/agent/signup/" (signupOptions r) (world s));
    reflexivity.
Qed.

Lemma valid_dec (r : Signup) : valid r \/ ~ valid r.
Proof.
  destruct (validateForm_spec r {| page := r; world := emptyWorld 0 |})
    as [[H _] | [H _]]; auto.
Qed.

(** X20. [handleSignup] calls the signup endpoint once, with the email and
    password of the form, exactly when the form passes every check of
    [validateForm]; it makes no other call, never navigates and leaves
    cookies and local storage alone. *)
Theorem handleSignup_effects (r : Signup) (s : Store Signup) :
  (effectsOf (handleSignup env JSON_stringify fetch r s) =
     [ApiCall "/api/users/agent/signup/" (signupOptions r)] <-> valid r)
  /\ (effectsOf (handleSignup env JSON_stringify fetch r s) = [] <-> ~ valid r)
  /\ world (storeOf (handleSignup env JSON_stringify fetch r s)) = world s.
Proof.
  destruct (valid_dec r) as [Hok | Hbad].
  - rewrite (handleSignup_valid r s Hok). cbn [effectsOf storeOf fst snd world].
    refine (conj _ (conj _ eq_refl)); split; auto; try discriminate; tauto.
  - destruct (handleSignup_invalid r s Hbad) as (text & _ & ->).
    cbn [effectsOf storeOf fst snd world].
    refine (conj _ (conj _ eq_refl)); split; auto; try discriminate; tauto.
Qed.

(** X21. After [handleSignup] the error text is empty exactly when the
    form was valid and the request succeeded, which is exactly when the
    submit opened the code dialog; the spinner is off after any request;
    the fields of the form are never changed. *)
Theorem handleSignup_cells (r : Signup) (s : Store Signup) :
  let p' := page (storeOf (handleSignup env JSON_stringify fetch r s)) in
  (error p' = "" <->
   valid r /\ exists data,
     apiRequest env fetch "/api/users/agent/signup/" (signupOptions r) (world s) =
       Returns data)
  /\ showOTPModal p' = showOTPModal (page s) || String.eqb (error p') ""
  /\ (valid r -> loading p' = false)
  /\ (~ valid r -> loading p' = loading (page s))
  /\ email p' = email (page s) /\ password p' = password (page s)
  /\ confirmPassword p' = confirmPassword (page s).
Proof.
  destruct (valid_dec r) as [Hok | Hbad].
  - rewrite (handleSignup_valid r s Hok). cbn [storeOf fst snd page]. cbv zeta.
    destruct (apiRequest env fetch "/api/users/agent/signup/" (signupOptions r)
                (world s)) as [data|err]; cbn [error showOTPModal loading email
                                                password confirmPassword].
    + rewrite orb_true_r.
      refine (conj _ (conj eq_refl (conj _ (conj _ (conj eq_refl (conj eq_refl eq_refl))))));
        [split; eauto | reflexivity | tauto].
    + pose proof (or_else_not_empty (message err) "Signup failed. Please try again.")
        as Hne.
      apply String.eqb_neq in Hne as Hne'; [|discriminate]. rewrite Hne', orb_false_r.
      refine (conj _ (conj eq_refl (conj _ (conj _ (conj eq_refl (conj eq_refl eq_refl))))));
        [|reflexivity | tauto].
      split; [intros H; exfalso; apply Hne; [discriminate | exact H]|].
      intros (_ & data & Hdata). discriminate.
  - destruct (handleSignup_invalid r s Hbad) as (text & Htext & ->).
    cbn [storeOf fst snd page]. cbv zeta.
    cbn [error showOTPModal loading email password confirmPassword].
    apply String.eqb_neq in Htext as Htext'. rewrite Htext', orb_false_r.
    refine (conj _ (conj eq_refl (conj _ (conj _ (conj eq_refl (conj eq_refl eq_refl))))));
      [split; [congruence | tauto] | tauto | reflexivity].
Qed.

#[local] Abbreviation verifyOptions r otp :=
  {| method := Some "POST";
     body := Some (JSON_stringify
                     (JObj [("email", JStr (email r)); ("otp", JStr otp)]));
     headers := ∅ |}.



End Signup.




Section Login.
Import LoginPage.
Context {N : JsNumber}.
Context {B : Browser}.
Variable env : Env.
Variable JSON_parse : string -> result json.
Variable JSON_stringify : json -> string.
Variable fetch : Request -> result Response.

#[local] Abbreviation loginOptions r :=
  {| method := Some "POST";
     body := Some (JSON_stringify
                     (JObj [("email", JStr (email r));
                            ("password", JStr (password r))]));
     headers := ∅ |}.

#[local] Abbreviation valid r :=
  (email r <> "" /\ password r <> "" /\ test emailRegex (email r) = true).

#[local] Abbreviation answer r s :=
  (apiRequest env fetch "/api/users/agent/login/" (loginOptions r) (world s)
   ≫= authDataOf).

Lemma login_validateForm_spec (r : Login) (s : Store Login) :
  (valid r /\ validateForm r s = (true, s, []))
  \/ (~ valid r /\ exists text,
        text <> "" /\ validateForm r s = (false, storeOf (setError text s), [])).
Proof.
  unfold validateForm, isEmpty.
  destruct (String.eqb_spec (email r) "") as [He|He];
    [right; split; [tauto|]; cbn [orb]; eexists; split; [|reflexivity]; discriminate|].
  destruct (String.eqb_spec (password r) "") as [Hp|Hp];
    [right; split; [tauto|]; cbn [orb]; eexists; split; [|reflexivity]; discriminate|].
  cbn [orb].
  destruct (test emailRegex (email r)) eqn:Ht; cbn [negb];
    [|right; split; [intros (_ & _ & H); discriminate|];
      eexists; split; [|reflexivity]; discriminate].
  left. split; [tauto | reflexivity].
Qed.

Lemma login_valid_dec (r : Login) : valid r \/ ~ valid r.
Proof.
  destruct (login_validateForm_spec r {| page := r; world := emptyWorld 0 |})
    as [[H _] | [H _]]; auto.
Qed.

Lemma handleLogin_invalid (r : Login) (s : Store Login) :
  ~ valid r ->
  exists text,
    text <> "" /\
    handleLogin env JSON_stringify fetch r s =
      (tt,
       {| page := {| email := email (page s); password := password (page s);
                     loading := loading (page s); error := text |};
          world := world s |},
       []).
Proof.
  intros Hbad. unfold handleLogin, setLoading, setError. script.
  match goal with
  | |- context [validateForm r ?s'] =>
      destruct (login_validateForm_spec r s') as [[Hv _] | (_ & text & Htext & ->)]
  end; [tauto|].
  exists text. split; [exact Htext | reflexivity].
Qed.

Lemma handleLogin_valid (r : Login) (s : Store Login) :
  valid r ->
  handleLogin env JSON_stringify fetch r s =
    match answer r s with
    | Returns authData =>
        (tt,
         {| page := {| email := email (page s); password := password (page s);
                       loading := false; error := "" |};
            world := saveAuthData env JSON_stringify authData (world s) |},
         [ApiCall "/api/users/agent/login/" (loginOptions r);
          RouterPush "/dashboard"])
    | Throws err =>
        (tt,
         {| page :=
              {| email := email (page s); password := password (page s);
                 loading := false;
                 error :=
                   if includes "Invalid credentials" (message err)
                   then "Invalid email or password"
                   else if includes "Agent account required" (message err)
                   then "This account is not registered as an agent"
                   else or_else (message err) "Login failed. Please try again." |};
            world := world s |},
         [ApiCall "/api/users/agent/login/" (loginOptions r)])
    end.
Proof.
  intros Hok. unfold handleLogin, showLoginError, setLoading, setError. script.
  match goal with
  | |- context [validateForm r ?s'] =>
      destruct (login_validateForm_spec r s') as [[_ ->] | (Hbad & _)]
  end; [|tauto].
  cbn [negb world page].
  destruct (result_bind _ _ authDataOf _) as [authData|err]; [reflexivity|].
  destruct (includes "Invalid credentials" (message err)); [reflexivity|].
  destruct (includes "Agent account required" (message err)); reflexivity.
Qed.



(** X25. [handleKeyPress] of the login page submits on [Enter] only, and
    not while a login is in flight: any other key, and any key while
    loading, changes nothing and calls nothing; the request is sent exactly
    on [Enter], not loading, with a valid form. *)
Theorem login_handleKeyPress_submits (r : Login) (key : string) (s : Store Login) :
  (key <> "Enter" \/ loading r = true ->
   handleKeyPress env JSON_stringify fetch r key s = (tt, s, []))
  /\ (effectsOf (handleKeyPress env JSON_stringify fetch r key s) <> [] <->
      key = "Enter" /\ loading r = false /\ valid r).
Proof.
  clear JSON_parse. unfold handleKeyPress.
  destruct (String.eqb_spec key "Enter") as [->|Hkey]; cbn [andb].
  - destruct (loading r) eqn:Hl; cbn [negb].
    + split; [reflexivity|]. cbn. split; [congruence|]. intros (_ & H & _). discriminate.
    + split; [intros [H|H]; congruence|].
      destruct (login_valid_dec r) as [Hok | Hbad].
      * rewrite (handleLogin_valid r s Hok).
        destruct (answer r s); cbn; split; auto; discriminate.
      * destruct (handleLogin_invalid r s Hbad) as (text & _ & ->). cbn.
        split; [congruence | tauto].
  - split; [reflexivity|]. cbn. split; [congruence | tauto].
Qed.

Section Dashboard.
Import DashboardPage.



(** X28. After [handleLogout] the dashboard's check redirects to the login
    page, whatever the cells of the page are; the logout itself navigates
    there and leaves the cells, and so the profile on display, as they
    were. *)
Theorem logout_then_dashboard (s : Store Dashboard) (d : Dashboard) :
  jarOk (cookies (world s)) -> 0 <= now (world s) ->
  let out := handleLogout s in
  let s' := {| page := d; world := world (storeOf out) |} in
  effectsOf out = [RouterPush "/auth/login"]
  /\ page (storeOf out) = page s
  /\ checkAuthentication JSON_parse s' = (Returns tt, s', [RouterPush "/auth/login"])
  /\ getUserData JSON_parse (world (storeOf out)) = Returns JNull.
Proof.
  intros Hjar Hnow. cbv zeta. unfold handleLogout, checkAuthentication. script.
  rewrite (isAuthenticated_clearAuthData (world s) Hjar Hnow). cbn [negb].
  refine (conj eq_refl (conj eq_refl (conj eq_refl _))).
  unfold getUserData, clearAuthData, localStorage_removeItem. cbv zeta.
  cbn [localStorage]. rewrite lookup_delete_eq. reflexivity.
Qed.

(** X29. For an authenticated visitor whose stored profile is no JSON
    text, the dashboard's check throws the parse error: it neither
    redirects nor ends the loading state. *)
Theorem dashboard_with_corrupt_profile (s : Store Dashboard) (text : string)
    (e : js_error) :
  isAuthenticated (world s) = true ->
  localStorage (world s) !! "user" = Some text -> text <> "" ->
  JSON_parse text = Throws e ->
  checkAuthentication JSON_parse s = (Throws e, s, []).
Proof.
  intros Hauth Hstored Htext Hparse. unfold checkAuthentication. script.
  rewrite Hauth. cbn [negb]. unfold getUserData. rewrite Hstored.
  apply String.eqb_neq in Htext. rewrite Htext. cbn [negb]. rewrite Hparse.
  reflexivity.
Qed.

End Dashboard.

End Login.

End PagesMore.

(** * The signup page and its code dialog together *)
Module SignupFlow.
Import Api ApiSpec Pages OTPModal OTPModalCalls OTPModalMore.

Section Flow.
Context {N : JsNumber}.
Context {B : Browser}.
Variable env : Env.
Variable JSON_stringify : json -> string.
Variable fetch : Request -> result Response.

#[local] Abbreviation verifyOptions r code :=
  {| method := Some "POST";
     body := Some (JSON_stringify
                     (JObj [("email", JStr (SignupPage.email r));
                            ("otp", JStr code)]));
     headers := ∅ |}.


End Flow.

End SignupFlow.

(** * The further properties on concrete inputs *)
Module MoreExamples.
Import OTPModal OTPModalSpec OTPModalCalls OTPModalMore.
Import Api ApiSpec ApiMore Regex RegexMore Pages PagesMore.

#[local] Existing Instance lenient.

Lemma first_then (A B : Prop) : A -> (A -> B) -> A /\ B.
Proof. intros HA HB. exact (conj HA (HB HA)). Defined.

(** X1 after pasting a code with other characters, then typing a seventh
    digit. *)
Lemma otp_stays_digits_witness :
  exists c : Component,
    run "agent@example.com" "signup" [Change "12a-34"; Change "1234567"]
      (mount true) = Some c
    /\ otp (state c) = "1234"
    /\ allDigits (otp (state c)) = true
    /\ (String.length (otp (state c)) <= 6)%nat.
Proof.
  eexists. apply first_then; [vm_compute; reflexivity | intros Hrun].
  split; [reflexivity|].
  exact (otp_stays_digits "agent@example.com" "signup" true _ _ Hrun).
Defined.

(** X2 while a verification is awaited. *)
Lemma one_request_in_flight_witness :
  exists c : Component,
    run "agent@example.com" "signup" [Change "123456"; ClickVerify]
      (mount true) = Some c
    /\ loading (state c) = true
    /\ (pendingVerify c + pendingResend c = 1)%nat.
Proof.
  eexists. apply first_then; [vm_compute; reflexivity | intros Hrun].
  split; [reflexivity|].
  apply (one_request_in_flight "agent@example.com" "signup" _
           (run_reachable "agent@example.com" "signup" _ _ _
              (reachable_mount _ _ true) Hrun)).
  reflexivity.
Defined.

(** X3 on the click that verifies a full code. *)
Lemma calls_are_well_formed_witness :
  exists c c' : Component,
    run "agent@example.com" "signup" [Change "123456"] (mount true) = Some c
    /\ step "agent@example.com" "signup" ClickVerify c = Some c'
    /\ emitted "agent@example.com" "signup" ClickVerify c = [OnVerify "123456"]
    /\ (length (emitted "agent@example.com" "signup" ClickVerify c) <= 1)%nat.
Proof.
  do 2 eexists. apply first_then; [vm_compute; reflexivity | intros Hrun].
  apply first_then; [vm_compute; reflexivity | intros Hstep].
  split; [reflexivity|].
  apply (calls_are_well_formed "agent@example.com" "signup" ClickVerify _ _
           (run_reachable "agent@example.com" "signup" _ _ _
              (reachable_mount _ _ true) Hrun) Hstep).
Defined.

(** X4 on the whole minute. *)
Lemma ticks_count_down_witness :
  exists c' : Component,
    run "agent@example.com" "signup" (repeat Tick 60) (mount true) = Some c'
    /\ countdown (state c') = 0
    /\ canResend (state c') = true
    /\ step "agent@example.com" "signup" Tick c' = None.
Proof.
  destruct (ticks_count_down "agent@example.com" "signup" 60 (mount true))
    as (c' & Hrun & Hcd & _ & _ & _ & Hcr & Hstop).
  - apply reachable_mount.
  - reflexivity.
  - vm_compute. discriminate.
  - exists c'. split; [exact Hrun|]. split; [exact Hcd|].
    split; [apply Hcr; reflexivity | apply Hstop; reflexivity].
Defined.

(** X5 on a modal that was mounted closed. *)
Lemma timer_runs_only_while_counting_witness :
  step "agent@example.com" "signup" Tick (mount false) = None.
Proof.
  apply (timer_runs_only_while_counting "agent@example.com" "signup" (mount false)).
  - apply reachable_mount.
  - left. reflexivity.
Defined.

(** X6 on a modal that shows a code and the error of a failed
    verification. *)
Lemma reopen_keeps_code_and_error_witness :
  exists c c1 c2 : Component,
    run "agent@example.com" "signup"
      [Change "123456"; ClickVerify; VerifySettled (Rejected (Error "Wrong code"));
       Tick] (mount true) = Some c
    /\ step "agent@example.com" "signup" Close c = Some c1
    /\ step "agent@example.com" "signup" Open c1 = Some c2
    /\ otp (state c2) = "123456"
    /\ error (state c2) = "Wrong code"
    /\ countdown (state c2) = 60.
Proof.
  do 3 eexists. apply first_then; [vm_compute; reflexivity | intros Hrun].
  apply first_then; [vm_compute; reflexivity | intros Hclose].
  apply first_then; [vm_compute; reflexivity | intros Hopen].
  destruct (reopen_keeps_code_and_error "agent@example.com" "signup" _ _ _
              Hclose Hopen) as (Hotp & Herr & _ & Hcd & _).
  split; [exact Hotp|]. split; [exact Herr | exact Hcd].
Defined.

(** X7 on a verification that fails after the modal was closed. *)
Lemma late_rejection_shows_on_reopen_witness :
  exists c : Component,
    run "agent@example.com" "signup" [Change "123456"; ClickVerify] (mount true) =
      Some c
    /\ exists c' : Component,
         run "agent@example.com" "signup"
           [Close; VerifySettled (Rejected (Error "Wrong code")); Open] c = Some c'
         /\ error (state c') = "Wrong code"
         /\ loading (state c') = false.
Proof.
  eexists. apply first_then; [vm_compute; reflexivity | intros Hrun].
  match goal with
  | |- context [run _ _ _ ?c] =>
      destruct (late_rejection_shows_on_reopen "agent@example.com" "signup" c
                  (Error "Wrong code"))
        as (c' & Hrun' & _ & Herr & Hl & _)
  end.
  - reflexivity.
  - cbn. lia.
  - exists c'. split; [exact Hrun'|]. split; [exact Herr | exact Hl].
Defined.

(** X8 on a token that holds [=] and [;]. *)
Lemma getCookie_value_is_bare_witness :
  getCookie "access_token"
    (setCookie development "access_token" "a=b;c" 7 (emptyWorld 0)) = Str "a"
  /\ contains "=" "a" = false /\ contains ";" "a" = false.
Proof.
  apply first_then; [vm_compute; reflexivity | intros Hget].
  exact (getCookie_value_is_bare _ _ _ Hget).
Defined.

(** X9 on a jar of two cookies. *)
Lemma deleteCookie_removes_witness :
  let w := {| cookies := [("access_token", "A"); ("theme", "dark")];
              localStorage := ∅; now := 0 |} in
  getCookie "access_token" (deleteCookie "access_token" w) = Null
  /\ getCookie "theme" (deleteCookie "access_token" w) = Str "dark".
Proof.
  cbv zeta.
  destruct (deleteCookie_removes "access_token"
              {| cookies := [("access_token", "A"); ("theme", "dark")];
                 localStorage := ∅; now := 0 |}) as (Hgone & Hkept & _).
  - repeat constructor.
  - reflexivity.
  - cbn. lia.
  - split; [exact Hgone|]. rewrite Hkept by discriminate. reflexivity.
Defined.

(** X10 on a token that is replaced. *)
Lemma setCookie_overwrites_witness :
  getCookie "access_token"
    (setCookie development "access_token" "new" 7
       (setCookie development "access_token" "old" 7 (emptyWorld 0))) = Str "new".
Proof.
  destruct (setCookie_overwrites development "access_token" "old" "new" 7 7
              (emptyWorld 0)) as (_ & Hget & _).
  - constructor.
  - reflexivity.
  - reflexivity.
  - reflexivity.
  - lia.
  - lia.
  - exact Hget.
Defined.

(** X11 on a browser that holds both tokens and a profile. *)
Lemma clearAuthData_logs_out_witness :
  let w := {| cookies := [("access_token", "A"); ("refresh_token", "B")];
              localStorage := {[ "user" := "true" ]}; now := 0 |} in
  isAuthenticated w = true
  /\ isAuthenticated (clearAuthData w) = false
  /\ getUserData parseLiteral (clearAuthData w) = Returns JNull.
Proof.
  cbv zeta. split; [reflexivity|].
  destruct (clearAuthData_logs_out parseLiteral
              {| cookies := [("access_token", "A"); ("refresh_token", "B")];
                 localStorage := {[ "user" := "true" ]}; now := 0 |})
    as (Hauth & _ & _ & Huser).
  - repeat constructor.
  - cbn. lia.
  - split; [exact Hauth | exact Huser].
Defined.

(** X12 on a browser that also holds a cookie of the page's theme. *)
Lemma clearAuthData_frame_witness :
  let w := {| cookies := [("access_token", "A"); ("theme", "dark")];
              localStorage := {[ "user" := "true" ]}; now := 0 |} in
  lookupCookie "theme" (cookies (clearAuthData w)) = Some "dark"
  /\ clearAuthData (clearAuthData w) = clearAuthData w.
Proof.
  cbv zeta.
  destruct (clearAuthData_frame
              {| cookies := [("access_token", "A"); ("theme", "dark")];
                 localStorage := {[ "user" := "true" ]}; now := 0 |})
    as (Hkept & _ & Htwice).
  - cbn. lia.
  - split; [|exact Htwice]. rewrite Hkept by discriminate. reflexivity.
Defined.

(** X13 on the profile [true], which [parseLiteral] reads back. *)
Lemma saveAuthData_profile_round_trip_witness :
  getUserData parseLiteral
    (saveAuthData development
       (fun v => match v with JBool true => "true" | _ => "null" end)
       {| access := "A"; refresh := "B"; user := Some (JBool true) |}
       (emptyWorld 0)) = Returns (JBool true).
Proof.
  apply (saveAuthData_profile_round_trip development parseLiteral
           (fun v => match v with JBool true => "true" | _ => "null" end)
           {| access := "A"; refresh := "B"; user := Some (JBool true) |}
           (JBool true) (emptyWorld 0)).
  - reflexivity.
  - reflexivity.
  - discriminate.
  - reflexivity.
Defined.

(** X14 on a second login whose answer carries no profile. *)
Lemma saveAuthData_again_witness :
  let w' :=
    saveAuthData development
      (fun v => match v with JBool true => "true" | _ => "null" end)
      {| access := "A2"; refresh := "B2"; user := None |}
      (saveAuthData development
         (fun v => match v with JBool true => "true" | _ => "null" end)
         {| access := "A1"; refresh := "B1"; user := Some (JBool true) |}
         (emptyWorld 0)) in
  getCookie "access_token" w' = Str "A2"
  /\ getUserData parseLiteral w' = Returns (JBool true).
Proof.
  cbv zeta.
  pose proof (saveAuthData_again development parseLiteral
                (fun v => match v with JBool true => "true" | _ => "null" end)
                {| access := "A1"; refresh := "B1"; user := Some (JBool true) |}
                {| access := "A2"; refresh := "B2"; user := None |}
                (JBool true) (emptyWorld 0)) as H.
  cbv zeta in H. destruct H as (Haccess & _ & _ & Huser).
  - constructor.
  - reflexivity.
  - reflexivity.
  - discriminate.
  - reflexivity.
  - reflexivity.
  - reflexivity.
  - reflexivity.
  - reflexivity.
  - split; [exact Haccess | exact Huser].
Defined.

(** X16 on a request without headers of its own. *)
Lemma requestHeaders_after_logout_witness :
  let w := {| cookies := [("access_token", "A"); ("refresh_token", "B")];
              localStorage := ∅; now := 0 |} in
  requestHeaders {| method := Some "POST"; body := None; headers := ∅ |} w
    !! "Authorization" = Some "Bearer A"
  /\ requestHeaders {| method := Some "POST"; body := None; headers := ∅ |}
       (clearAuthData w) !! "Authorization" = None.
Proof.
  cbv zeta. split; [vm_compute; reflexivity|].
  destruct (requestHeaders_after_logout development (fun _ => "null")
              {| method := Some "POST"; body := None; headers := ∅ |}
              {| access := "A"; refresh := "B"; user := None |}
              {| cookies := [("access_token", "A"); ("refresh_token", "B")];
                 localStorage := ∅; now := 0 |}) as (Hnone & _).
  - repeat constructor.
  - cbn. lia.
  - rewrite Hnone. apply lookup_empty.
Defined.

(** X18 on a refusal that carries both texts. *)
Lemma apiRequest_detail_first_witness :
  apiRequest development
    (fun _ => Returns {| ok := false;
                         response_json :=
                           Returns (JObj [("message", JStr "Bad request");
                                          ("detail", JStr "Invalid credentials")]) |})
    "/api/users/agent/login/"
    {| method := Some "POST"; body := None; headers := ∅ |}
    (emptyWorld 0) = Throws (Error "Invalid credentials").
Proof.
  destruct (apiRequest_detail_first development
              (fun _ => Returns {| ok := false;
                                   response_json :=
                                     Returns (JObj [("message", JStr "Bad request");
                                                    ("detail", JStr "Invalid credentials")]) |})
              "/api/users/agent/login/"
              {| method := Some "POST"; body := None; headers := ∅ |}
              (emptyWorld 0) _ _ eq_refl eq_refl eq_refl) as (Hdetail & _).
  apply Hdetail; [reflexivity | discriminate].
Defined.

(** X19 on an address with a subdomain. *)
Lemma emailRegex_accepts_witness :
  exists localPart domain tld : string,
    "agent@mail.example.com" = localPart +:+ "@" +:+ domain +:+ "." +:+ tld
    /\ localPart <> "" /\ domain <> "" /\ tld <> ""
    /\ allOf notSpaceNorAt localPart = true
    /\ allOf notSpaceNorAt domain = true
    /\ allOf notSpaceNorAt tld = true.
Proof.
  apply (proj1 (emailRegex_accepts "agent@mail.example.com")).
  vm_compute. reflexivity.
Defined.





(** X28 on a dashboard that shows a profile. *)
Lemma logout_then_dashboard_witness :
  let s := {| page := {| DashboardPage.user := JBool true;
                         DashboardPage.loading := false |};
              world := {| cookies := [("access_token", "A"); ("refresh_token", "B")];
                          localStorage := {[ "user" := "true" ]}; now := 0 |} |} in
  effectsOf (DashboardPage.checkAuthentication parseLiteral
               {| page := DashboardPage.initialDashboard;
                  world := world (storeOf (DashboardPage.handleLogout s)) |}) =
    [RouterPush "/auth/login"]
  /\ DashboardPage.user (page (storeOf (DashboardPage.handleLogout s))) = JBool true.
Proof.
  cbv zeta.
  pose proof (logout_then_dashboard parseLiteral
                {| page := {| DashboardPage.user := JBool true;
                              DashboardPage.loading := false |};
                   world := {| cookies := [("access_token", "A");
                                           ("refresh_token", "B")];
                               localStorage := {[ "user" := "true" ]};
                               now := 0 |} |}
                DashboardPage.initialDashboard) as H.
  cbv zeta in H. destruct H as (_ & Hpage & Hcheck & _).
  - repeat constructor.
  - cbn. lia.
  - split; [rewrite Hcheck; reflexivity | rewrite Hpage; reflexivity].
Defined.

(** X29 on a stored profile that was cut short. *)
Lemma dashboard_with_corrupt_profile_witness :
  resultOf (DashboardPage.checkAuthentication parseLiteral
              {| page := DashboardPage.initialDashboard;
                 world := {| cookies := [("access_token", "A")];
                             localStorage := {[ "user" := "{" ]}; now := 0 |} |}) =
    Throws (SyntaxError "Unexpected token").
Proof.
  rewrite (dashboard_with_corrupt_profile parseLiteral
             {| page := DashboardPage.initialDashboard;
                world := {| cookies := [("access_token", "A")];
                            localStorage := {[ "user" := "{" ]}; now := 0 |} |}
             "{" (SyntaxError "Unexpected token")).
  - reflexivity.
  - reflexivity.
  - apply lookup_singleton_eq.
  - discriminate.
  - reflexivity.
Defined.


(** X15 on a request that brings its own content type. *)
Lemma requestHeaders_precedence_witness :
  let w := {| cookies := [("access_token", "A")]; localStorage := ∅; now := 0 |} in
  let options := {| method := Some "POST"; body := None;
                    headers := {[ "Content-Type" := "text/plain" ]} |} in
  requestHeaders options w !! "Content-Type" = Some "text/plain"
  /\ requestHeaders options w !! "Authorization" = Some "Bearer A"
  /\ requestHeaders options w !! "Accept" = None.
Proof.
  cbv zeta.
  destruct (requestHeaders_precedence
              {| method := Some "POST"; body := None;
                 headers := {[ "Content-Type" := "text/plain" ]} |}
              {| cookies := [("access_token", "A")]; localStorage := ∅; now := 0 |})
    as (Hcaller & _ & Hbearer & Hother).
  split; [apply Hcaller; apply lookup_singleton_eq|].
  split; [rewrite Hbearer by (apply lookup_singleton_ne; discriminate); reflexivity|].
  rewrite Hother by discriminate. apply lookup_singleton_ne. discriminate.
Defined.

(** X17 on an answer with a success status. *)
Lemma apiRequest_returns_iff_witness :
  apiRequest development
    (fun _ => Returns {| ok := true; response_json := Returns (JBool true) |})
    "/api/users/agent/login/"
    {| method := Some "POST"; body := None; headers := ∅ |}
    (emptyWorld 0) = Returns (JBool true).
Proof.
  apply (apiRequest_returns_iff development
           (fun _ => Returns {| ok := true; response_json := Returns (JBool true) |})
           "/api/users/agent/login/"
           {| method := Some "POST"; body := None; headers := ∅ |}
           (emptyWorld 0) (JBool true)).
  eexists. split; [reflexivity|]. split; reflexivity.
Defined.

(** X20 on a form whose two passwords differ. *)
Lemma handleSignup_effects_witness :
  let r := {| SignupPage.email := "agent@example.com";
              SignupPage.password := "secret123";
              SignupPage.confirmPassword := "secret124";
              SignupPage.loading := false; SignupPage.error := "";
              SignupPage.showOTPModal := false |} in
  effectsOf (SignupPage.handleSignup development (fun _ => "null")
               (fun _ => Throws (TypeError "Failed to fetch")) r
               {| page := r; world := emptyWorld 0 |}) = [].
Proof.
  cbv zeta.
  apply (handleSignup_effects development (fun _ => "null")
           (fun _ => Throws (TypeError "Failed to fetch"))).
  intros (_ & _ & _ & _ & _ & Hsame). discriminate Hsame.
Defined.

(** X21 on a valid form, with the server out of reach. *)
Lemma handleSignup_cells_witness :
  let r := {| SignupPage.email := "agent@example.com";
              SignupPage.password := "secret123";
              SignupPage.confirmPassword := "secret123";
              SignupPage.loading := false; SignupPage.error := "";
              SignupPage.showOTPModal := false |} in
  SignupPage.loading
    (page (storeOf (SignupPage.handleSignup development (fun _ => "null")
                      (fun _ => Throws (TypeError "Failed to fetch")) r
                      {| page := r; world := emptyWorld 0 |}))) = false.
Proof.
  cbv zeta.
  pose proof (handleSignup_cells development (fun _ => "null")
                (fun _ => Throws (TypeError "Failed to fetch"))
                {| SignupPage.email := "agent@example.com";
                   SignupPage.password := "secret123";
                   SignupPage.confirmPassword := "secret123";
                   SignupPage.loading := false; SignupPage.error := "";
                   SignupPage.showOTPModal := false |}
                {| page := {| SignupPage.email := "agent@example.com";
                              SignupPage.password := "secret123";
                              SignupPage.confirmPassword := "secret123";
                              SignupPage.loading := false; SignupPage.error := "";
                              SignupPage.showOTPModal := false |};
                   world := emptyWorld 0 |}) as H.
  cbv zeta in H. destruct H as (_ & _ & Hoff & _).
  apply Hoff.
  split; [discriminate|]. split; [discriminate|]. split; [discriminate|].
  split; [vm_compute; reflexivity|]. split; [cbn; lia | reflexivity].
Defined.


(** X25 on the Enter key while a login is in flight. *)
Lemma login_handleKeyPress_submits_witness :
  let r := {| LoginPage.email := "agent@example.com";
              LoginPage.password := "secret";
              LoginPage.loading := true; LoginPage.error := "" |} in
  LoginPage.handleKeyPress development (fun _ => "null")
    (fun _ => Throws (TypeError "Failed to fetch")) r "Enter"
    {| page := r; world := emptyWorld 0 |} =
    (tt, {| page := r; world := emptyWorld 0 |}, []).
Proof.
  cbv zeta.
  apply (login_handleKeyPress_submits development (fun _ => "null")
           (fun _ => Throws (TypeError "Failed to fetch"))).
  right. reflexivity.
Defined.

End MoreExamples.
